(** * video_frame_extractor: the frame sampling and export pipeline

    A shallow embedding of [src/types.ts], [src/utils.ts], the handlers of
    [src/App.tsx] ([seek], [changeSpeed], [captureFrame], [detectVideoFPS],
    [handleOpenBatchModal], [startAutoCapture], [handleDownloadAll], the
    callbacks of the gallery) and the state of the batch modal
    ([AutoCaptureModal]), followed by the properties of the specification
    that concern them and by further properties of the code.

    Conventions.
    - A JavaScript [number] is a value of a type [T] carrying the operations
      of class [Number].  Two instances are given: [Q] (exact arithmetic) and
      [float] (IEEE 754 binary64, the arithmetic a JavaScript engine
      performs).  Pixel sizes, array indices and counters, which the code only
      ever uses as integers, are [Z] and [nat].
    - The browser (video element, canvas, image decoder, JSZip, timers) is the
      environment: each handler takes a record of oracles that says what the
      host answered at each interaction.
    - A [while] loop takes a fuel argument; a result [Unfinished] means that
      the fuel ran out, not that the code returned.
    - In a capture run the host answers every seek with a [seeked] event, and
      the times the run assigns to [video.currentTime] are finite numbers
      (the setter throws for the others, as [set_currentTime] does where
      [seek] assigns). *)

From Stdlib Require Import ZArith QArith Qround Bool Arith Lia List.
From Stdlib Require Import Permutation Sorted.
From Stdlib Require Import String Ascii.
From Stdlib Require Import PrimFloat FloatOps SpecFloat Uint63.
Import ListNotations.

Set Implicit Arguments.

(* A decimal literal of a binary64 number stands for the nearest one. *)
Set Warnings "-inexact-float".

(* ================================================================== *)
(** * JavaScript numbers *)
(* ================================================================== *)

(** The operations on [number] that the sources use.  [Math.floor] and
    [Math.round] return a number: a whole one, or their argument when that is
    NaN or infinite.  [ntoZ] is the integer part of a number, towards zero,
    and 0 for NaN and the infinities: what a conversion to an integer
    (ToIntegerOrInfinity on a finite number, the first step of the conversion
    to an integer type of an attribute) makes of it. *)
Class Number (T : Type) : Type := {
  nofZ   : Z -> T;            (* an integer literal *)
  nmilli : T;                 (* the literal 0.001 *)
  nadd   : T -> T -> T;
  nsub   : T -> T -> T;
  nmul   : T -> T -> T;
  ndiv   : T -> T -> T;
  nleb   : T -> T -> bool;    (* a <= b *)
  nltb   : T -> T -> bool;    (* a < b *)
  nfloor : T -> T;            (* Math.floor *)
  nround : T -> T;            (* Math.round: nearest integer, ties upwards *)
  ntoZ   : T -> Z             (* the integer part *)
}.

(** [Math.min(a, b)] and [a > b]. *)
Definition nmin {T} `{Number T} (a b : T) : T := if nltb b a then b else a.
Definition ngtb {T} `{Number T} (a b : T) : bool := nltb b a.

(** The integer part of a rational number: truncation towards zero. *)
Definition Qtruncate (x : Q) : Z :=
  if Qle_bool 0 x then Qfloor x else Qceiling x.

(** Exact rational arithmetic. *)
#[export] Instance Q_Number : Number Q := {
  nofZ   := inject_Z;
  nmilli := 1 # 1000;
  nadd   := Qplus;
  nsub   := Qminus;
  nmul   := Qmult;
  ndiv   := Qdiv;
  nleb   := Qle_bool;
  nltb   := fun a b => negb (Qle_bool b a);
  nfloor := fun x => inject_Z (Qfloor x);
  nround := fun x => inject_Z (Qfloor (x + (1 # 2)));
  ntoZ   := Qtruncate
}.

(** The exact value of a finite binary64 number (0 for NaN and the
    infinities). *)
Definition float_to_Q (x : float) : Q :=
  match Prim2SF x with
  | S754_finite s m e =>
      let mag :=
        if (0 <=? e)%Z then inject_Z (Zpos m * 2 ^ e)
        else Zpos m # Pos.shiftl 1 (Z.to_N (- e)) in
      if s then Qopp mag else mag
  | _ => 0
  end.

(** An integer literal, below 2^63 in magnitude. *)
Definition float_of_Z (z : Z) : float :=
  if (z <? 0)%Z then PrimFloat.opp (PrimFloat.of_uint63 (Uint63.of_Z (- z)))
  else PrimFloat.of_uint63 (Uint63.of_Z z).

(** The whole number [z] in binary64, for [z] below 2^53 in magnitude: a
    zero takes the sign of [x]. *)
Definition float_whole (x : float) (z : Z) : float :=
  if (z =? 0)%Z then (if PrimFloat.get_sign x then neg_zero else zero)
  else float_of_Z z.

(** [Math.floor] and [Math.round] in binary64.  NaN and the infinities are
    returned unchanged, and so is a number of magnitude 2^52 or more, which
    is whole; below that the result is exact. *)
Definition float_floor (x : float) : float :=
  if PrimFloat.is_finite x
     && PrimFloat.ltb (PrimFloat.abs x) 4503599627370496%float
  then float_whole x (Qfloor (float_to_Q x))
  else x.

Definition float_round (x : float) : float :=
  if PrimFloat.is_finite x
     && PrimFloat.ltb (PrimFloat.abs x) 4503599627370496%float
  then float_whole x (Qfloor (float_to_Q x + (1 # 2)))
  else x.

(** IEEE 754 binary64 arithmetic, round to nearest even. *)
#[export] Instance float_Number : Number float := {
  nofZ   := float_of_Z;
  nmilli := 0.001%float;
  nadd   := PrimFloat.add;
  nsub   := PrimFloat.sub;
  nmul   := PrimFloat.mul;
  ndiv   := PrimFloat.div;
  nleb   := PrimFloat.leb;
  nltb   := PrimFloat.ltb;
  nfloor := float_floor;
  nround := float_round;
  ntoZ   := fun x => Qtruncate (float_to_Q x)
}.

(** ** Math

    [Number.isNaN(x)]: NaN is the one number that is not [<=] itself. *)
Definition isNaN {T} `{Number T} (x : T) : bool := negb (nleb x x).

(** [Number.isFinite(x)]: the difference of a number with itself is NaN for
    NaN and the infinities, and 0 otherwise. *)
Definition isFinite {T} `{Number T} (x : T) : bool :=
  negb (isNaN (nsub x x)).

(** [a === b] on numbers. *)
Definition strict_eq {T} `{Number T} (a b : T) : bool := nleb a b && nleb b a.

(** [Math.abs(x)]. *)
Definition Math_abs {T} `{Number T} (x : T) : T :=
  if nltb x (nofZ 0) then nsub (nofZ 0) x else x.

(** [Math.max(a, b)] and [Math.min(a, b)]: NaN when an argument is NaN. *)
Definition Math_max {T} `{Number T} (a b : T) : T :=
  if isNaN a then a else if isNaN b then b else if nltb a b then b else a.

Definition Math_min {T} `{Number T} (a b : T) : T :=
  if isNaN a then a else if isNaN b then b else if nltb b a then b else a.

(** [xs.indexOf(x)] on numbers: the first index of an element that is
    strictly equal to [x], or -1. *)
Fixpoint indexOf_from {T} `{Number T} (x : T) (xs : list T) (i : Z) : Z :=
  match xs with
  | [] => (-1)%Z
  | y :: xs' => if strict_eq y x then i else indexOf_from x xs' (i + 1)%Z
  end.

Definition indexOf {T} `{Number T} (xs : list T) (x : T) : Z :=
  indexOf_from x xs 0%Z.

(** The conversion of a number to the type [unsigned long] of an attribute
    such as [canvas.width]: the integer part, 0 for NaN and the infinities,
    modulo 2^32. *)
Definition unsigned_long {T} `{Number T} (x : T) : Z :=
  (ntoZ x mod 2 ^ 32)%Z.

(* ================================================================== *)
(** * types.ts *)
(* ================================================================== *)

Module Types.

Inductive ImageFormat : Type := image_jpeg | image_webp | image_png.

(** The string a value of the union type ['image/jpeg' | 'image/webp' |
    'image/png'] is. *)
Definition format_string (f : ImageFormat) : string :=
  match f with
  | image_jpeg => "image/jpeg"
  | image_webp => "image/webp"
  | image_png  => "image/png"
  end.

Inductive SortOrder : Type := asc | desc.

Record ExportSettings (T : Type) : Type := {
  format    : ImageFormat;
  quality   : T;
  scale     : T;
  prefix    : string;
  sortOrder : SortOrder
}.

Record CapturedFrame (T : Type) : Type := {
  id              : string;
  timestamp       : T;
  originalDataUrl : string;
  width           : Z;
  height          : Z
}.

End Types.

(* ================================================================== *)
(** * JavaScript strings *)
(* ================================================================== *)

Module JS.

Open Scope string_scope.

(** The character of a decimal digit. *)
Definition digit (d : nat) : ascii := ascii_of_nat (48 + d).

(** [String(n)] for a non-negative integer [n]: its decimal digits, most
    significant first, prepended to [acc]. *)
Fixpoint digits (fuel n : nat) (acc : string) : string :=
  match fuel with
  | O => acc
  | S fuel' =>
      let acc' := String (digit (n mod 10)) acc in
      if (n / 10 =? 0)%nat then acc' else digits fuel' (n / 10) acc'
  end.

Definition String_of_nat (n : nat) : string := digits (S n) n "".

(** A string of [n] copies of [c]. *)
Fixpoint repeat_char (c : ascii) (n : nat) : string :=
  match n with
  | O => ""
  | S n' => String c (repeat_char c n')
  end.

(** [s.padStart(targetLength, c)] for a one-character pad string. *)
Definition padStart (targetLength : nat) (c : ascii) (s : string) : string :=
  repeat_char c (targetLength - String.length s) ++ s.

(** [s.split(sep)] for a one-character separator: [cur] is the piece being
    read. *)
Fixpoint split_from (sep : ascii) (s : string) (cur : string) : list string :=
  match s with
  | EmptyString => [cur]
  | String c s' =>
      if Ascii.eqb c sep then cur :: split_from sep s' ""
      else split_from sep s' (cur ++ String c "")
  end.

Definition split (sep : ascii) (s : string) : list string :=
  split_from sep s "".

(** [xs[i]] inside a template literal: a missing element prints as
    [undefined]. *)
Definition index_or_undefined (xs : list string) (i : nat) : string :=
  nth i xs "undefined".

End JS.

(* ================================================================== *)
(** * JavaScript dates *)
(* ================================================================== *)

Module Date.

Open Scope Z_scope.

(** A number that is an integer or NaN: a time value, or a field of a
    date. *)
Definition Field : Type := option Z.

(** [new Date(value)] for a number: the time value of the date, in
    milliseconds since the epoch.  [value] is truncated towards zero; the
    date is invalid when [value] is NaN or beyond 8.64e15 in magnitude. *)
Definition of_number {T} `{Number T} (value : T) : Field :=
  if isNaN value then None
  else if ngtb (Math_abs value) (nofZ 8640000000000000) then None
  else Some (ntoZ value).

Definition msPerSecond : Z := 1000.
Definition msPerMinute : Z := 60000.
Definition msPerHour   : Z := 3600000.

Definition getUTCHours (date : Field) : Field :=
  option_map (fun t => (t / msPerHour) mod 24) date.

Definition getUTCMinutes (date : Field) : Field :=
  option_map (fun t => (t / msPerMinute) mod 60) date.

Definition getUTCSeconds (date : Field) : Field :=
  option_map (fun t => (t / msPerSecond) mod 60) date.

Definition getUTCMilliseconds (date : Field) : Field :=
  option_map (fun t => t mod msPerSecond) date.

(** [String(x)] and [if (x)] for such a number. *)
Definition String_of (x : Field) : string :=
  match x with
  | Some z =>
      if z <? 0 then String "-" (JS.String_of_nat (Z.to_nat (- z)))
      else JS.String_of_nat (Z.to_nat z)
  | None => "NaN"%string
  end.

Definition truthy (x : Field) : bool :=
  match x with
  | Some z => negb (z =? 0)
  | None => false
  end.

End Date.

(* ================================================================== *)
(** * Promises *)
(* ================================================================== *)

(** The fate of a promise: it fulfils with a value, rejects with an error, or
    never settles. *)
Inductive Promise (A : Type) : Type :=
| Fulfilled (a : A)
| Rejected (e : string)
| Pending.

Arguments Rejected {A} e.
Arguments Pending {A}.

(** [Promise.all]: rejects as soon as one promise rejects (whatever the others
    do), fulfils once all have fulfilled, and otherwise never settles. *)
Fixpoint first_rejection {A} (ps : list (Promise A)) : option string :=
  match ps with
  | [] => None
  | Rejected e :: _ => Some e
  | _ :: ps' => first_rejection ps'
  end.

Fixpoint all_fulfilled {A} (ps : list (Promise A)) : option (list A) :=
  match ps with
  | [] => Some []
  | Fulfilled a :: ps' => option_map (cons a) (all_fulfilled ps')
  | _ :: _ => None
  end.

Definition Promise_all {A} (ps : list (Promise A)) : Promise (list A) :=
  match first_rejection ps with
  | Some e => Rejected e
  | None =>
      match all_fulfilled ps with
      | Some vs => Fulfilled vs
      | None => Pending
      end
  end.

(** [xs.map((x, index) => f(x, index))]. *)
Fixpoint mapi_from {A B} (f : A -> nat -> B) (i : nat) (xs : list A) : list B :=
  match xs with
  | [] => []
  | x :: xs' => f x i :: mapi_from f (S i) xs'
  end.

Definition mapi {A B} (f : A -> nat -> B) (xs : list A) : list B :=
  mapi_from f 0 xs.

(** [[...xs].sort(compareFn)]: the stable sort of ECMAScript.  An element moves
    in front of the first one that the comparison places after it. *)
Section Sort.
Context {T : Type} `{Number T} {A : Type}.
Variable compareFn : A -> A -> T.

Fixpoint sort_insert (x : A) (l : list A) : list A :=
  match l with
  | [] => [x]
  | y :: l' =>
      if ngtb (compareFn y x) (nofZ 0) then x :: y :: l'
      else y :: sort_insert x l'
  end.

Definition sort (l : list A) : list A :=
  fold_left (fun acc x => sort_insert x acc) l [].
End Sort.

(* ================================================================== *)
(** * utils.ts *)
(* ================================================================== *)

Module Utils.
Import Types.

Definition Blob : Type := string.

(** What the user is handed: the [download] attribute of the anchor that is
    clicked, and what its [href] points to. *)
Inductive Content : Type :=
  | ZipContent (folder : string) (files : list (string * Blob))
  | ImageContent (blob : Blob).

Record Download : Type := {
  download : string;
  content  : Content
}.

Section WithNumber.
Context {T : Type} `{Number T}.

(** The browser and JSZip during an export. *)
Record ExportHost : Type := {
  (* [img.src = url] ends in a [load] event; otherwise in an [error] event,
     for which [processFrame] installs no handler *)
  imageLoads    : string -> bool;
  (* [canvas.getContext('2d')] is not null on a canvas of this size *)
  getContext2d  : Z -> Z -> bool;
  (* what [canvas.toBlob] passes to its callback: the encoded image, or null *)
  toBlob        : string -> Z -> Z -> ImageFormat -> T -> option Blob;
  (* [zip.folder(name)] is not null *)
  zipFolder     : string -> bool;
  (* the error [zip.generateAsync] rejects with, if it does *)
  generateAsync : list (string * Blob) -> option string
}.

Definition formatTime (seconds : T) : string :=
  let date := Date.of_number (nmul seconds (nofZ 1000)) in
  let hh := Date.getUTCHours date in
  let mm := Date.getUTCMinutes date in
  let ss := JS.padStart 2 "0" (Date.String_of (Date.getUTCSeconds date)) in
  let ms := JS.padStart 3 "0" (Date.String_of (Date.getUTCMilliseconds date)) in
  if Date.truthy hh then
    (Date.String_of hh ++ ":" ++ JS.padStart 2 "0" (Date.String_of mm)
       ++ ":" ++ ss ++ "." ++ ms)%string
  else (Date.String_of mm ++ ":" ++ ss ++ "." ++ ms)%string.

Definition generateFilename (timestamp : T) (settings : ExportSettings T)
    (index : nat) : string :=
  let ext := JS.index_or_undefined
               (JS.split "/" (format_string (format settings))) 1 in
  (* Pads to at least 2 digits (image_01.jpg), but expands if index is 100+ *)
  let padLength := Nat.max 2 (String.length (JS.String_of_nat (index + 1))) in
  let numStr := JS.padStart padLength "0" (JS.String_of_nat (index + 1)) in
  (prefix settings ++ "_" ++ numStr ++ "." ++ ext)%string.

Definition processFrame (host : ExportHost) (frame : CapturedFrame T)
    (settings : ExportSettings T) : Promise (option Blob) :=
  if imageLoads host (originalDataUrl frame) then
    let targetWidth :=
      Math_max (nofZ 1)
        (nfloor (nmul (nofZ (width frame)) (scale settings))) in
    let targetHeight :=
      Math_max (nofZ 1)
        (nfloor (nmul (nofZ (height frame)) (scale settings))) in
    (* [canvas.width = targetWidth; canvas.height = targetHeight] *)
    let canvasWidth := unsigned_long targetWidth in
    let canvasHeight := unsigned_long targetHeight in
    if getContext2d host canvasWidth canvasHeight then
      Fulfilled (toBlob host (originalDataUrl frame) canvasWidth canvasHeight
                   (format settings) (quality settings))
    else Fulfilled None
  else Pending.

Definition compareFrames (order : SortOrder) (a b : CapturedFrame T) : T :=
  match order with
  | asc  => nsub (timestamp a) (timestamp b)
  | desc => nsub (timestamp b) (timestamp a)
  end.

(** One callback of [sortedFrames.map]: the entry it adds to the folder, if
    any, once its [processFrame] has settled. *)
Definition zipEntry (host : ExportHost) (settings : ExportSettings T)
    (frame : CapturedFrame T) (index : nat)
    : Promise (option (string * Blob)) :=
  match processFrame host frame settings with
  | Fulfilled (Some blob) =>
      Fulfilled (Some (generateFilename (timestamp frame) settings index, blob))
  | Fulfilled None => Fulfilled None
  | Rejected e => Rejected e
  | Pending => Pending
  end.

(** The entries that were added, here in index order: JSZip keeps them by
    name, and the names of distinct indices differ. *)
Fixpoint added {A} (xs : list (option A)) : list A :=
  match xs with
  | [] => []
  | Some x :: xs' => x :: added xs'
  | None :: xs' => added xs'
  end.

(** [downloadZip]: the promise it returns carries what was delivered to the
    user ([None] for the early [return] when the folder is null). *)
Definition downloadZip (host : ExportHost) (frames : list (CapturedFrame T))
    (settings : ExportSettings T) : Promise (option Download) :=
  if negb (zipFolder host "extracted_frames") then Fulfilled None
  else
    let sortedFrames := sort (compareFrames (sortOrder settings)) frames in
    let promises := mapi (zipEntry host settings) sortedFrames in
    match Promise_all promises with
    | Fulfilled entries =>
        let files := added entries in
        match generateAsync host files with
        | Some e => Rejected e
        | None =>
            Fulfilled (Some {| download := (prefix settings ++ "_frames.zip")%string;
                               content := ZipContent "extracted_frames" files |})
        end
    | Rejected e => Rejected e
    | Pending => Pending
    end.


End WithNumber.
End Utils.

(* ================================================================== *)
(** * Handlers: state, exceptions and suspension *)
(* ================================================================== *)

(** How the call of an [async] handler ends.  [Stuck]: it awaits a promise
    that never settles.  [Unfinished]: the fuel of the model ran out. *)
Inductive Outcome (A : Type) : Type :=
| Returned (a : A)
| Threw (e : string)
| Stuck
| Unfinished.

Arguments Threw {A} e.
Arguments Stuck {A}.
Arguments Unfinished {A}.

Section Handler.
Variable St : Type.

(** A computation on the component state [St]; the state it leaves behind is
    kept also when it throws, since assignments are not undone. *)
Definition M (A : Type) : Type := St -> Outcome A * St.

Definition ret {A} (a : A) : M A := fun s => (Returned a, s).

Definition bind {A B} (c : M A) (k : A -> M B) : M B :=
  fun s =>
    match c s with
    | (Returned a, s') => k a s'
    | (Threw e, s') => (Threw e, s')
    | (Stuck, s') => (Stuck, s')
    | (Unfinished, s') => (Unfinished, s')
    end.

Definition throw {A} (e : string) : M A := fun s => (Threw e, s).
Definition unfinished {A} : M A := fun s => (Unfinished, s).
Definition get : M St := fun s => (Returned s, s).
Definition modify (f : St -> St) : M unit := fun s => (Returned tt, f s).

(** [await p]. *)
Definition await {A} (p : Promise A) : M A :=
  fun s =>
    match p with
    | Fulfilled a => (Returned a, s)
    | Rejected e => (Threw e, s)
    | Pending => (Stuck, s)
    end.

(** [try { body } catch (e) { handler(e) } finally { cleanup }]: the cleanup
    runs on every way out of the body and of the handler; a body that never
    gets out never reaches it. *)
Definition try_catch_finally (body : M unit) (handler : string -> M unit)
    (cleanup : M unit) : M unit :=
  fun s =>
    match body s with
    | (Returned tt, s1) => cleanup s1
    | (Threw e, s1) =>
        match handler e s1 with
        | (Returned tt, s2) => cleanup s2
        | (Threw e', s2) =>
            match cleanup s2 with
            | (Returned tt, s3) => (Threw e', s3)
            | r => r
            end
        | r => r
        end
    | r => r
    end.
End Handler.

Arguments ret {St A} a.
Arguments bind {St A B} c k.
Arguments throw {St A} e.
Arguments unfinished {St A}.
Arguments get {St}.
Arguments modify {St} f.
Arguments await {St A} p.
Arguments try_catch_finally {St} body handler cleanup.

Declare Scope handler_scope.
Delimit Scope handler_scope with handler.
Notation "x <- c1 ;; c2" := (bind c1 (fun x => c2))
  (at level 61, c1 at next level, right associativity) : handler_scope.
Notation "c1 ;; c2" := (bind c1 (fun _ => c2))
  (at level 61, right associativity) : handler_scope.

(* ================================================================== *)
(** * App.tsx *)
(* ================================================================== *)

Module App.
Import Types Utils.
Open Scope handler_scope.

Section WithNumber.
Context {T : Type} `{Number T}.

(** The attributes of the video element that the handlers read or write. *)
Record Video : Type := {
  paused      : bool;
  currentTime : T;
  muted       : bool
}.

Definition with_paused (b : bool) (v : Video) : Video :=
  {| paused := b; currentTime := currentTime v; muted := muted v |}.
Definition with_currentTime (t : T) (v : Video) : Video :=
  {| paused := paused v; currentTime := t; muted := muted v |}.
Definition with_muted (b : bool) (v : Video) : Video :=
  {| paused := paused v; currentTime := currentTime v; muted := b |}.

(** ** The component state

    The [useState] cells and refs of [App] that the pipeline touches, and
    what it did to the outside: the console, the alerts, the files handed to
    the user, and the arguments of the calls of [seekTo], latest first. *)
Record State : Type := {
  frames                 : list (CapturedFrame T);
  isPlaying              : bool;
  isProcessing           : bool;
  isAutoCaptureModalOpen : bool;
  isAutoCapturing        : bool;
  autoCaptureProgress    : T;
  autoCaptureCount       : nat;
  settings               : ExportSettings T;
  stop                   : bool;            (* autoCaptureRef.current.stop *)
  video                  : option Video;    (* videoRef.current *)
  console                : list string;
  alerts                 : list string;
  downloads              : list Download;
  seeks                  : list T
}.

Definition setFrames (f : list (CapturedFrame T) -> list (CapturedFrame T))
    (s : State) : State :=
  {| frames := f (frames s); isPlaying := isPlaying s;
     isProcessing := isProcessing s;
     isAutoCaptureModalOpen := isAutoCaptureModalOpen s;
     isAutoCapturing := isAutoCapturing s;
     autoCaptureProgress := autoCaptureProgress s;
     autoCaptureCount := autoCaptureCount s; settings := settings s;
     stop := stop s; video := video s; console := console s;
     alerts := alerts s; downloads := downloads s; seeks := seeks s |}.

Definition setIsPlaying (b : bool) (s : State) : State :=
  {| frames := frames s; isPlaying := b;
     isProcessing := isProcessing s;
     isAutoCaptureModalOpen := isAutoCaptureModalOpen s;
     isAutoCapturing := isAutoCapturing s;
     autoCaptureProgress := autoCaptureProgress s;
     autoCaptureCount := autoCaptureCount s; settings := settings s;
     stop := stop s; video := video s; console := console s;
     alerts := alerts s; downloads := downloads s; seeks := seeks s |}.

Definition setIsProcessing (b : bool) (s : State) : State :=
  {| frames := frames s; isPlaying := isPlaying s;
     isProcessing := b;
     isAutoCaptureModalOpen := isAutoCaptureModalOpen s;
     isAutoCapturing := isAutoCapturing s;
     autoCaptureProgress := autoCaptureProgress s;
     autoCaptureCount := autoCaptureCount s; settings := settings s;
     stop := stop s; video := video s; console := console s;
     alerts := alerts s; downloads := downloads s; seeks := seeks s |}.

Definition setIsAutoCaptureModalOpen (b : bool) (s : State) : State :=
  {| frames := frames s; isPlaying := isPlaying s;
     isProcessing := isProcessing s;
     isAutoCaptureModalOpen := b;
     isAutoCapturing := isAutoCapturing s;
     autoCaptureProgress := autoCaptureProgress s;
     autoCaptureCount := autoCaptureCount s; settings := settings s;
     stop := stop s; video := video s; console := console s;
     alerts := alerts s; downloads := downloads s; seeks := seeks s |}.

Definition setIsAutoCapturing (b : bool) (s : State) : State :=
  {| frames := frames s; isPlaying := isPlaying s;
     isProcessing := isProcessing s;
     isAutoCaptureModalOpen := isAutoCaptureModalOpen s;
     isAutoCapturing := b;
     autoCaptureProgress := autoCaptureProgress s;
     autoCaptureCount := autoCaptureCount s; settings := settings s;
     stop := stop s; video := video s; console := console s;
     alerts := alerts s; downloads := downloads s; seeks := seeks s |}.

Definition setAutoCaptureProgress (p : T) (s : State) : State :=
  {| frames := frames s; isPlaying := isPlaying s;
     isProcessing := isProcessing s;
     isAutoCaptureModalOpen := isAutoCaptureModalOpen s;
     isAutoCapturing := isAutoCapturing s;
     autoCaptureProgress := p;
     autoCaptureCount := autoCaptureCount s; settings := settings s;
     stop := stop s; video := video s; console := console s;
     alerts := alerts s; downloads := downloads s; seeks := seeks s |}.

Definition setAutoCaptureCount (n : nat) (s : State) : State :=
  {| frames := frames s; isPlaying := isPlaying s;
     isProcessing := isProcessing s;
     isAutoCaptureModalOpen := isAutoCaptureModalOpen s;
     isAutoCapturing := isAutoCapturing s;
     autoCaptureProgress := autoCaptureProgress s;
     autoCaptureCount := n; settings := settings s;
     stop := stop s; video := video s; console := console s;
     alerts := alerts s; downloads := downloads s; seeks := seeks s |}.

Definition setStop (b : bool) (s : State) : State :=
  {| frames := frames s; isPlaying := isPlaying s;
     isProcessing := isProcessing s;
     isAutoCaptureModalOpen := isAutoCaptureModalOpen s;
     isAutoCapturing := isAutoCapturing s;
     autoCaptureProgress := autoCaptureProgress s;
     autoCaptureCount := autoCaptureCount s; settings := settings s;
     stop := b; video := video s; console := console s;
     alerts := alerts s; downloads := downloads s; seeks := seeks s |}.

Definition onVideo (f : Video -> Video) (s : State) : State :=
  {| frames := frames s; isPlaying := isPlaying s;
     isProcessing := isProcessing s;
     isAutoCaptureModalOpen := isAutoCaptureModalOpen s;
     isAutoCapturing := isAutoCapturing s;
     autoCaptureProgress := autoCaptureProgress s;
     autoCaptureCount := autoCaptureCount s; settings := settings s;
     stop := stop s; video := option_map f (video s); console := console s;
     alerts := alerts s; downloads := downloads s; seeks := seeks s |}.

Definition console_error (msg : string) (s : State) : State :=
  {| frames := frames s; isPlaying := isPlaying s;
     isProcessing := isProcessing s;
     isAutoCaptureModalOpen := isAutoCaptureModalOpen s;
     isAutoCapturing := isAutoCapturing s;
     autoCaptureProgress := autoCaptureProgress s;
     autoCaptureCount := autoCaptureCount s; settings := settings s;
     stop := stop s; video := video s; console := msg :: console s;
     alerts := alerts s; downloads := downloads s; seeks := seeks s |}.

Definition alert (msg : string) (s : State) : State :=
  {| frames := frames s; isPlaying := isPlaying s;
     isProcessing := isProcessing s;
     isAutoCaptureModalOpen := isAutoCaptureModalOpen s;
     isAutoCapturing := isAutoCapturing s;
     autoCaptureProgress := autoCaptureProgress s;
     autoCaptureCount := autoCaptureCount s; settings := settings s;
     stop := stop s; video := video s; console := console s;
     alerts := msg :: alerts s; downloads := downloads s; seeks := seeks s |}.

Definition deliver (d : option Download) (s : State) : State :=
  {| frames := frames s; isPlaying := isPlaying s;
     isProcessing := isProcessing s;
     isAutoCaptureModalOpen := isAutoCaptureModalOpen s;
     isAutoCapturing := isAutoCapturing s;
     autoCaptureProgress := autoCaptureProgress s;
     autoCaptureCount := autoCaptureCount s; settings := settings s;
     stop := stop s; video := video s; console := console s;
     alerts := alerts s;
     downloads := match d with
                  | Some d' => d' :: downloads s
                  | None => downloads s
                  end;
     seeks := seeks s |}.

Definition record_seek (t : T) (s : State) : State :=
  {| frames := frames s; isPlaying := isPlaying s;
     isProcessing := isProcessing s;
     isAutoCaptureModalOpen := isAutoCaptureModalOpen s;
     isAutoCapturing := isAutoCapturing s;
     autoCaptureProgress := autoCaptureProgress s;
     autoCaptureCount := autoCaptureCount s; settings := settings s;
     stop := stop s; video := video s; console := console s;
     alerts := alerts s; downloads := downloads s; seeks := t :: seeks s |}.

(** ** detectVideoFPS

    The promise that [detectVideoFPS] returns is settled by callbacks: the
    two continuations of [video.play()], the video frame callback and the
    1.5 s timer.  The closure they share is a record; the host decides which
    of them run, in which order. *)
Inductive Event : Type :=
  | PlayFulfilled                      (* [video.play()] fulfils *)
  | PlayRejected (e : string)          (* [video.play()] rejects *)
  | FrameDelivered (mediaTime : T)     (* a decoded frame is presented *)
  | Deadline.                          (* the timer of 1500 ms fires *)

Record Detect : Type := {
  element       : Video;
  isAnalyzing   : bool;
  wasPlaying    : bool;
  originalTime  : T;
  originalMuted : bool;
  playPending   : bool;      (* the promise of [video.play()] is not settled *)
  handle        : bool;      (* a video frame callback is registered *)
  timer         : bool;      (* the timer has not fired yet *)
  frameCount    : nat;
  lastMediaTime : T;
  diffs         : list T;
  warnings      : list string;
  (* the value the returned promise settled with, and the video element as
     it was at that moment *)
  resolved      : option (Z * Video)
}.

Definition maxFrames : nat := 20.

(** [resolve(fps)]: only the first call settles the promise. *)
Definition resolve (fps : Z) (d : Detect) : Detect :=
  match resolved d with
  | Some _ => d
  | None =>
      {| element := element d; isAnalyzing := isAnalyzing d;
         wasPlaying := wasPlaying d; originalTime := originalTime d;
         originalMuted := originalMuted d; playPending := playPending d;
         handle := handle d; timer := timer d; frameCount := frameCount d;
         lastMediaTime := lastMediaTime d; diffs := diffs d;
         warnings := warnings d;
         resolved := Some (fps, element d) |}
  end.

(** The value that [finish(deltas)] resolves with, as an integer: the
    rounded quotient is a whole number ([callback] keeps no delta below
    0.001, so the quotient is below 1000). *)
Definition estimate (deltas : list T) : Z :=
  if (List.length deltas =? 0)%nat then 30%Z
  else
    let sorted := sort (fun a b => nsub a b) deltas in
    let medianDelta := nth (List.length sorted / 2) sorted (nofZ 0) in
    if ngtb medianDelta (nofZ 0) then
      ntoZ (nround (ndiv (nofZ 1) medianDelta))
    else 30%Z.

(** [finish(deltas)], where [deltas] is the array [diffs] itself, which
    [sort] reorders in place. *)
Definition finish (d : Detect) : Detect :=
  let restored :=
    with_paused (negb (wasPlaying d))
      (with_muted (originalMuted d)
         (with_currentTime (originalTime d)
            (with_paused true (element d)))) in
  resolve (estimate (diffs d))
    {| element := restored; isAnalyzing := false;
       wasPlaying := wasPlaying d; originalTime := originalTime d;
       originalMuted := originalMuted d; playPending := playPending d;
       handle := handle d; timer := timer d; frameCount := frameCount d;
       lastMediaTime := lastMediaTime d;
       diffs := if (List.length (diffs d) =? 0)%nat then diffs d
                else sort (fun a b => nsub a b) (diffs d);
       warnings := warnings d; resolved := resolved d |}.

(** [callback(now, metadata)]; the element then shows the frame of
    [metadata.mediaTime]. *)
Definition callback (mediaTime : T) (d : Detect) : Detect :=
  let diffs' :=
    if (0 <? frameCount d)%nat then
      let diff := nsub mediaTime (lastMediaTime d) in
      if ngtb diff nmilli then (diffs d ++ [diff])%list else diffs d
    else diffs d in
  let frameCount' := (frameCount d + 1)%nat in
  let d' :=
    {| element := with_currentTime mediaTime (element d);
       isAnalyzing := isAnalyzing d;
       wasPlaying := wasPlaying d; originalTime := originalTime d;
       originalMuted := originalMuted d; playPending := playPending d;
       handle := (frameCount' <? maxFrames)%nat; timer := timer d;
       frameCount := frameCount';
       lastMediaTime := mediaTime; diffs := diffs';
       warnings := warnings d; resolved := resolved d |} in
  if (frameCount' <? maxFrames)%nat then d' else finish d'.

Definition step (d : Detect) (ev : Event) : Detect :=
  match ev with
  | PlayFulfilled =>
      if playPending d then
        {| element := with_paused false (element d);
           isAnalyzing := isAnalyzing d;
           wasPlaying := wasPlaying d; originalTime := originalTime d;
           originalMuted := originalMuted d; playPending := false;
           handle := true; timer := timer d; frameCount := frameCount d;
           lastMediaTime := lastMediaTime d; diffs := diffs d;
           warnings := warnings d; resolved := resolved d |}
      else d
  | PlayRejected e =>
      if playPending d then
        resolve 30
          {| element := element d; isAnalyzing := false;
             wasPlaying := wasPlaying d; originalTime := originalTime d;
             originalMuted := originalMuted d; playPending := false;
             handle := handle d; timer := timer d;
             frameCount := frameCount d;
             lastMediaTime := lastMediaTime d; diffs := diffs d;
             warnings := "Autoplay blocked for analysis"%string :: warnings d;
             resolved := resolved d |}
      else d
  | FrameDelivered mediaTime =>
      if handle d then callback mediaTime d else d
  | Deadline =>
      if timer d then
        let d' :=
          {| element := element d; isAnalyzing := isAnalyzing d;
             wasPlaying := wasPlaying d; originalTime := originalTime d;
             originalMuted := originalMuted d; playPending := playPending d;
             handle := if (frameCount d <? maxFrames)%nat then false
                       else handle d;
             timer := false; frameCount := frameCount d;
             lastMediaTime := lastMediaTime d; diffs := diffs d;
             warnings := warnings d; resolved := resolved d |} in
        if (frameCount d <? maxFrames)%nat then finish d' else d'
      else d
  end.

(** The synchronous part of [detectVideoFPS] on a video element [v]:
    [supported] says whether the element has [requestVideoFrameCallback]. *)
Definition detect_start (v : Video) (supported : bool) : Detect :=
  if supported then
    {| element := with_currentTime (nofZ 0) (with_muted true v);
       isAnalyzing := true;
       wasPlaying := negb (paused v); originalTime := currentTime v;
       originalMuted := muted v; playPending := true;
       handle := false; timer := true; frameCount := 0;
       lastMediaTime := nofZ 0; diffs := [];
       warnings := []; resolved := None |}
  else
    {| element := v; isAnalyzing := false;
       wasPlaying := negb (paused v); originalTime := currentTime v;
       originalMuted := muted v; playPending := false;
       handle := false; timer := false; frameCount := 0;
       lastMediaTime := nofZ 0; diffs := [];
       warnings := []; resolved := Some (30%Z, v) |}.

Definition detectVideoFPS (v : Video) (supported : bool)
    (events : list Event) : Detect :=
  fold_left step events (detect_start v supported).

(** ** The video element on a canvas *)

(** What a handler finds on the canvas it draws the video on. *)
Inductive Canvas : Type :=
  | NoContext                    (* [getContext('2d')] is null *)
  | Raised (e : string)          (* drawing or encoding throws *)
  | Encoded (dataUrl : string).  (* what [toDataURL] returns *)

(** The video element at a capture: in a capture run, once [seeked] has
    fired. *)
Record Seeked : Type := {
  snapTime    : T;      (* [video.currentTime] *)
  videoWidth  : Z;
  videoHeight : Z;
  canvas      : Canvas
}.

(** ** captureFrame

    The manual capture of the frame on display: [shown] is the element and
    its canvas (encoded at quality 1.0) at the click, [uuid] what
    [crypto.randomUUID()] returns. *)
Definition captureFrame (shown : Seeked) (uuid : string) : M State unit :=
  s <- get ;;
  match video s with
  | None => ret tt
  | Some _ =>
      match canvas shown with
      | NoContext => ret tt
      | Raised e => throw e
      | Encoded dataUrl =>
          let newFrame :=
            {| id := uuid;
               timestamp := snapTime shown;
               originalDataUrl := dataUrl;
               width := videoWidth shown;
               height := videoHeight shown |} in
          modify (setFrames (fun prev => newFrame :: prev))
      end
  end.

(** ** startAutoCapture *)

(** The host during a capture run, by iteration: the decoder after the seek
    to the requested time, with its canvas encoded at the comparison quality
    0.90; the identifier [crypto.randomUUID()] returns; and whether [stop] was
    set while the iteration was suspended. *)
Record CaptureHost : Type := {
  seeked      : nat -> T -> Seeked;
  randomUUID  : nat -> string;
  stopPressed : nat -> bool
}.

(** The local variables of the loop. *)
Record Locals : Type := {
  newFrames       : list (CapturedFrame T);
  currentTimeLoop : T;
  lastDataUrl     : string
}.

Section Run.
Variable host : CaptureHost.
Variables start end_ interval : T.

(** [await seekTo(time)]: the seek is recorded, the element lands where the
    host puts it, and the handler resumes when [seeked] fires. *)
Definition seekTo (i : nat) (time : T) : M State Seeked :=
  modify (record_seek time) ;;
  modify (onVideo (with_currentTime (snapTime (seeked host i time)))) ;;
  ret (seeked host i time).

(** [await new Promise(r => requestAnimationFrame(r))]: other handlers
    run meanwhile. *)
Definition animationFrame (i : nat) : M State unit :=
  modify (fun s => setStop (stop s || stopPressed host i) s).

Definition capture (i : nat) (shot : Seeked) (loc : Locals) : M State Locals :=
  match canvas shot with
  | NoContext => ret loc
  | Raised e => throw e
  | Encoded dataUrl =>
      if negb (String.eqb dataUrl (lastDataUrl loc)) then
        let newFrames' :=
          (newFrames loc ++
             [ {| id := randomUUID host i;
                  timestamp := snapTime shot;
                  originalDataUrl := dataUrl;
                  width := videoWidth shot;
                  height := videoHeight shot |} ])%list in
        modify (setAutoCaptureCount (List.length newFrames')) ;;
        ret {| newFrames := newFrames';
               currentTimeLoop := currentTimeLoop loc;
               lastDataUrl := dataUrl |}
      else ret loc
  end.

(** The body of the [while] loop past the two tests at its top. *)
Definition iteration (i : nat) (loc : Locals) : M State Locals :=
  shot <- seekTo i (currentTimeLoop loc) ;;
  loc1 <- capture i shot loc ;;
  let totalDuration := nsub end_ start in
  let progress :=
    if ngtb totalDuration (nofZ 0) then
      nmul (ndiv (nsub (currentTimeLoop loc1) start) totalDuration)
           (nofZ 100)
    else nofZ 100 in
  modify (setAutoCaptureProgress (nmin (nofZ 99) progress)) ;;
  let loc2 :=
    {| newFrames := newFrames loc1;
       currentTimeLoop := nadd (currentTimeLoop loc1) interval;
       lastDataUrl := lastDataUrl loc1 |} in
  animationFrame i ;;
  ret loc2.

Fixpoint capture_loop (fuel i : nat) (loc : Locals) : M State Locals :=
  match fuel with
  | O => unfinished
  | S fuel' =>
      if nleb (currentTimeLoop loc) end_ then
        s <- get ;;
        if stop s then ret loc
        else
          loc2 <- iteration i loc ;;
          capture_loop fuel' (S i) loc2
      else ret loc
  end.

(** The value of [currentTimeLoop] at the top of iteration [k]. *)
Fixpoint sample (k : nat) : T :=
  match k with
  | O => start
  | S k' => nadd (sample k') interval
  end.

Definition startAutoCapture (fuel : nat) : M State unit :=
  s <- get ;;
  match video s with
  | None => ret tt
  | Some _ =>
      modify (setIsAutoCapturing true) ;;
      modify (setAutoCaptureProgress (nofZ 0)) ;;
      modify (setAutoCaptureCount 0) ;;
      modify (setStop false) ;;
      modify (onVideo (with_paused true)) ;;
      modify (setIsPlaying false) ;;
      try_catch_finally
        (loc <- capture_loop fuel 0
                  {| newFrames := []; currentTimeLoop := start;
                     lastDataUrl := "" |} ;;
         modify (setFrames (fun prev => (rev (newFrames loc) ++ prev)%list)) ;;
         modify (setAutoCaptureProgress (nofZ 100)))
        (fun e => modify (console_error ("Auto capture error: " ++ e)%string))
        (modify (setIsAutoCapturing false) ;;
         modify (setIsAutoCaptureModalOpen false) ;;
         modify (onVideo (with_currentTime start)))
  end.
End Run.

(** ** handleDownloadAll *)
Definition handleDownloadAll (host : ExportHost) : M State unit :=
  s <- get ;;
  if (List.length (frames s) =? 0)%nat then ret tt
  else
    modify (setIsProcessing true) ;;
    try_catch_finally
      (d <- await (downloadZip host (frames s) (settings s)) ;;
       modify (deliver d))
      (fun error =>
         modify (console_error "Failed to zip files") ;;
         modify (alert "Error creating ZIP file."))
      (modify (setIsProcessing false)).

(** ** handleOpenBatchModal

    [if (fps)] and [fps || undefined] for the state cell [detectedFps], a
    whole number or null: null and 0 count as no rate. *)
Definition detected (fps : option Z) : bool :=
  match fps with
  | Some n => negb (n =? 0)%Z
  | None => false
  end.

(** The handler returns the value the cell [detectedFps] has when it is
    done; [supported] and [events] are what the host does if the frame rate
    is measured. *)
Definition handleOpenBatchModal (detectedFps : option Z) (supported : bool)
    (events : list Event) : M State (option Z) :=
  s <- get ;;
  match video s with
  | None => ret detectedFps
  | Some v =>
      fps <- (if detected detectedFps then ret detectedFps
              else
                let d := detectVideoFPS v supported events in
                match resolved d with
                | Some (fps, snap) =>
                    modify (onVideo (fun _ => snap)) ;;
                    ret (Some fps)
                | None =>
                    modify (onVideo (fun _ => element d)) ;;
                    await Pending
                end) ;;
      modify (setIsAutoCaptureModalOpen true) ;;
      ret fps
  end.

(** The property [detectedFps] that [App] hands to the modal. *)
Definition detectedFps_prop (detectedFps : option Z) : option Z :=
  if detected detectedFps then detectedFps else None.

(** ** seek and changeSpeed *)

(** [video.currentTime = x]: the setter throws a TypeError for a value that
    is not finite. *)
Definition set_currentTime (x : T) : M State unit :=
  if isFinite x then modify (onVideo (with_currentTime x))
  else throw "TypeError".

(** [seek(seconds)], the state cell [duration] being [duration]. *)
Definition seek (duration seconds : T) : M State unit :=
  s <- get ;;
  match video s with
  | None => ret tt
  | Some v =>
      set_currentTime
        (Math_max (nofZ 0)
           (Math_min duration (nadd (currentTime v) seconds)))
  end.

(** [changeSpeed]: the value it gives to the state cell [playbackSpeed] and
    to [video.playbackRate].  The literals 0.25, 0.5 and 1.5 are the
    quotients 1/4, 1/2 and 3/2, also in binary64. *)
Definition speeds : list T :=
  [ndiv (nofZ 1) (nofZ 4); ndiv (nofZ 1) (nofZ 2); nofZ 1;
   ndiv (nofZ 3) (nofZ 2); nofZ 2].

Definition changeSpeed (playbackSpeed : T) : T :=
  let currentIndex := indexOf speeds playbackSpeed in
  let nextSpeed :=
    nth (Z.to_nat (Z.rem (currentIndex + 1) (Z.of_nat (List.length speeds))))
      speeds (nofZ 0) in
  nextSpeed.

(** ** The callbacks of the gallery *)
Definition onRemove (id : string) : M State unit :=
  modify (setFrames
            (fun prev =>
               filter (fun f => negb (String.eqb (Types.id f) id)) prev)).

Definition onClearAll : M State unit :=
  modify (setFrames (fun _ => [])).

End WithNumber.
End App.

(* ================================================================== *)
(** * The batch modal: AutoCaptureModal *)
(* ================================================================== *)

Module Modal.
Section WithNumber.
Context {T : Type} `{Number T}.

Inductive Mode : Type := by_interval | by_fps.

(** The state cells of the modal. *)
Record Fields : Type := {
  startTime : T;
  endTime   : T;
  interval  : T;
  fps       : T;
  mode      : Mode
}.

(** The effect that runs when the modal opens, [detectedFps] being the
    property of that name ([None] for undefined). *)
Definition onOpen (duration : T) (detectedFps : option Z) : Fields :=
  match detectedFps with
  | Some rate =>
      if negb (rate =? 0)%Z then
        {| startTime := nofZ 0; endTime := duration;
           interval := ndiv (nofZ 1) (nofZ rate); fps := nofZ rate;
           mode := by_fps |}
      else
        {| startTime := nofZ 0; endTime := duration;
           interval := ndiv (nofZ 1) (nofZ 30); fps := nofZ 30;
           mode := by_fps |}
  | None =>
      {| startTime := nofZ 0; endTime := duration;
         interval := ndiv (nofZ 1) (nofZ 30); fps := nofZ 30;
         mode := by_fps |}
  end.

(** The number of sample points shown before a run; the start button is
    disabled when it is not positive. *)
Definition estimatedScans (startTime endTime interval : T) : T :=
  if ngtb interval (nofZ 0) then
    nadd (nfloor (ndiv (nsub endTime startTime) interval)) (nofZ 1)
  else nofZ 0.

Definition startDisabled (startTime endTime interval : T) : bool :=
  nleb (estimatedScans startTime endTime interval) (nofZ 0).

End WithNumber.
End Modal.

(* ================================================================== *)
(** * Vocabulary of the specification *)
(* ================================================================== *)

Module Spec.
Import Types.
Open Scope string_scope.

(** The number a string of decimal digits denotes. *)
Definition digit_value (c : ascii) : option nat :=
  let n := nat_of_ascii c in
  if ((48 <=? n) && (n <=? 57))%nat then Some (n - 48)%nat else None.

Fixpoint parse_digits (s : string) (acc : nat) : option nat :=
  match s with
  | EmptyString => Some acc
  | String c s' =>
      match digit_value c with
      | Some d => parse_digits s' (10 * acc + d)
      | None => None
      end
  end.

Definition decimal_value (s : string) : option nat :=
  match s with
  | EmptyString => None
  | _ => parse_digits s 0
  end.

(** The string starts with a decimal digit. *)
Definition starts_with_digit (s : string) : Prop :=
  match s with
  | EmptyString => False
  | String c _ => (48 <= nat_of_ascii c <= 57)%nat
  end.

(** [d] is the number of decimal digits of [n]. *)
Definition digitCount_is (n d : nat) : Prop :=
  (1 <= d /\ n < 10 ^ d /\ (d = 1 \/ 10 ^ (d - 1) <= n))%nat.

(** The number of decimal digits of [n], computed. *)
Fixpoint count_digits (fuel n : nat) : nat :=
  match fuel with
  | O => 1
  | S fuel' => if (n <? 10)%nat then 1 else S (count_digits fuel' (n / 10))
  end.

Definition digitCount (n : nat) : nat := count_digits n n.

(** The extension of a format: the subtype of its media type. *)
Definition extension (f : ImageFormat) : string :=
  match f with
  | image_jpeg => "jpeg"
  | image_webp => "webp"
  | image_png  => "png"
  end.

(** The file name as section 4.4 words it: the ordinal padded to
    [max(2, digitCount(totalFrameCount))] digits. *)
Definition spec_filename (prefix : string) (totalFrameCount ordinal : nat)
    (ext : string) : string :=
  prefix ++ "_"
    ++ JS.padStart (Nat.max 2 (digitCount totalFrameCount)) "0"
         (JS.String_of_nat ordinal)
    ++ "." ++ ext.

(** No two neighbours of a list are equal. *)
Fixpoint no_adjacent_equal {A} (l : list A) : Prop :=
  match l with
  | [] => True
  | x :: l' =>
      match l' with
      | [] => True
      | y :: _ => x <> y /\ no_adjacent_equal l'
      end
  end.

End Spec.

(* ================================================================== *)
(** * Closed forms and invariants

    What the proofs below say about the handlers: the state after each part
    of an iteration of the capture loop, and the invariants of the capture
    loop and of the frame-rate measurement. *)
(* ================================================================== *)

Section DetectForms.
Import App.
Context {T : Type} `{Number T}.
Variable v : Video (T := T).

(** What the closure of [detectVideoFPS] remembers of the element [v] it was
    called on, and that a promise which is settled was settled with the
    element as [v] was. *)
Definition remembers (d : Detect) : Prop :=
  wasPlaying d = negb (paused v)
  /\ originalTime d = currentTime v
  /\ originalMuted d = muted v
  /\ forall fps snap, resolved d = Some (fps, snap) -> snap = v.

(** Once the timer has fired, or enough frames were counted, the promise is
    settled; and a settled promise means that the analysis overlay is off. *)
Definition settled_in_time (d : Detect (T := T)) : Prop :=
  (timer d = false -> resolved d <> None)
  /\ ((maxFrames <= frameCount d)%nat -> resolved d <> None)
  /\ (resolved d <> None -> isAnalyzing d = false).

(** The closure after [video.play()] was rejected: the promise is settled
    with 30 and the element muted at time 0, no frame callback is or will be
    registered, and the timer, once it has fired, has put the element
    back. *)
Definition rejected_on (d : Detect) : Prop :=
  playPending d = false
  /\ handle d = false
  /\ frameCount d = 0%nat
  /\ wasPlaying d = negb (paused v)
  /\ originalTime d = currentTime v
  /\ originalMuted d = muted v
  /\ (timer d = false -> element d = v)
  /\ resolved d
     = Some (30%Z, with_currentTime (nofZ 0) (with_muted true v)).
End DetectForms.

Section DetectRange.
Import App.

(** In exact arithmetic: the deltas kept are above a millisecond, and an
    estimate that was resolved is between 0 and 1000. *)
Definition within_range (d : Detect (T := Q)) : Prop :=
  Forall (fun x => 1 # 1000 < x) (diffs d)
  /\ forall fps snap, resolved d = Some (fps, snap) -> (0 <= fps <= 1000)%Z.
End DetectRange.

Section ExportForms.
Import Types Utils App.
Context {T : Type} `{Number T}.
Variable host : ExportHost (T := T).
Variable settings : ExportSettings T.

(** The entry a frame whose image loads contributes: none when the context
    or the encoder fails. *)
Definition entry_of (frame : CapturedFrame T) (index : nat)
    : option (string * Blob) :=
  match processFrame host frame settings with
  | Fulfilled (Some blob) =>
      Some (generateFilename (timestamp frame) settings index, blob)
  | _ => None
  end.
End ExportForms.

Section ExportOrder.
Import Types.

(** No two frames of the list share a timestamp. *)
Definition distinct_timestamps (l : list (CapturedFrame Q)) : Prop :=
  NoDup l
  /\ forall a b, In a l -> In b l -> timestamp a == timestamp b -> a = b.

(** The frames of the list taken at time [t], in the order of the list. *)
Definition taken_at_time (t : Q) (l : list (CapturedFrame Q))
    : list (CapturedFrame Q) :=
  filter (fun f => Qeq_bool (timestamp f) t) l.

(** The order of the timestamps that a sort order asks for, and the key it
    compares. *)
Definition in_order (order : SortOrder) (a b : CapturedFrame Q) : Prop :=
  match order with
  | asc => timestamp a <= timestamp b
  | desc => timestamp b <= timestamp a
  end.

Definition order_key (order : SortOrder) (f : CapturedFrame Q) : Q :=
  match order with
  | asc => timestamp f
  | desc => - timestamp f
  end.
End ExportOrder.

Section SchedulerForms.
Import Types Utils App.
Context {T : Type} `{Number T}.
Variable host : CaptureHost (T := T).
Variables start end_ interval : T.

(** What the host shows at iteration [i]. *)
Definition shot (i : nat) (loc : Locals) : Seeked :=
  seeked host i (currentTimeLoop loc).

(** The component after [await seekTo(currentTimeLoop)]. *)
Definition after_seek (i : nat) (loc : Locals) (s : State) : State :=
  onVideo (with_currentTime (snapTime (shot i loc)))
    (record_seek (currentTimeLoop loc) s).

(** The progress that iteration reports. *)
Definition progress_at (loc : Locals) : T :=
  nmin (nofZ 99)
    (if ngtb (nsub end_ start) (nofZ 0) then
       nmul (ndiv (nsub (currentTimeLoop loc) start) (nsub end_ start))
            (nofZ 100)
     else nofZ 100).

(** The component after the progress report and the animation frame. *)
Definition after_frame (i : nat) (loc : Locals) (s : State) : State :=
  setStop (stop s || stopPressed host i)
    (setAutoCaptureProgress (progress_at loc) s).

(** The frame that iteration [i] pushes when the canvas encodes to
    [dataUrl]. *)
Definition accepted (i : nat) (loc : Locals) (dataUrl : string)
    : CapturedFrame T :=
  {| id := randomUUID host i;
     timestamp := snapTime (shot i loc);
     originalDataUrl := dataUrl;
     width := videoWidth (shot i loc);
     height := videoHeight (shot i loc) |}.

(** The local variables at the end of an iteration. *)
Definition advanced (loc : Locals) (fs : list (CapturedFrame T))
    (last : string) : Locals :=
  {| newFrames := fs;
     currentTimeLoop := nadd (currentTimeLoop loc) interval;
     lastDataUrl := last |}.

(** The component as the loop is entered, and what the [finally] block makes
    of it. *)
Definition prelude (s : State) : State :=
  setIsPlaying false
    (onVideo (with_paused true)
       (setStop false
          (setAutoCaptureCount 0
             (setAutoCaptureProgress (nofZ 0)
                (setIsAutoCapturing true s))))).

Definition cleanup (s : State) : State :=
  onVideo (with_currentTime start)
    (setIsAutoCaptureModalOpen false (setIsAutoCapturing false s)).

(** The local variables as the loop is entered. *)
Definition entry : Locals :=
  {| newFrames := []; currentTimeLoop := start; lastDataUrl := "" |}.

(** The cells that the loop leaves alone. *)
Definition untouched (s s' : State (T := T)) : Prop :=
  frames s' = frames s
  /\ isPlaying s' = isPlaying s
  /\ isProcessing s' = isProcessing s
  /\ isAutoCaptureModalOpen s' = isAutoCaptureModalOpen s
  /\ isAutoCapturing s' = isAutoCapturing s
  /\ settings s' = settings s
  /\ console s' = console s
  /\ alerts s' = alerts s
  /\ downloads s' = downloads s
  /\ (video s' = None <-> video s = None).

(** The frame of iteration [j], seen from outside the loop. *)
Definition frame_of (j : nat) (dataUrl : string) : CapturedFrame T :=
  {| id := randomUUID host j;
     timestamp := snapTime (seeked host j (sample start interval j));
     originalDataUrl := dataUrl;
     width := videoWidth (seeked host j (sample start interval j));
     height := videoHeight (seeked host j (sample start interval j)) |}.

Definition taken_at (f : CapturedFrame T) (j : nat) : Prop :=
  canvas (seeked host j (sample start interval j)) = Encoded (originalDataUrl f)
  /\ f = frame_of j (originalDataUrl f).

(** The invariant of the loop at the top of iteration [i], entered from the
    component [s0]: the cells it leaves alone, the time it is at, the count
    it reports, the seeks it made, the tests it passed, where [stop] can come
    from, and the frames it holds: taken at increasing iterations, no two
    neighbours with the same data URL, the last one's remembered. *)
Definition running (s0 : State) (i : nat) (loc : Locals) (s : State) : Prop :=
  untouched s0 s
  /\ currentTimeLoop loc = sample start interval i
  /\ autoCaptureCount s = List.length (newFrames loc)
  /\ seeks s = (rev (map (sample start interval) (seq 0 i)) ++ seeks s0)%list
  /\ (forall j, (j < i)%nat -> nleb (sample start interval j) end_ = true)
  /\ (stop s = true -> exists j, (j < i)%nat /\ stopPressed host j = true)
  /\ (exists js, StronglySorted lt js
                 /\ Forall (fun j => (j < i)%nat) js
                 /\ Forall2 taken_at (newFrames loc) js)
  /\ Spec.no_adjacent_equal (map (@originalDataUrl T) (newFrames loc))
  /\ lastDataUrl loc = last (map (@originalDataUrl T) (newFrames loc)) ""%string.

(** With the same data URL on every canvas, a frame is accepted by the first
    iteration and stays the only one. *)
Definition running_constant (s0 : State) (i : nat) (loc : Locals) (s : State)
    : Prop :=
  running s0 i loc s /\ ((0 < i)%nat -> newFrames loc <> []).

(** The frames that the iterations before [k] accept, in the order of
    acceptance, and the data URL that the loop then remembers: iteration
    [j] accepts the frame on its canvas when the canvas encodes to a data URL
    other than the one remembered, which is the empty string at first. *)
Fixpoint accepted_before (k : nat) : list (CapturedFrame T) * string :=
  match k with
  | O => ([], ""%string)
  | Datatypes.S j =>
      let (fs, lastUrl) := accepted_before j in
      match canvas (seeked host j (sample start interval j)) with
      | Encoded dataUrl =>
          if negb (String.eqb dataUrl lastUrl)
          then ((fs ++ [frame_of j dataUrl])%list, dataUrl)
          else (fs, lastUrl)
      | _ => (fs, lastUrl)
      end
  end.

(** The invariant [running], with the frames held named and the iterations
    during which [stop] was set accounted for. *)
Definition collecting (s0 : State) (i : nat) (loc : Locals) (s : State)
    : Prop :=
  running s0 i loc s
  /\ newFrames loc = fst (accepted_before i)
  /\ lastDataUrl loc = snd (accepted_before i)
  /\ (forall j, (j < i)%nat -> stopPressed host j = true -> stop s = true)
  /\ (forall j, (j + 1 < i)%nat -> stopPressed host j = false).

(** What the loop keeps of the component [s0] it was entered from, the video
    element included: paused or not, and its sound. *)
Definition kept (s0 s : State (T := T)) : Prop :=
  untouched s0 s
  /\ option_map (@paused T) (video s) = option_map (@paused T) (video s0)
  /\ option_map (@muted T) (video s) = option_map (@muted T) (video s0).
End SchedulerForms.

(* ================================================================== *)
(** * Hosts and stores of the examples *)
(* ================================================================== *)

Section Inputs.
Import Types Utils App.
Open Scope string_scope.

(** The component with the given frames in its store, nothing in progress. *)
Definition idle {T : Type} `{Number T} (fs : list (CapturedFrame T))
    (st : ExportSettings T) (v : option Video) : State :=
  {| frames := fs; isPlaying := false; isProcessing := false;
     isAutoCaptureModalOpen := false; isAutoCapturing := false;
     autoCaptureProgress := nofZ 0; autoCaptureCount := 0;
     settings := st; stop := false; video := v;
     console := []; alerts := []; downloads := []; seeks := [] |}.

(** A frame captured at a whole second. *)
Definition frame_at (second : nat) : CapturedFrame Q :=
  {| id := JS.String_of_nat second;
     timestamp := inject_Z (Z.of_nat second);
     originalDataUrl := "data:image/jpeg;base64,/9j/";
     width := 640; height := 360 |}.

(** A frame captured while the video had no dimensions yet: the canvas is
    empty and [toDataURL] returns ["data:,"], which no image decodes. *)
Definition blank_frame : CapturedFrame Q :=
  {| id := "blank"; timestamp := 0; originalDataUrl := "data:,";
     width := 0; height := 0 |}.

(** The settings [App] starts with. *)
Definition default_settings : ExportSettings Q :=
  {| format := image_jpeg; quality := 9 # 10; scale := 1;
     prefix := "image"; sortOrder := asc |}.

(** A host on which every image loads and encodes. *)
Definition healthy_host : ExportHost (T := Q) :=
  {| imageLoads := fun _ => true;
     getContext2d := fun _ _ => true;
     toBlob := fun url _ _ _ _ => Some url;
     zipFolder := fun _ => true;
     generateAsync := fun _ => None |}.

(** A host that decodes every data URL but ["data:,"]. *)
Definition decoding_host : ExportHost (T := Q) :=
  {| imageLoads := fun url => negb (String.eqb url "data:,");
     getContext2d := fun _ _ => true;
     toBlob := fun url _ _ _ _ => Some url;
     zipFolder := fun _ => true;
     generateAsync := fun _ => None |}.

(** A host whose encoder always hands [null] to the callback of [toBlob]. *)
Definition failing_encoder_host : ExportHost (T := Q) :=
  {| imageLoads := fun _ => true;
     getContext2d := fun _ _ => true;
     toBlob := fun _ _ _ _ _ => None;
     zipFolder := fun _ => true;
     generateAsync := fun _ => None |}.

(** The names of the files of a delivered archive. *)
Definition exported_names (p : Promise (option Download)) : list string :=
  match p with
  | Fulfilled (Some {| content := ZipContent _ files |}) => map fst files
  | _ => []
  end.

(** A decoder that lands on the requested time and shows a different picture
    at every iteration; [stop] is set while iteration [cancel_at] is
    suspended, if at all. *)
Definition distinct_host {T : Type} (cancel_at : option nat)
    : CaptureHost (T := T) :=
  {| seeked := fun i t =>
       {| snapTime := t; videoWidth := 640; videoHeight := 360;
          canvas := Encoded ("data:image/jpeg;base64," ++ JS.String_of_nat i) |};
     randomUUID := fun i => "id-" ++ JS.String_of_nat i;
     stopPressed := fun i =>
       match cancel_at with
       | Some k => Nat.eqb i k
       | None => false
       end |}.

(** A decoder stuck on one picture. *)
Definition frozen_host : CaptureHost (T := Q) :=
  {| seeked := fun i t =>
       {| snapTime := t; videoWidth := 640; videoHeight := 360;
          canvas := Encoded "data:image/jpeg;base64,/9j/" |};
     randomUUID := fun i => "id-" ++ JS.String_of_nat i;
     stopPressed := fun _ => false |}.

(** A decoder as [distinct_host], whose canvas throws a [SecurityError] at
    iteration [fault]. *)
Definition faulty_host (fault : nat) : CaptureHost (T := Q) :=
  {| seeked := fun i t =>
       {| snapTime := t; videoWidth := 640; videoHeight := 360;
          canvas :=
            if Nat.eqb i fault then Raised "SecurityError"
            else Encoded ("data:image/jpeg;base64," ++ JS.String_of_nat i) |};
     randomUUID := fun i => "id-" ++ JS.String_of_nat i;
     stopPressed := fun _ => false |}.

Definition paused_video : Video (T := Q) :=
  {| paused := true; currentTime := 0; muted := false |}.

(** A video paused at second 5, with sound on. *)
Definition paused_at_5 : Video (T := Q) :=
  {| paused := true; currentTime := 5 # 1; muted := false |}.

(** The component with one earlier capture, of second 100, in its store. *)
Definition one_capture : State (T := Q) :=
  idle [frame_at 100] default_settings (Some paused_video).

(** A host that gives no context for a canvas with a side below one
    pixel. *)
Definition strict_canvas_host : ExportHost (T := Q) :=
  {| imageLoads := fun _ => true;
     getContext2d := fun w h => ((1 <=? w) && (1 <=? h))%Z;
     toBlob := fun url _ _ _ _ => Some url;
     zipFolder := fun _ => true;
     generateAsync := fun _ => None |}.

(** The archive of the frames of seconds 1 and 2 on [healthy_host]. *)
Definition two_frame_archive : Download :=
  {| download := "image_frames.zip";
     content :=
       ZipContent "extracted_frames"
         [("image_01.jpeg", "data:image/jpeg;base64,/9j/");
          ("image_02.jpeg", "data:image/jpeg;base64,/9j/")] |}.

(** The component over binary64 numbers, with an empty store. *)
Definition binary64_idle : State (T := float) :=
  idle []
    {| format := image_jpeg; quality := 0.9%float;
       scale := 1%float; prefix := "image"; sortOrder := asc |}
    (Some {| paused := true; currentTime := 0%float; muted := false |}).
End Inputs.

(* ================================================================== *)
(** * Properties of the exact numbers *)
(* ================================================================== *)

Section NumberFacts.

Lemma Qtruncate_inject_Z (z : Z) : Qtruncate (inject_Z z) = z.
Proof.
  unfold Qtruncate. destruct (Qle_bool 0 (inject_Z z)).
  - apply Qfloor_Z.
  - unfold Qceiling. change (- inject_Z z) with (inject_Z (- z)).
    rewrite Qfloor_Z. lia.
Qed.

Lemma Qtruncate_nonneg (x : Q) : 0 <= x -> Qtruncate x = Qfloor x.
Proof.
  intros Hx. unfold Qtruncate.
  apply Qle_bool_iff in Hx. rewrite Hx. reflexivity.
Qed.
End NumberFacts.

(* ================================================================== *)
(** * Properties of utils.ts: file names *)
(* ================================================================== *)

Section FilenameFacts.
Import Types Utils Spec.
Open Scope string_scope.

Lemma length_append (s1 s2 : string) :
  String.length (s1 ++ s2) = (String.length s1 + String.length s2)%nat.
Proof. induction s1 as [|c s1 IH]; simpl; [reflexivity | now rewrite IH]. Qed.

Lemma length_repeat_char (c : ascii) (n : nat) :
  String.length (JS.repeat_char c n) = n.
Proof. induction n as [|n IH]; simpl; [reflexivity | now rewrite IH]. Qed.

Lemma digit_value_digit (d : nat) :
  (d < 10)%nat -> digit_value (JS.digit d) = Some d.
Proof.
  intros Hd.
  do 10 (destruct d as [|d]; [reflexivity|]).
  lia.
Qed.

(** The digits that [JS.digits] writes in front of [acc]: their number [k]
    is the digit count of [n], and they denote [n]. *)
Lemma digits_spec (fuel : nat) :
  forall n acc, (n < fuel)%nat ->
  exists k,
    digitCount_is n k
    /\ String.length (JS.digits fuel n acc) = (k + String.length acc)%nat
    /\ forall a, parse_digits (JS.digits fuel n acc) a
                 = parse_digits acc (a * 10 ^ k + n).
Proof.
  induction fuel as [|fuel IH]; intros n acc Hn; [lia|].
  cbn [JS.digits].
  pose proof (Nat.div_mod_eq n 10) as Hdm.
  pose proof (Nat.mod_upper_bound n 10 ltac:(lia)) as Hmod.
  destruct (Nat.eqb_spec (n / 10) 0) as [Hz|Hnz].
  - exists 1%nat. assert (Hlt : (n < 10)%nat) by lia.
    assert (Hn' : (n mod 10 = n)%nat) by lia. rewrite Hn'.
    split; [|split].
    + unfold digitCount_is. change (10 ^ 1)%nat with 10%nat. lia.
    + reflexivity.
    + intros a. cbn [parse_digits]. rewrite (digit_value_digit Hlt).
      f_equal. change (10 ^ 1)%nat with 10%nat. lia.
  - assert (Hlt : (n / 10 < fuel)%nat) by lia.
    destruct (IH (n / 10)%nat (String (JS.digit (n mod 10)) acc) Hlt)
      as (k & (Hk1 & Hk2 & Hk3) & Hlen & Hparse).
    exists (S k). split; [|split].
    + unfold digitCount_is. replace (S k - 1)%nat with k by lia.
      rewrite Nat.pow_succ_r'. split; [lia|]. split; [lia|].
      right. destruct Hk3 as [->|Hk3].
      * change (10 ^ 1)%nat with 10%nat. lia.
      * destruct k as [|k]; [lia|].
        replace (S k - 1)%nat with k in Hk3 by lia.
        rewrite Nat.pow_succ_r'. lia.
    + rewrite Hlen. cbn [String.length]. lia.
    + intros a. rewrite Hparse. cbn [parse_digits].
      rewrite (digit_value_digit Hmod). f_equal.
      rewrite Nat.pow_succ_r'. lia.
Qed.

Lemma String_of_nat_spec (n : nat) :
  exists k,
    digitCount_is n k
    /\ String.length (JS.String_of_nat n) = k
    /\ parse_digits (JS.String_of_nat n) 0 = Some n.
Proof.
  destruct (@digits_spec (S n) n "" ltac:(lia)) as (k & Hk & Hlen & Hparse).
  exists k. split; [exact Hk|]. split.
  - unfold JS.String_of_nat. rewrite Hlen. simpl. lia.
  - unfold JS.String_of_nat. rewrite Hparse. reflexivity.
Qed.

Lemma parse_digits_zeros (m : nat) (s : string) :
  parse_digits (JS.repeat_char "0" m ++ s) 0 = parse_digits s 0.
Proof. induction m as [|m IH]; simpl; [reflexivity | exact IH]. Qed.

Lemma digitCount_is_unique (n d1 d2 : nat) :
  digitCount_is n d1 -> digitCount_is n d2 -> d1 = d2.
Proof.
  intros (H1 & H2 & H3) (H1' & H2' & H3').
  destruct (Nat.lt_trichotomy d1 d2) as [Hlt|[Heq|Hgt]]; [|exact Heq|].
  - destruct H3' as [->|H3']; [lia|].
    assert (10 ^ d1 <= 10 ^ (d2 - 1))%nat by (apply Nat.pow_le_mono_r; lia).
    lia.
  - destruct H3 as [->|H3]; [lia|].
    assert (10 ^ d2 <= 10 ^ (d1 - 1))%nat by (apply Nat.pow_le_mono_r; lia).
    lia.
Qed.
End FilenameFacts.

Section GenerateFilename.
Import Types Utils Spec.
Open Scope string_scope.

Lemma count_digits_spec (fuel : nat) :
  forall n, (n <= fuel)%nat -> digitCount_is n (count_digits fuel n).
Proof.
  induction fuel as [|fuel IH]; intros n Hn.
  - assert (n = 0)%nat by lia. subst n. unfold digitCount_is. simpl. lia.
  - cbn [count_digits]. destruct (Nat.ltb_spec n 10) as [Hlt|Hge].
    + unfold digitCount_is. change (10 ^ 1)%nat with 10%nat. lia.
    + pose proof (Nat.div_mod_eq n 10) as Hdm.
      pose proof (Nat.mod_upper_bound n 10 ltac:(lia)) as Hmod.
      destruct (IH (n / 10)%nat ltac:(lia)) as (H1 & H2 & H3).
      set (d := count_digits fuel (n / 10)) in *.
      unfold digitCount_is. replace (S d - 1)%nat with d by lia.
      rewrite Nat.pow_succ_r'. split; [lia|]. split; [lia|]. right.
      destruct H3 as [H3|H3].
      * rewrite H3. change (10 ^ 1)%nat with 10%nat. lia.
      * destruct d as [|d]; [lia|].
        replace (S d - 1)%nat with d in H3 by lia.
        rewrite Nat.pow_succ_r'. lia.
Qed.

(** [digitCount] counts the decimal digits. *)
Lemma digitCount_spec (n : nat) : digitCount_is n (digitCount n).
Proof. apply count_digits_spec. lia. Qed.

Lemma extension_of_format (f : ImageFormat) :
  JS.index_or_undefined (JS.split "/" (format_string f)) 1 = extension f.
Proof. destruct f; reflexivity. Qed.

(** C4, as amended: the numeric field of a file name is the 1-based ordinal
    [index + 1] in decimal, zero-padded to [max(2, digitCount(index + 1))]
    digits (the digit count of the ordinal itself, whatever the number of
    frames exported), and the name is [{prefix}_{field}.{ext}] with [ext]
    the subtype of the format. *)
Theorem generateFilename_pads_by_ordinal :
  forall (T : Type) (N : Number T) (timestamp : T)
         (settings : ExportSettings T) (index : nat),
  exists numStr,
    generateFilename timestamp settings index
      = prefix settings ++ "_" ++ numStr ++ "." ++ extension (format settings)
    /\ String.length numStr = Nat.max 2 (digitCount (index + 1))
    /\ decimal_value numStr = Some (index + 1)%nat.
Proof.
  intros T N timestamp settings index.
  destruct (String_of_nat_spec (index + 1)) as (d & Hd & Hlen & Hparse).
  assert (Hcount : digitCount (index + 1) = d)
    by (apply (@digitCount_is_unique (index + 1));
        [apply digitCount_spec | exact Hd]).
  rewrite Hcount.
  exists (JS.padStart (Nat.max 2 d) "0" (JS.String_of_nat (index + 1))).
  split; [|split].
  - unfold generateFilename. rewrite extension_of_format, Hlen. reflexivity.
  - unfold JS.padStart. rewrite length_append, length_repeat_char, Hlen. lia.
  - unfold JS.padStart. rewrite Hlen.
    set (field := JS.repeat_char "0" (Nat.max 2 d - d)
                  ++ JS.String_of_nat (index + 1)).
    assert (Hval : parse_digits field 0 = Some (index + 1)%nat)
      by (unfold field; rewrite parse_digits_zeros; exact Hparse).
    unfold decimal_value.
    destruct field as [|c s] eqn:E; [|exact Hval].
    apply (f_equal String.length) in E. unfold field in E.
    rewrite length_append, length_repeat_char, Hlen in E.
    destruct Hd as (Hd1 & _). simpl in E. lia.
Qed.

(** C10: the file name does not depend on the timestamp argument. *)
Theorem generateFilename_ignores_timestamp :
  forall (T : Type) (N : Number T) (timestamp1 timestamp2 : T)
         (settings : ExportSettings T) (index : nat),
    generateFilename timestamp1 settings index
    = generateFilename timestamp2 settings index.
Proof. intros. reflexivity. Qed.

(** C4, as stated, fails: of 150 exported frames the first is numbered with
    2 digits, where padding by the total count asks for 3. *)
Lemma generateFilename_total_count_counterexample :
  let names :=
    exported_names
      (downloadZip healthy_host (map frame_at (seq 0 150)) default_settings) in
  List.length names = 150%nat
  /\ nth 0 names "" = "image_01.jpeg"
  /\ generateFilename (0 : Q) default_settings 0 = "image_01.jpeg"
  /\ spec_filename "image" 150 1 "jpeg" = "image_001.jpeg"
  /\ generateFilename (0 : Q) default_settings 0
     <> spec_filename "image" 150 1 (extension (format default_settings)).
Proof.
  vm_compute. repeat split; try reflexivity. discriminate.
Qed.
End GenerateFilename.

(* ================================================================== *)
(** * Properties of detectVideoFPS *)
(* ================================================================== *)

Section DetectFacts.
Import App.

Section AnyNumber.
Context {T : Type} `{Number T}.
Variable v : Video (T := T).

Lemma remembers_start (supported : bool) :
  remembers v (detect_start v supported).
Proof.
  unfold remembers, detect_start.
  destruct supported; cbn; repeat split; try discriminate.
  intros fps snap [= _ <-]. reflexivity.
Qed.

Lemma remembers_finish (d : Detect) : remembers v d -> remembers v (finish d).
Proof.
  intros (Hp & Ht & Hm & Hr). unfold finish, resolve. cbn.
  destruct (resolved d) as [[fps0 snap0]|] eqn:E; cbn.
  - repeat split; assumption.
  - repeat split; try assumption.
    intros fps snap [= _ <-].
    rewrite Hp, Ht, Hm, negb_involutive.
    unfold with_paused, with_muted, with_currentTime. cbn.
    destruct v; reflexivity.
Qed.

Lemma remembers_step (d : Detect) (ev : Event) :
  (forall e, ev <> PlayRejected e) -> remembers v d -> remembers v (step d ev).
Proof.
  intros Hev Hd. destruct ev as [|e|mediaTime|]; cbn [step].
  - destruct (playPending d); [|exact Hd].
    destruct Hd as (Hp & Ht & Hm & Hr). repeat split; assumption.
  - exfalso. exact (Hev e eq_refl).
  - destruct (handle d); [|exact Hd]. unfold callback.
    match goal with
    | |- remembers v (if ?c then ?a else finish ?b) =>
        assert (Ha : remembers v a)
          by (destruct Hd as (Hp & Ht & Hm & Hr); repeat split; assumption);
        destruct c; [exact Ha | apply remembers_finish; exact Ha]
    end.
  - destruct (timer d); [|exact Hd].
    match goal with
    | |- remembers v (if ?c then finish ?a else ?b) =>
        assert (Ha : remembers v a)
          by (destruct Hd as (Hp & Ht & Hm & Hr); repeat split; assumption);
        destruct c; [apply remembers_finish; exact Ha | exact Ha]
    end.
Qed.

Lemma remembers_run (events : list Event) :
  (forall e, ~ In (PlayRejected e) events) ->
  forall d, remembers v d -> remembers v (fold_left step events d).
Proof.
  induction events as [|ev events IH]; intros Hrej d Hd; [exact Hd|].
  cbn [fold_left]. apply IH.
  - intros e Hin. apply (Hrej e). right. exact Hin.
  - apply remembers_step; [|exact Hd].
    intros e ->. apply (Hrej e). left. reflexivity.
Qed.

(** The paths through [finish] (all samples collected, or the deadline)
    and the path of an element without frame callbacks settle the promise
    with the element exactly as it was found. *)
Lemma detectVideoFPS_restores_unless_rejected
    (supported : bool) (events : list Event) (fps : Z) (snap : Video) :
  (forall e, ~ In (PlayRejected e) events) ->
  resolved (detectVideoFPS v supported events) = Some (fps, snap) ->
  snap = v.
Proof.
  intros Hrej Hres.
  destruct (@remembers_run events Hrej _ (remembers_start supported))
    as (_ & _ & _ & Hr).
  exact (Hr _ _ Hres).
Qed.
End AnyNumber.

(** C9 at the failing inputs: when [video.play()] rejects, the promise is
    settled with 30 while the element is still muted and still at time 0, as
    [detectVideoFPS] put it before playing: an element that had sound on, or
    was at another position, is not as it was when the estimate resolves. *)
Theorem detectVideoFPS_autoplay_rejected_not_restored :
  forall (T : Type) (N : Number T) (v : Video (T := T)) (e : string),
    muted v = false \/ currentTime v <> nofZ 0 ->
    exists snap,
      resolved (detectVideoFPS v true [PlayRejected e]) = Some (30%Z, snap)
      /\ muted snap = true
      /\ currentTime snap = nofZ 0
      /\ snap <> v.
Proof.
  intros T N v e Hv.
  exists (with_currentTime (nofZ 0) (with_muted true v)).
  split; [reflexivity|]. split; [reflexivity|]. split; [reflexivity|].
  intros E. destruct Hv as [Hm|Ht].
  - apply (f_equal (@muted T)) in E. cbn in E. congruence.
  - apply (f_equal (@currentTime T)) in E. cbn in E. congruence.
Qed.

Lemma detectVideoFPS_autoplay_rejected_not_restored_witness :
  (muted paused_at_5 = false \/ currentTime paused_at_5 <> nofZ 0)
  /\ exists snap,
       resolved (detectVideoFPS paused_at_5 true [PlayRejected "NotAllowedError"])
       = Some (30%Z, snap)
       /\ muted snap = true
       /\ currentTime snap = nofZ 0
       /\ snap <> paused_at_5.
Proof.
  assert (H1 : muted paused_at_5 = false \/ currentTime paused_at_5 <> nofZ 0)
    by (left; reflexivity).
  split; [exact H1|].
  exact (@detectVideoFPS_autoplay_rejected_not_restored Q Q_Number
           paused_at_5 "NotAllowedError" H1).
Defined.

(** A video paused at second 5 with sound on: the estimate resolves on the
    rejection with the element muted at second 0; the element is put back
    only when the timer fires, after the promise was settled. *)
Example autoplay_rejected_then_deadline :
  let d1 := detectVideoFPS paused_at_5 true [PlayRejected "NotAllowedError"] in
  let d2 :=
    detectVideoFPS paused_at_5 true [PlayRejected "NotAllowedError"; Deadline] in
  resolved d1
  = Some (30%Z, {| paused := true; currentTime := 0; muted := true |})
  /\ resolved d2 = resolved d1
  /\ element d2 = paused_at_5.
Proof. cbv zeta. repeat split. Qed.

(** The estimate of a single delta [x] above two seconds. *)
Lemma estimate_single_slow (x : Q) : 2 < x -> estimate [x] = 0%Z.
Proof.
  intros Hx. unfold estimate. cbn -[Qle_bool Qfloor Qdiv Qplus].
  change (inject_Z 0) with (0 : Q). change (inject_Z 1) with (1 : Q).
  assert (H0 : 0 < x) by (apply Qlt_trans with 2; [reflexivity | exact Hx]).
  assert (Hpos : Qle_bool x 0 = false).
  { destruct (Qle_bool x 0) eqn:E; [|reflexivity].
    apply Qle_bool_iff in E. exfalso.
    apply (Qlt_irrefl 0). apply Qlt_le_trans with x; assumption. }
  rewrite Hpos. cbn [negb].
  assert (Hinv : 0 < 1 / x).
  { unfold Qdiv. rewrite Qmult_1_l. apply Qinv_lt_0_compat. exact H0. }
  assert (Hhalf : 1 / x < 1 # 2).
  { apply Qlt_shift_div_r; [exact H0|].
    setoid_replace (1 : Q) with ((1 # 2) * 2) by reflexivity.
    apply Qmult_lt_l; [reflexivity | exact Hx]. }
  assert (Hlo : (0 <= Qfloor (1 / x + (1 # 2)))%Z).
  { change 0%Z with (Qfloor 0). apply Qfloor_resp_le.
    apply Qlt_le_weak.
    setoid_replace (0 : Q) with (0 + 0) by reflexivity.
    apply Qplus_lt_le_compat; [exact Hinv | discriminate]. }
  assert (Hhi : (Qfloor (1 / x + (1 # 2)) < 1)%Z).
  { apply Z.lt_nge. intros Hge.
    apply (Qlt_irrefl 1).
    apply Qle_lt_trans with (1 / x + (1 # 2)).
    - apply Qle_trans with (inject_Z (Qfloor (1 / x + (1 # 2)))).
      + change (1 : Q) with (inject_Z 1). rewrite <- Zle_Qle. exact Hge.
      + apply Qfloor_le.
    - setoid_replace (1 : Q) with ((1 # 2) + (1 # 2)) at 2 by reflexivity.
      apply Qplus_lt_le_compat; [exact Hhalf | apply Qle_refl]. }
  rewrite Qtruncate_inject_Z. lia.
Qed.

(** C8 at the failing inputs: when the first two frames are delivered more
    than two seconds of media time apart and the deadline then ends the
    measurement, the estimate resolves to 0. *)
Theorem detectVideoFPS_resolves_zero :
  forall (v : Video (T := Q)) (t0 x : Q),
    2 < x ->
    option_map fst
      (resolved
         (detectVideoFPS v true
            [PlayFulfilled; FrameDelivered t0; FrameDelivered (t0 + x); Deadline]))
    = Some 0%Z.
Proof.
  intros v t0 x Hx.
  assert (Hd : 2 < t0 + x - t0).
  { setoid_replace (t0 + x - t0) with x by ring. exact Hx. }
  assert (Hm : ngtb (nsub (t0 + x) t0) nmilli = true).
  { unfold ngtb. cbn -[Qle_bool Qminus Qplus].
    destruct (Qle_bool (t0 + x - t0) (1 # 1000)) eqn:E; [|reflexivity].
    apply Qle_bool_iff in E. exfalso. apply (Qlt_irrefl 2).
    apply Qlt_le_trans with (t0 + x - t0); [exact Hd|].
    apply Qle_trans with (1 # 1000); [exact E | discriminate]. }
  unfold detectVideoFPS.
  cbn [fold_left detect_start step callback playPending handle timer
       frameCount lastMediaTime diffs Nat.ltb Nat.leb Nat.add maxFrames].
  rewrite Hm.
  cbn [finish resolve diffs resolved app option_map fst].
  change (nsub (t0 + x) t0) with (t0 + x - t0).
  rewrite (@estimate_single_slow (t0 + x - t0) Hd). reflexivity.
Qed.

Lemma detectVideoFPS_resolves_zero_witness :
  2 < 5 # 2
  /\ option_map fst
       (resolved
          (detectVideoFPS paused_video true
             [PlayFulfilled; FrameDelivered 0; FrameDelivered (0 + (5 # 2));
              Deadline]))
     = Some 0%Z.
Proof.
  split; [reflexivity|].
  apply detectVideoFPS_resolves_zero. reflexivity.
Defined.

(** The same in binary64 arithmetic. *)
Example estimate_zero_binary64 :
  estimate [2.5%float] = 0%Z
  /\ option_map fst
       (resolved
          (detectVideoFPS
             {| paused := true; currentTime := 0%float; muted := false |} true
             [PlayFulfilled; FrameDelivered 0%float;
              FrameDelivered 2.5%float; Deadline]))
     = Some 0%Z.
Proof. split; vm_compute; reflexivity. Qed.

(** What does hold of the estimate: without a delta it is 30. *)
Lemma estimate_nil (T : Type) (N : Number T) : estimate (T := T) [] = 30%Z.
Proof. reflexivity. Qed.
End DetectFacts.

(* ================================================================== *)
(** * Properties of the export: downloadZip and handleDownloadAll *)
(* ================================================================== *)

Section ExportFacts.
Import Types Utils App.
Context {T : Type} `{Number T}.

(** [sort] rearranges its argument. *)
Lemma sort_insert_perm {A} (compareFn : A -> A -> T) (x : A) (l : list A) :
  Permutation (x :: l) (sort_insert compareFn x l).
Proof.
  induction l as [|y l IH]; cbn [sort_insert]; [apply Permutation_refl|].
  destruct (ngtb (compareFn y x) (nofZ 0)); [apply Permutation_refl|].
  apply perm_trans with (y :: x :: l); [apply perm_swap|].
  apply perm_skip. exact IH.
Qed.

Lemma sort_perm {A} (compareFn : A -> A -> T) (l : list A) :
  Permutation l (sort compareFn l).
Proof.
  unfold sort.
  assert (Hgen : forall acc,
             Permutation (l ++ acc)
               (fold_left (fun acc x => sort_insert compareFn x acc) l acc)).
  { induction l as [|x l IH]; intros acc; cbn [fold_left app].
    - apply Permutation_refl.
    - apply perm_trans with (l ++ sort_insert compareFn x acc).
      + apply perm_trans with (l ++ x :: acc).
        * apply Permutation_middle.
        * apply Permutation_app_head. apply sort_insert_perm.
      + apply IH. }
  specialize (Hgen []). rewrite app_nil_r in Hgen. exact Hgen.
Qed.

Variable host : ExportHost (T := T).
Variable settings : ExportSettings T.

(** No callback of the export ever rejects. *)
Lemma zipEntry_never_rejects (l : list (CapturedFrame T)) (i : nat) :
  first_rejection (mapi_from (zipEntry host settings) i l) = None.
Proof.
  revert i. induction l as [|f l IH]; intros i; [reflexivity|].
  cbn [mapi_from first_rejection]. unfold zipEntry at 1, processFrame.
  destruct (imageLoads host (originalDataUrl f)); [|apply IH].
  destruct (getContext2d host _ _); [|apply IH].
  destruct (toBlob host _ _ _ _ _); apply IH.
Qed.

(** A frame whose image never loads keeps [Promise.all] from settling. *)
Lemma undecodable_frame_blocks (l : list (CapturedFrame T)) (i : nat)
    (bad : CapturedFrame T) :
  In bad l -> imageLoads host (originalDataUrl bad) = false ->
  all_fulfilled (mapi_from (zipEntry host settings) i l) = None.
Proof.
  revert i. induction l as [|f l IH]; intros i Hin Hbad; [destruct Hin|].
  cbn [mapi_from all_fulfilled].
  destruct Hin as [->|Hin].
  - unfold zipEntry, processFrame. rewrite Hbad. reflexivity.
  - destruct (zipEntry host settings f i); try reflexivity.
    rewrite (IH (Datatypes.S i) Hin Hbad). reflexivity.
Qed.

Lemma decodable_frames_settle (l : list (CapturedFrame T)) (i : nat) :
  (forall f, In f l -> imageLoads host (originalDataUrl f) = true) ->
  all_fulfilled (mapi_from (zipEntry host settings) i l)
  = Some (mapi_from (entry_of host settings) i l).
Proof.
  revert i. induction l as [|f l IH]; intros i Hall; [reflexivity|].
  cbn [mapi_from all_fulfilled].
  rewrite (IH (Datatypes.S i)) by (intros g Hg; apply Hall; right; exact Hg).
  unfold zipEntry, entry_of, processFrame.
  rewrite (Hall f (or_introl eq_refl)).
  destruct (getContext2d host _ _); [|reflexivity].
  destruct (toBlob host _ _ _ _ _); reflexivity.
Qed.

(** When every image loads, the export settles and the archive holds one
    entry for each frame that encoded, named by its place in the sorted
    sequence; the frames that did not encode are left out. *)
Lemma downloadZip_omits_failed_encodings (frames : list (CapturedFrame T)) :
  zipFolder host "extracted_frames" = true ->
  (forall f, In f frames -> imageLoads host (originalDataUrl f) = true) ->
  let files :=
    added (mapi (entry_of host settings)
             (sort (compareFrames (sortOrder settings)) frames)) in
  generateAsync host files = None ->
  downloadZip host frames settings
  = Fulfilled (Some {| download := (prefix settings ++ "_frames.zip")%string;
                       content := ZipContent "extracted_frames" files |}).
Proof.
  intros Hfolder Hall files Hgen. unfold downloadZip, Promise_all, mapi.
  rewrite Hfolder. cbn [negb].
  rewrite zipEntry_never_rejects.
  rewrite decodable_frames_settle.
  - unfold files, mapi in Hgen. rewrite Hgen. reflexivity.
  - intros f Hf. apply Hall.
    apply Permutation_in with (sort (compareFrames (sortOrder settings)) frames);
      [apply Permutation_sym, sort_perm | exact Hf].
Qed.

Lemma downloadZip_pending (frames : list (CapturedFrame T))
    (bad : CapturedFrame T) :
  zipFolder host "extracted_frames" = true ->
  In bad frames -> imageLoads host (originalDataUrl bad) = false ->
  downloadZip host frames settings = Pending.
Proof.
  intros Hfolder Hin Hbad. unfold downloadZip, Promise_all, mapi.
  rewrite Hfolder. cbn [negb].
  rewrite zipEntry_never_rejects.
  rewrite (@undecodable_frame_blocks _ 0 bad); [reflexivity | | exact Hbad].
  apply Permutation_in with frames; [apply sort_perm | exact Hin].
Qed.

Lemma added_all_none (l : list (CapturedFrame T)) (i : nat) :
  (forall f, In f l -> processFrame host f settings = Fulfilled None) ->
  added (mapi_from (entry_of host settings) i l) = [].
Proof.
  revert i. induction l as [|f l IH]; intros i Hall; [reflexivity|].
  cbn [mapi_from]. unfold entry_of at 1.
  rewrite (Hall f (or_introl eq_refl)). cbn [added].
  apply IH. intros g Hg. apply Hall. right. exact Hg.
Qed.
End ExportFacts.

Section ExportClaims.
Import Types Utils App.
Open Scope string_scope.

(** C6 at the failing inputs: a frame whose data URL does not decode leaves
    its [processFrame] promise unsettled, so [downloadZip] never settles and
    [handleDownloadAll] stays suspended with [isProcessing] set: nothing is
    delivered, whatever the other frames are. *)
Theorem export_stalls_on_undecodable_frame :
  forall (T : Type) (N : Number T) (host : ExportHost (T := T))
         (s : State) (bad : CapturedFrame T),
    zipFolder host "extracted_frames" = true ->
    In bad (frames s) ->
    imageLoads host (originalDataUrl bad) = false ->
    downloadZip host (frames s) (settings s) = Pending
    /\ handleDownloadAll host s = (Stuck, setIsProcessing true s).
Proof.
  intros T N host s bad Hfolder Hin Hbad.
  pose proof (@downloadZip_pending T N host (settings s) (frames s) bad
                Hfolder Hin Hbad) as Hpending.
  split; [exact Hpending|].
  unfold handleDownloadAll, bind, get, modify, try_catch_finally, await.
  destruct (frames s) as [|f fs] eqn:E; [destruct Hin|].
  cbn [List.length Nat.eqb].
  change (settings (setIsProcessing true s)) with (settings s).
  rewrite Hpending. reflexivity.
Qed.

Lemma export_stalls_on_undecodable_frame_witness :
  let s := idle [frame_at 1; blank_frame; frame_at 2] default_settings None in
  zipFolder decoding_host "extracted_frames" = true
  /\ In blank_frame (frames s)
  /\ imageLoads decoding_host (originalDataUrl blank_frame) = false
  /\ downloadZip decoding_host (frames s) (settings s) = Pending
  /\ handleDownloadAll decoding_host s = (Stuck, setIsProcessing true s).
Proof.
  cbv zeta.
  assert (H1 : zipFolder decoding_host "extracted_frames" = true) by reflexivity.
  assert (H2 : In blank_frame
                 (frames (idle [frame_at 1; blank_frame; frame_at 2]
                            default_settings None)))
    by (right; left; reflexivity).
  assert (H3 : imageLoads decoding_host (originalDataUrl blank_frame) = false)
    by reflexivity.
  split; [exact H1|]. split; [exact H2|]. split; [exact H3|].
  exact (@export_stalls_on_undecodable_frame Q Q_Number decoding_host
           (idle [frame_at 1; blank_frame; frame_at 2] default_settings None)
           blank_frame H1 H2 H3).
Defined.

(** C7, as amended: with an empty store [handleDownloadAll] returns at once
    and leaves the component as it was (no archive, and nothing reported);
    with a non-empty store whose frames all yield [null], it delivers
    [{prefix}_frames.zip] holding the folder without a file, and ends as any
    successful export does, without alert. *)
Theorem handleDownloadAll_without_successful_frame :
  forall (T : Type) (N : Number T) (host : ExportHost (T := T)) (s : State),
    (frames s = [] -> handleDownloadAll host s = (Returned tt, s))
    /\ (frames s <> [] ->
        zipFolder host "extracted_frames" = true ->
        (forall f, In f (frames s) ->
                   processFrame host f (settings s) = Fulfilled None) ->
        generateAsync host [] = None ->
        handleDownloadAll host s
        = (Returned tt,
           setIsProcessing false
             (deliver
                (Some {| download := prefix (settings s) ++ "_frames.zip";
                         content := ZipContent "extracted_frames" [] |})
                (setIsProcessing true s)))).
Proof.
  intros T N host s. split.
  - intros Hempty. unfold handleDownloadAll, bind, get.
    rewrite Hempty. reflexivity.
  - intros Hne Hfolder Hnone Hgen.
    assert (Hloads : forall f, In f (frames s) ->
                               imageLoads host (originalDataUrl f) = true).
    { intros f Hf. specialize (Hnone f Hf). unfold processFrame in Hnone.
      destruct (imageLoads host (originalDataUrl f)); [reflexivity|discriminate]. }
    assert (Hfiles :
              added (mapi (entry_of host (settings s))
                       (sort (compareFrames (sortOrder (settings s))) (frames s)))
              = []).
    { apply added_all_none. intros f Hf. apply Hnone.
      apply Permutation_in
        with (sort (compareFrames (sortOrder (settings s))) (frames s));
        [apply Permutation_sym, sort_perm | exact Hf]. }
    pose proof (@downloadZip_omits_failed_encodings T N host (settings s)
                  (frames s) Hfolder Hloads) as Hzip.
    cbv zeta in Hzip. rewrite Hfiles in Hzip. specialize (Hzip Hgen).
    unfold handleDownloadAll, bind, get, modify, try_catch_finally, await.
    destruct (frames s) as [|f fs] eqn:E; [contradiction|].
    cbn [List.length Nat.eqb].
    change (settings (setIsProcessing true s)) with (settings s).
    rewrite Hzip. reflexivity.
Qed.

Lemma handleDownloadAll_without_successful_frame_witness :
  let empty := idle [] default_settings None in
  let s := idle [frame_at 1; frame_at 2] default_settings None in
  handleDownloadAll failing_encoder_host empty = (Returned tt, empty)
  /\ handleDownloadAll failing_encoder_host s
     = (Returned tt,
        setIsProcessing false
          (deliver
             (Some {| download := "image_frames.zip";
                      content := ZipContent "extracted_frames" [] |})
             (setIsProcessing true s))).
Proof.
  cbv zeta. split.
  - exact (proj1 (@handleDownloadAll_without_successful_frame Q Q_Number
                    failing_encoder_host (idle [] default_settings None))
             eq_refl).
  - refine (proj2 (@handleDownloadAll_without_successful_frame Q Q_Number
                     failing_encoder_host
                     (idle [frame_at 1; frame_at 2] default_settings None))
              _ eq_refl _ eq_refl).
    + discriminate.
    + intros f [<-|[<-|[]]]; reflexivity.
Defined.

(** C7, as stated, fails: the single frame of the store does not encode, so
    no frame transforms successfully; yet an archive is handed to the user,
    and the export ends without alert or console message. *)
Lemma empty_bundle_counterexample :
  let s := idle [frame_at 1] default_settings None in
  let r := handleDownloadAll failing_encoder_host s in
  processFrame failing_encoder_host (frame_at 1) default_settings = Fulfilled None
  /\ fst r = Returned tt
  /\ downloads (snd r)
     = [ {| download := "image_frames.zip";
            content := ZipContent "extracted_frames" [] |} ]
  /\ alerts (snd r) = []
  /\ console (snd r) = [].
Proof. vm_compute. repeat split. Qed.
End ExportClaims.

(* ================================================================== *)
(** * Properties of startAutoCapture *)
(* ================================================================== *)

Section SchedulerFacts.
Import Types Utils App.
Context {T : Type} `{Number T}.
Variable host : CaptureHost (T := T).
Variables start end_ interval : T.

(** ** One iteration, in closed form *)

(** The cases of an iteration: no context, a throw, the data URL of the
    frame accepted last, or another one. *)
Ltac canvas_cases h i loc :=
  let e := fresh "e" in
  let u := fresh "dataUrl" in
  destruct (canvas (shot h i loc)) as [|e|u];
  [| |destruct (String.eqb u (lastDataUrl loc))].

Lemma iteration_eq (i : nat) (loc : Locals) (s : State) :
  iteration host start end_ interval i loc s
  = match canvas (shot host i loc) with
    | NoContext =>
        (Returned (advanced interval loc (newFrames loc) (lastDataUrl loc)),
         after_frame host start end_ i loc (after_seek host i loc s))
    | Raised e => (Threw e, after_seek host i loc s)
    | Encoded dataUrl =>
        if String.eqb dataUrl (lastDataUrl loc) then
          (Returned (advanced interval loc (newFrames loc) (lastDataUrl loc)),
           after_frame host start end_ i loc (after_seek host i loc s))
        else
          (Returned
             (advanced interval loc
                (newFrames loc ++ [accepted host i loc dataUrl]) dataUrl),
           after_frame host start end_ i loc
             (setAutoCaptureCount
                (List.length (newFrames loc ++ [accepted host i loc dataUrl]))
                (after_seek host i loc s)))
    end.
Proof.
  unfold iteration, seekTo, capture, animationFrame, bind, modify, ret, throw.
  unfold after_seek, accepted, shot.
  destruct (canvas (seeked host i (currentTimeLoop loc))) as [|e|dataUrl];
    try reflexivity.
  destruct (String.eqb dataUrl (lastDataUrl loc)); reflexivity.
Qed.

Lemma capture_loop_eq (fuel i : nat) (loc : Locals) (s : State) :
  capture_loop host start end_ interval (Datatypes.S fuel) i loc s
  = if nleb (currentTimeLoop loc) end_ then
      if stop s then (Returned loc, s)
      else
        match iteration host start end_ interval i loc s with
        | (Returned loc2, s2) =>
            capture_loop host start end_ interval fuel (Datatypes.S i) loc2 s2
        | (Threw e, s2) => (Threw e, s2)
        | (Stuck, s2) => (Stuck, s2)
        | (Unfinished, s2) => (Unfinished, s2)
        end
    else (Returned loc, s).
Proof.
  cbn [capture_loop]. unfold bind, get, ret.
  destruct (nleb (currentTimeLoop loc) end_); [|reflexivity].
  destruct (stop s); reflexivity.
Qed.

(** ** The handler around the loop *)

Lemma startAutoCapture_eq (fuel : nat) (s : State) :
  video s <> None ->
  startAutoCapture host start end_ interval fuel s
  = match capture_loop host start end_ interval fuel 0 (entry start)
            (prelude s) with
    | (Returned loc, s1) =>
        (Returned tt,
         cleanup start
           (setAutoCaptureProgress (nofZ 100)
              (setFrames (fun prev => rev (newFrames loc) ++ prev) s1)))
    | (Threw e, s1) =>
        (Returned tt,
         cleanup start (console_error ("Auto capture error: " ++ e)%string s1))
    | (Stuck, s1) => (Stuck, s1)
    | (Unfinished, s1) => (Unfinished, s1)
    end.
Proof.
  intros Hvideo. unfold startAutoCapture, bind at 1, get.
  destruct (video s) as [v|] eqn:Ev; [|contradiction].
  unfold try_catch_finally, bind, modify, ret.
  fold (prelude s). fold (entry start).
  destruct (capture_loop host start end_ interval fuel 0 (entry start) (prelude s))
    as [[loc|e| |] s1]; reflexivity.
Qed.

(** ** What the loop leaves alone *)

Lemma untouched_refl (s : State (T := T)) : untouched s s.
Proof. unfold untouched. repeat split; auto. Qed.

Lemma untouched_trans (s1 s2 s3 : State (T := T)) :
  untouched s1 s2 -> untouched s2 s3 -> untouched s1 s3.
Proof.
  unfold untouched.
  intros (a1 & a2 & a3 & a4 & a5 & a6 & a7 & a8 & a9 & a10)
         (b1 & b2 & b3 & b4 & b5 & b6 & b7 & b8 & b9 & b10).
  repeat split; try congruence; tauto.
Qed.

Lemma option_map_none {A B} (f : A -> B) (o : option A) :
  option_map f o = None <-> o = None.
Proof. destruct o; cbn; split; congruence. Qed.

Lemma iteration_untouched (i : nat) (loc : Locals) (s : State)
    (r : Outcome Locals) (s' : State) :
  iteration host start end_ interval i loc s = (r, s') -> untouched s s'.
Proof.
  rewrite iteration_eq.
  canvas_cases host i loc;
    intros [= _ <-]; unfold untouched; cbn; repeat split; auto;
    intros Hv;
    first [ apply option_map_none in Hv; exact Hv
          | apply option_map_none; exact Hv ].
Qed.

(** ** Reasoning by invariant *)

Section Invariant.
Variable Inv : nat -> Locals (T := T) -> State (T := T) -> Prop.

Hypothesis Inv_iteration :
  forall i loc s loc2 s2,
    Inv i loc s ->
    nleb (currentTimeLoop loc) end_ = true ->
    stop s = false ->
    iteration host start end_ interval i loc s = (Returned loc2, s2) ->
    Inv (Datatypes.S i) loc2 s2.

(** However the loop ends, the invariant held where it ended: at the exit
    test that let it out, or at the top of the iteration that threw. *)
Lemma capture_loop_invariant (fuel : nat) :
  forall i loc s r s',
    Inv i loc s ->
    capture_loop host start end_ interval fuel i loc s = (r, s') ->
    match r with
    | Returned loc' =>
        exists i', Inv i' loc' s'
                   /\ (nleb (currentTimeLoop loc') end_ = false \/ stop s' = true)
    | Threw e =>
        exists i' loc1 s1,
          Inv i' loc1 s1
          /\ nleb (currentTimeLoop loc1) end_ = true
          /\ stop s1 = false
          /\ iteration host start end_ interval i' loc1 s1 = (Threw e, s')
    | Stuck => False
    | Unfinished => True
    end.
Proof.
  induction fuel as [|fuel IH]; intros i loc s r s' HI Hrun.
  - cbn in Hrun. injection Hrun as <- <-. exact I.
  - rewrite capture_loop_eq in Hrun.
    destruct (nleb (currentTimeLoop loc) end_) eqn:Hle.
    + destruct (stop s) eqn:Hstop.
      * injection Hrun as <- <-. exists i. split; [exact HI | right; exact Hstop].
      * destruct (iteration host start end_ interval i loc s)
          as [[loc2|e| |] s2] eqn:Hit.
        -- apply (IH _ _ _ _ _ (Inv_iteration HI Hle Hstop Hit) Hrun).
        -- injection Hrun as <- <-. exists i, loc, s. auto.
        -- exfalso. rewrite iteration_eq in Hit.
           canvas_cases host i loc; discriminate.
        -- exfalso. rewrite iteration_eq in Hit.
           canvas_cases host i loc; discriminate.
    + injection Hrun as <- <-. exists i. split; [exact HI | left; exact Hle].
Qed.
End Invariant.

(** ** Termination *)

Lemma sample_shift (t : T) (k : nat) :
  sample (nadd t interval) interval k = sample t interval (Datatypes.S k).
Proof.
  induction k as [|k IH]; [reflexivity|].
  cbn [sample] in *. rewrite IH. reflexivity.
Qed.

Lemma iteration_advances (i : nat) (loc loc2 : Locals) (s s2 : State) :
  iteration host start end_ interval i loc s = (Returned loc2, s2) ->
  currentTimeLoop loc2 = nadd (currentTimeLoop loc) interval.
Proof.
  rewrite iteration_eq.
  canvas_cases host i loc;
    intros [= <- _]; reflexivity.
Qed.

(** Once the time of some iteration [n] is past [end_], fuel above [n] is
    enough for the loop to end. *)
Lemma capture_loop_ends (n : nat) :
  forall fuel i loc s,
    (n < fuel)%nat ->
    nleb (sample (currentTimeLoop loc) interval n) end_ = false ->
    fst (capture_loop host start end_ interval fuel i loc s) <> Unfinished.
Proof.
  induction n as [|n IH]; intros fuel i loc s Hfuel Hpast;
    (destruct fuel as [|fuel]; [lia|]); rewrite capture_loop_eq.
  - cbn [sample] in Hpast. rewrite Hpast. discriminate.
  - destruct (nleb (currentTimeLoop loc) end_); [|discriminate].
    destruct (stop s); [discriminate|].
    destruct (iteration host start end_ interval i loc s)
      as [[loc2|e| |] s2] eqn:Hit.
    + apply IH; [lia|].
      rewrite (@iteration_advances i loc loc2 s s2 Hit), sample_shift.
      exact Hpast.
    + discriminate.
    + discriminate.
    + exfalso. rewrite iteration_eq in Hit.
      canvas_cases host i loc; discriminate.
Qed.

(** ** The invariant of a run *)

Lemma StronglySorted_snoc {A} (R : A -> A -> Prop) (l : list A) (x : A) :
  StronglySorted R l -> Forall (fun y => R y x) l ->
  StronglySorted R (l ++ [x]).
Proof.
  induction l as [|a l IH]; intros Hs Hall; cbn [app].
  - constructor; constructor.
  - apply StronglySorted_inv in Hs. destruct Hs as (Hs & Ha).
    inversion Hall as [|? ? Hax Hall']; subst.
    constructor; [apply IH; assumption|].
    apply Forall_app. split; [exact Ha | constructor; [exact Hax | constructor]].
Qed.

Lemma StronglySorted_rev {A} (R : A -> A -> Prop) (l : list A) :
  StronglySorted R l -> StronglySorted (fun a b => R b a) (rev l).
Proof.
  induction 1 as [|a l Hs IH Ha]; cbn [rev]; [constructor|].
  apply StronglySorted_snoc; [exact IH|].
  apply Forall_rev. exact Ha.
Qed.

Lemma no_adjacent_equal_snoc {A} (l : list A) (x d : A) :
  Spec.no_adjacent_equal l -> (l <> [] -> last l d <> x) ->
  Spec.no_adjacent_equal (l ++ [x]).
Proof.
  induction l as [|a l IH]; intros Hl Hlast; [exact I|].
  destruct l as [|b l].
  - cbn. split; [|exact I]. intros ->. apply Hlast; [discriminate|reflexivity].
  - cbn [app Spec.no_adjacent_equal] in *. destruct Hl as (Hab & Hl).
    split; [exact Hab|]. apply IH; [exact Hl|].
    intros _. apply Hlast. discriminate.
Qed.

Section Running.
(** The component as the loop is entered. *)
Variable s0 : State (T := T).

Lemma running_entry :
  autoCaptureCount s0 = 0%nat ->
  stop s0 = false ->
  running host start end_ interval s0 0 (entry start) s0.
Proof.
  intros Hcount Hstop. unfold running, entry. cbn.
  split; [apply untouched_refl|].
  repeat split; auto.
  - intros j Hj. lia.
  - rewrite Hstop. discriminate.
  - exists []. repeat constructor.
Qed.

Lemma running_iteration (i : nat) (loc : Locals) (s : State)
    (loc2 : Locals) (s2 : State) :
  running host start end_ interval s0 i loc s ->
  nleb (currentTimeLoop loc) end_ = true ->
  stop s = false ->
  iteration host start end_ interval i loc s = (Returned loc2, s2) ->
  running host start end_ interval s0 (Datatypes.S i) loc2 s2.
Proof.
  intros (Hun & Hctl & Hcount & Hseeks & Hle & Hstop & (js & Hjs & Hlt & Htaken)
          & Hadj & Hlast) Hnow Hgo Hit.
  pose proof (@iteration_untouched i loc s _ s2 Hit) as Hun2.
  assert (Hnext : nadd (currentTimeLoop loc) interval
                  = sample start interval (Datatypes.S i))
    by (rewrite Hctl; reflexivity).
  assert (Hseeks' : (currentTimeLoop loc :: seeks s
                     = rev (map (sample start interval) (seq 0 (Datatypes.S i)))
                       ++ seeks s0)%list).
  { rewrite seq_S, map_app, rev_app_distr. cbn [map rev app Nat.add].
    rewrite Hseeks, Hctl. reflexivity. }
  assert (Hle' : forall j, (j < Datatypes.S i)%nat ->
                           nleb (sample start interval j) end_ = true).
  { intros j Hj. destruct (Nat.eq_dec j i) as [->|Hne].
    - rewrite <- Hctl. exact Hnow.
    - apply Hle. lia. }
  assert (Hstop' : (stop s || stopPressed host i = true ->
                    exists j, (j < Datatypes.S i)%nat /\ stopPressed host j = true)).
  { rewrite Hgo. cbn [orb]. intros Hp. exists i. split; [lia | exact Hp]. }
  assert (Hlt' : Forall (fun j => (j < Datatypes.S i)%nat) js).
  { eapply Forall_impl; [|exact Hlt]. cbn. intros. lia. }
  rewrite iteration_eq in Hit.
  assert (Hsame :
            (Returned (advanced interval loc (newFrames loc) (lastDataUrl loc)),
             after_frame host start end_ i loc (after_seek host i loc s))
            = (Returned loc2, s2) ->
            running host start end_ interval s0 (Datatypes.S i) loc2 s2).
  { intros [= <- <-]. unfold running. cbn.
    split; [eapply untouched_trans; [exact Hun | exact Hun2]|].
    split; [exact Hnext|]. split; [exact Hcount|]. split; [exact Hseeks'|].
    split; [exact Hle'|]. split; [exact Hstop'|].
    split; [exists js; auto|]. split; assumption. }
  destruct (canvas (shot host i loc)) as [|e|dataUrl] eqn:Hcanvas;
    [exact (Hsame Hit) | discriminate |].
  destruct (String.eqb dataUrl (lastDataUrl loc)) eqn:Heq; [exact (Hsame Hit)|].
  apply String.eqb_neq in Heq.
  injection Hit as <- <-. unfold running. cbn.
  split; [eapply untouched_trans; [exact Hun | exact Hun2]|].
  split; [exact Hnext|]. split; [reflexivity|]. split; [exact Hseeks'|].
  split; [exact Hle'|]. split; [exact Hstop'|].
  split; [|split].
  - exists (js ++ [i])%list. split; [|split].
    + apply StronglySorted_snoc; [exact Hjs | exact Hlt].
    + apply Forall_app. split; [exact Hlt' | constructor; [lia | constructor]].
    + apply Forall2_app; [exact Htaken|]. constructor; [|constructor].
      unfold taken_at, accepted, frame_of, shot in *. cbn.
      rewrite <- Hctl. split; [exact Hcanvas | reflexivity].
  - rewrite map_app. cbn [map].
    apply no_adjacent_equal_snoc with (d := ""%string); [exact Hadj|].
    intros _. rewrite <- Hlast. intros E. apply Heq. symmetry. exact E.
  - rewrite map_app. cbn [map]. rewrite last_last. reflexivity.
Qed.

(** Frames taken at increasing iterations are ordered as the decoder's times
    at those iterations are. *)
Lemma taken_in_order (fs : list (CapturedFrame T)) (js : list nat) :
  (forall i j, (i < j)%nat ->
     nleb (snapTime (seeked host i (sample start interval i)))
          (snapTime (seeked host j (sample start interval j))) = true) ->
  Forall2 (taken_at host start interval) fs js ->
  StronglySorted lt js ->
  StronglySorted (fun a b => nleb (timestamp a) (timestamp b) = true) fs.
Proof.
  intros Hmono Htaken. induction Htaken as [|f j fs js Hf Hrest IH]; intros Hjs.
  - constructor.
  - apply StronglySorted_inv in Hjs. destruct Hjs as (Hjs & Hj).
    constructor; [apply IH; exact Hjs|].
    clear IH Hjs. induction Hrest as [|g k fs js Hg Hrest IH]; constructor.
    + destruct Hf as (_ & ->). destruct Hg as (_ & ->). cbn.
      apply Hmono. inversion Hj; subst. assumption.
    + apply IH. inversion Hj; subst. assumption.
Qed.

Lemma running_constant_iteration (r : string) :
  r <> ""%string ->
  (forall i t, canvas (seeked host i t) = Encoded r) ->
  forall i loc s loc2 s2,
    running_constant host start end_ interval s0 i loc s ->
    nleb (currentTimeLoop loc) end_ = true ->
    stop s = false ->
    iteration host start end_ interval i loc s = (Returned loc2, s2) ->
    running_constant host start end_ interval s0 (Datatypes.S i) loc2 s2.
Proof.
  intros Hr Hconst i loc s loc2 s2 (Hrun & Hne) Hnow Hgo Hit.
  split; [exact (running_iteration Hrun Hnow Hgo Hit)|].
  intros _. rewrite iteration_eq in Hit. unfold shot in Hit.
  rewrite Hconst in Hit.
  destruct (String.eqb r (lastDataUrl loc)) eqn:Heq.
  - injection Hit as <- _. cbn.
    destruct (Nat.eq_dec i 0) as [->|Hpos]; [|apply Hne; lia].
    exfalso. apply String.eqb_eq in Heq.
    destruct Hrun
      as (_ & _ & _ & _ & _ & _ & (js & _ & Hlt & Htaken) & _ & Hlast).
    destruct js as [|j js]; [|inversion Hlt; lia].
    inversion Htaken as [Hnil|]; subst.
    rewrite <- Hnil in Hlast. cbn in Hlast. congruence.
  - injection Hit as <- _. cbn. intros E.
    apply (f_equal (@List.length _)) in E. rewrite length_app in E.
    cbn in E. lia.
Qed.

Lemma collecting_entry :
  autoCaptureCount s0 = 0%nat ->
  stop s0 = false ->
  collecting host start end_ interval s0 0 (entry start) s0.
Proof.
  intros Hcount Hstop. split; [apply running_entry; assumption|].
  cbn. repeat split; intros j Hj; lia.
Qed.

Lemma collecting_iteration (i : nat) (loc : Locals) (s : State)
    (loc2 : Locals) (s2 : State) :
  collecting host start end_ interval s0 i loc s ->
  nleb (currentTimeLoop loc) end_ = true ->
  stop s = false ->
  iteration host start end_ interval i loc s = (Returned loc2, s2) ->
  collecting host start end_ interval s0 (Datatypes.S i) loc2 s2.
Proof.
  intros (Hrun & Hfs & Hurl & Hset & Hclear) Hnow Hgo Hit.
  split; [exact (running_iteration Hrun Hnow Hgo Hit)|].
  assert (Hctl : currentTimeLoop loc = sample start interval i)
    by (destruct Hrun as (_ & Hctl & _); exact Hctl).
  assert (Hst : stop s2 = stopPressed host i).
  { rewrite iteration_eq in Hit.
    canvas_cases host i loc; try discriminate;
      injection Hit as _ <-; cbn; rewrite Hgo; reflexivity. }
  assert (Hclear' : forall j, (j + 1 < Datatypes.S i)%nat ->
                              stopPressed host j = false).
  { intros j Hj. destruct (stopPressed host j) eqn:Ej; [|reflexivity].
    assert (Hji : (j < i)%nat) by lia.
    rewrite (Hset j Hji Ej) in Hgo. discriminate. }
  assert (Hset' : forall j, (j < Datatypes.S i)%nat ->
                            stopPressed host j = true -> stop s2 = true).
  { intros j Hj Ej. rewrite Hst.
    destruct (Nat.eq_dec j i) as [->|Hne]; [exact Ej|].
    assert (Hji : (j + 1 < Datatypes.S i)%nat) by lia.
    rewrite (Hclear' j Hji) in Ej. discriminate. }
  rewrite iteration_eq in Hit. unfold shot in Hit. rewrite Hctl in Hit.
  cbn [accepted_before].
  destruct (accepted_before host start interval i) as [fs lastUrl] eqn:Eacc.
  cbn [fst snd] in Hfs, Hurl.
  destruct (canvas (seeked host i (sample start interval i)))
    as [|e|dataUrl] eqn:Hcanvas.
  - injection Hit as <- <-. cbn. repeat split; assumption.
  - discriminate.
  - rewrite Hurl in Hit.
    destruct (String.eqb dataUrl lastUrl) eqn:Heq; injection Hit as <- <-; cbn.
    + repeat split; assumption.
    + split; [|split; [reflexivity | split; assumption]].
      rewrite Hfs. unfold accepted, frame_of, shot. rewrite Hctl. reflexivity.
Qed.
End Running.

(** ** An iteration that throws *)

Lemma iteration_stop (i : nat) (loc loc2 : Locals) (s s2 : State) :
  iteration host start end_ interval i loc s = (Returned loc2, s2) ->
  stop s2 = stop s || stopPressed host i.
Proof.
  rewrite iteration_eq.
  canvas_cases host i loc;
    intros [= _ <-]; reflexivity.
Qed.

Lemma iteration_returns (i : nat) (loc : Locals) (s : State) :
  (forall e, canvas (shot host i loc) <> Raised e) ->
  exists loc2 s2,
    iteration host start end_ interval i loc s = (Returned loc2, s2).
Proof.
  intros Hok. rewrite iteration_eq.
  destruct (canvas (shot host i loc)) as [|e|dataUrl];
    [| exfalso; exact (Hok e eq_refl)
     | destruct (String.eqb dataUrl (lastDataUrl loc))];
    eexists; eexists; reflexivity.
Qed.

(** If the canvas of iteration [i + k] throws, and the loop gets there, the
    loop throws, having touched nothing but its own cells. *)
Lemma capture_loop_throws (e : string) (k : nat) :
  forall fuel i loc s,
    (k < fuel)%nat ->
    stop s = false ->
    (forall j, (j <= k)%nat ->
       nleb (sample (currentTimeLoop loc) interval j) end_ = true) ->
    (forall j, (j < k)%nat -> stopPressed host (i + j) = false) ->
    (forall j e', (j < k)%nat ->
       canvas (seeked host (i + j) (sample (currentTimeLoop loc) interval j))
       <> Raised e') ->
    canvas (seeked host (i + k) (sample (currentTimeLoop loc) interval k))
    = Raised e ->
    exists s',
      capture_loop host start end_ interval fuel i loc s = (Threw e, s')
      /\ untouched s s'.
Proof.
  induction k as [|k IH]; intros fuel i loc s Hfuel Hstop Hle Hpress Hok Hraise;
    (destruct fuel as [|fuel]; [lia|]); rewrite capture_loop_eq;
    assert (Hnow : nleb (currentTimeLoop loc) end_ = true)
      by (apply (Hle 0%nat); lia);
    rewrite Hnow, Hstop.
  - rewrite Nat.add_0_r in Hraise. cbn [sample] in Hraise.
    pose proof (iteration_eq i loc s) as Heq. unfold shot in Heq.
    rewrite Hraise in Heq. rewrite Heq.
    eexists. split; [reflexivity|].
    apply (@iteration_untouched i loc s (Threw e)). exact Heq.
  - destruct (@iteration_returns i loc s) as (loc2 & s2 & Hit).
    { intros e'. unfold shot. specialize (Hok 0%nat e' ltac:(lia)).
      rewrite Nat.add_0_r in Hok. exact Hok. }
    rewrite Hit.
    pose proof (@iteration_advances i loc loc2 s s2 Hit) as Hadv.
    pose proof (@iteration_stop i loc loc2 s s2 Hit) as Hst.
    assert (Hp0 : stopPressed host i = false).
    { specialize (Hpress 0%nat ltac:(lia)).
      rewrite Nat.add_0_r in Hpress. exact Hpress. }
    rewrite Hstop, Hp0 in Hst. cbn [orb] in Hst.
    destruct (IH fuel (Datatypes.S i) loc2 s2) as (s' & Hrun & Hun).
    + lia.
    + exact Hst.
    + intros j Hj. rewrite Hadv, sample_shift. apply Hle. lia.
    + intros j Hj.
      replace (Datatypes.S i + j)%nat with (i + Datatypes.S j)%nat by lia.
      apply Hpress. lia.
    + intros j e' Hj. rewrite Hadv, sample_shift.
      replace (Datatypes.S i + j)%nat with (i + Datatypes.S j)%nat by lia.
      apply Hok. lia.
    + rewrite Hadv, sample_shift.
      replace (Datatypes.S i + k)%nat with (i + Datatypes.S k)%nat by lia.
      exact Hraise.
    + exists s'. split; [exact Hrun|].
      eapply untouched_trans; [|exact Hun].
      apply (@iteration_untouched i loc s (Returned loc2)). exact Hit.
Qed.
End SchedulerFacts.

Section SchedulerRuns.
Import Types Utils App.
Context {T : Type} `{Number T}.
Variable host : CaptureHost (T := T).
Variables start end_ interval : T.

(** A loop that ends and meets no throwing canvas returns, with whatever
    invariant it was entered with. *)
Lemma capture_loop_completes
    (Inv : nat -> Locals (T := T) -> State (T := T) -> Prop) (n fuel : nat)
    (s0 : State) :
  (forall i loc s loc2 s2,
     Inv i loc s ->
     nleb (currentTimeLoop loc) end_ = true ->
     stop s = false ->
     iteration host start end_ interval i loc s = (Returned loc2, s2) ->
     Inv (Datatypes.S i) loc2 s2) ->
  Inv 0%nat (entry start) s0 ->
  (forall i t e, canvas (seeked host i t) <> Raised e) ->
  nleb (sample start interval n) end_ = false ->
  (n < fuel)%nat ->
  exists i loc s1,
    capture_loop host start end_ interval fuel 0 (entry start) s0
    = (Returned loc, s1)
    /\ Inv i loc s1
    /\ (nleb (currentTimeLoop loc) end_ = false \/ stop s1 = true).
Proof.
  intros Hstep Hentry Hok Hpast Hfuel.
  pose proof (@capture_loop_ends T _ host start end_ interval n fuel 0%nat
                (entry start) s0 Hfuel Hpast) as Hends.
  destruct (capture_loop host start end_ interval fuel 0 (entry start) s0)
    as [r s1] eqn:Hrun.
  pose proof (@capture_loop_invariant T _ host start end_ interval Inv Hstep
                fuel 0%nat (entry start) s0 r s1 Hentry Hrun) as Hinv.
  destruct r as [loc|e| |].
  - destruct Hinv as (i & Hi & Hexit). exists i, loc, s1. auto.
  - exfalso. destruct Hinv as (i & loc1 & s2 & _ & _ & _ & Hit).
    rewrite iteration_eq in Hit. unfold shot in Hit.
    destruct (canvas (seeked host i (currentTimeLoop loc1))) as [|e'|dataUrl] eqn:Hc;
      [discriminate | exact (Hok _ _ _ Hc) |].
    destruct (String.eqb dataUrl (lastDataUrl loc1)); discriminate.
  - contradiction.
  - exfalso. apply Hends. reflexivity.
Qed.

Lemma running_prelude (s : State) :
  running host start end_ interval (prelude s) 0 (entry start) (prelude s).
Proof. apply running_entry; reflexivity. Qed.

Lemma collecting_prelude (s : State) :
  collecting host start end_ interval (prelude s) 0 (entry start) (prelude s).
Proof. apply collecting_entry; reflexivity. Qed.

(** Where a loop that returned was left: at the first iteration whose time
    is past [end_] or whose predecessor was suspended when [stop] was set;
    the frames it holds are those accepted before it. *)
Lemma collecting_exit (s0 : State) (i : nat) (loc : Locals) (s1 : State) :
  collecting host start end_ interval s0 i loc s1 ->
  nleb (currentTimeLoop loc) end_ = false \/ stop s1 = true ->
  (forall j, (j < i)%nat -> nleb (sample start interval j) end_ = true)
  /\ (forall j, (j + 1 < i)%nat -> stopPressed host j = false)
  /\ (nleb (sample start interval i) end_ = false
      \/ (0 < i)%nat /\ stopPressed host (i - 1) = true).
Proof.
  intros (Hrun & _ & _ & _ & Hclear) Hexit.
  destruct Hrun as (_ & Hctl & _ & _ & Hle & Hstop & _).
  split; [exact Hle|]. split; [exact Hclear|].
  destruct Hexit as [Hout|Hstopped]; [left; rewrite <- Hctl; exact Hout|].
  right. destruct (Hstop Hstopped) as (j & Hj & Hp).
  destruct (Nat.eq_dec (j + 1) i) as [<-|Hne].
  - split; [lia|]. replace (j + 1 - 1)%nat with j by lia. exact Hp.
  - rewrite (Hclear j ltac:(lia)) in Hp. discriminate.
Qed.

End SchedulerRuns.

(* ================================================================== *)
(** * The claims on startAutoCapture *)
(* ================================================================== *)

Section SchedulerClaims.
Import Types Utils App.
Open Scope string_scope.

(** A manual capture goes in front of the store. *)
Lemma captureFrame_prepends
    (T : Type) (N : Number T) (shown : Seeked (T := T)) (uuid dataUrl : string)
    (s : State) :
  video s <> None ->
  canvas shown = Encoded dataUrl ->
  exists f,
    captureFrame shown uuid s
    = (Returned tt, setFrames (fun prev => f :: prev) s)
    /\ timestamp f = snapTime shown
    /\ originalDataUrl f = dataUrl.
Proof.
  intros Hvideo Hcanvas. unfold captureFrame, bind, get, modify.
  destruct (video s); [|contradiction]. rewrite Hcanvas.
  eexists. split; [reflexivity|]. split; reflexivity.
Qed.

(** C1, as amended: a run from a start that is a finite number, which
    ends by its exit test or by [stop], makes the iterations before the
    first one, [m], whose time is past the end or whose predecessor was
    suspended when [stop] was set.  It puts the frames
    that these iterations accepted in front of what the store held, as one
    block, in the reverse of the order of acceptance (latest accepted
    first); so when the decoder's times do not decrease from one iteration
    to the next, the block is ordered by non-increasing timestamp.  The
    running count is the size of the block. *)
Theorem startAutoCapture_prepends_batch_newest_first :
  forall (T : Type) (N : Number T) (host : CaptureHost (T := T))
         (start end_ interval : T) (n fuel : nat) (s : State),
    video s <> None ->
    isFinite start = true ->
    (forall i t e, canvas (seeked host i t) <> Raised e) ->
    nleb (sample start interval n) end_ = false ->
    (n < fuel)%nat ->
    exists m s',
      (m <= n)%nat
      /\ (forall j, (j < m)%nat -> nleb (sample start interval j) end_ = true)
      /\ (forall j, (j + 1 < m)%nat -> stopPressed host j = false)
      /\ (nleb (sample start interval m) end_ = false
          \/ (0 < m)%nat /\ stopPressed host (m - 1) = true)
      /\ startAutoCapture host start end_ interval fuel s = (Returned tt, s')
      /\ frames s'
         = (rev (fst (accepted_before host start interval m)) ++ frames s)%list
      /\ autoCaptureCount s'
         = List.length (fst (accepted_before host start interval m))
      /\ ((forall i j, (i < j)%nat ->
             nleb (snapTime (seeked host i (sample start interval i)))
                  (snapTime (seeked host j (sample start interval j))) = true) ->
          StronglySorted (fun a b => nleb (timestamp b) (timestamp a) = true)
            (rev (fst (accepted_before host start interval m)))).
Proof.
  intros T N host start end_ interval n fuel s Hvideo _ Hok Hpast Hfuel.
  destruct (@capture_loop_completes T N host start end_ interval
              (collecting host start end_ interval (prelude s)) n fuel (prelude s))
    as (i & loc & s1 & Hrun & Hinv & Hexit); try assumption.
  - intros i loc s0 loc2 s2. apply collecting_iteration.
  - apply collecting_prelude.
  - destruct (@collecting_exit T N host start end_ interval (prelude s) i loc s1
                Hinv Hexit) as (Hle & Hclear & Hwhy).
    destruct Hinv as (Hinv & Hfs & _).
    exists i. eexists.
    split.
    { destruct (Nat.le_gt_cases i n) as [Hin|Hin]; [exact Hin|].
      rewrite (Hle n Hin) in Hpast. discriminate. }
    split; [exact Hle|]. split; [exact Hclear|]. split; [exact Hwhy|].
    rewrite (@startAutoCapture_eq T N host start end_ interval fuel s Hvideo), Hrun.
    split; [reflexivity|].
    destruct Hinv
      as ((Hfr & _) & _ & Hcount & _ & _ & _ & (js & Hjs & _ & Htaken) & _).
    rewrite <- Hfs. split; [|split].
    + cbn. rewrite Hfr. reflexivity.
    + cbn. exact Hcount.
    + intros Hmono.
      pose proof (@taken_in_order T N host start interval (newFrames loc) js
                    Hmono Htaken Hjs) as Hsorted.
      apply StronglySorted_rev in Hsorted. exact Hsorted.
Qed.

(** Ten sample points, [stop] set during the third iteration. *)
Lemma startAutoCapture_prepends_batch_newest_first_witness :
  video one_capture <> None
  /\ isFinite (0 : Q) = true
  /\ (forall i t e,
        canvas (seeked (distinct_host (T := Q) (Some 2%nat)) i t) <> Raised e)
  /\ nleb (sample (0 : Q) 1 10) 9 = false
  /\ (10 < 11)%nat
  /\ exists m s',
       (m <= 10)%nat
       /\ (forall j, (j < m)%nat -> nleb (sample (0 : Q) 1 j) 9 = true)
       /\ (forall j, (j + 1 < m)%nat ->
             stopPressed (distinct_host (T := Q) (Some 2%nat)) j = false)
       /\ (nleb (sample (0 : Q) 1 m) 9 = false
           \/ (0 < m)%nat
              /\ stopPressed (distinct_host (T := Q) (Some 2%nat)) (m - 1) = true)
       /\ startAutoCapture (distinct_host (Some 2%nat)) 0 9 1 11 one_capture
          = (Returned tt, s')
       /\ frames s'
          = (rev (fst (accepted_before (distinct_host (Some 2%nat)) 0 1 m))
               ++ frames one_capture)%list
       /\ autoCaptureCount s'
          = List.length (fst (accepted_before (distinct_host (T := Q) (Some 2%nat))
                                0 1 m))
       /\ ((forall i j, (i < j)%nat ->
              nleb (snapTime (seeked (distinct_host (Some 2%nat)) i (sample 0 1 i)))
                   (snapTime (seeked (distinct_host (Some 2%nat)) j (sample 0 1 j)))
              = true) ->
           StronglySorted (fun a b => nleb (timestamp b) (timestamp a) = true)
             (rev (fst (accepted_before (distinct_host (Some 2%nat)) 0 1 m)))).
Proof.
  assert (H1 : video one_capture <> None) by discriminate.
  assert (H2 : forall i t e,
                 canvas (seeked (distinct_host (T := Q) (Some 2%nat)) i t)
                 <> Raised e)
    by (intros i t e; discriminate).
  assert (H3 : nleb (sample (0 : Q) 1 10) 9 = false) by reflexivity.
  assert (H4 : (10 < 11)%nat) by lia.
  assert (H5 : isFinite (0 : Q) = true) by reflexivity.
  split; [exact H1|]. split; [exact H5|].
  split; [exact H2|]. split; [exact H3|]. split; [exact H4|].
  exact (@startAutoCapture_prepends_batch_newest_first Q Q_Number
           (distinct_host (Some 2%nat)) 0 9 1 10%nat 11%nat one_capture
           H1 H5 H2 H3 H4).
Defined.

(** The frames that the first three iterations of that run accept, in the
    order of acceptance. *)
Example accepted_before_cancellation :
  map (@timestamp Q)
    (fst (accepted_before (distinct_host (Some 2%nat)) 0 1 3)) = [0; 1; 2]
  /\ map (@originalDataUrl Q)
       (fst (accepted_before (distinct_host (Some 2%nat)) 0 1 3))
     = ["data:image/jpeg;base64,0"; "data:image/jpeg;base64,1";
        "data:image/jpeg;base64,2"].
Proof. vm_compute. split; reflexivity. Qed.

(** That run: the three frames taken before the cancellation took effect are
    in the store, the latest first, in front of the earlier capture. *)
Example cancelled_run :
  let r := startAutoCapture (distinct_host (Some 2%nat)) 0 9 1 11 one_capture in
  fst r = Returned tt
  /\ map (@timestamp Q) (frames (snd r)) = [2; 1; 0; 100]
  /\ option_map (@currentTime Q) (video (snd r)) = Some 0
  /\ isAutoCapturing (snd r) = false.
Proof. vm_compute. repeat split. Qed.

(** C1, as stated, fails: the block of a run over the seconds 0, 1, 2 sits in
    front of the earlier capture, but it starts with the frame of second 2
    and ends with that of second 0; its timestamps decrease. *)
Lemma batch_not_chronological_counterexample :
  let r := startAutoCapture (distinct_host None) 0 2 1 10 one_capture in
  fst r = Returned tt
  /\ map (@timestamp Q) (frames (snd r)) = [2; 1; 0; 100]
  /\ map (@originalDataUrl Q) (frames (snd r))
     = ["data:image/jpeg;base64,2"; "data:image/jpeg;base64,1";
        "data:image/jpeg;base64,0"; "data:image/jpeg;base64,/9j/"]
  /\ nleb (2 : Q) 1 = false.
Proof. vm_compute. repeat split. Qed.

(** Whatever the host does, a run that ends merges a block without equal
    neighbours (the empty block when an iteration threw). *)
Lemma merged_block_without_equal_neighbours
    (T : Type) (N : Number T) (host : CaptureHost (T := T))
    (start end_ interval : T) (n fuel : nat) (s : State) :
  video s <> None ->
  nleb (sample start interval n) end_ = false ->
  (n < fuel)%nat ->
  exists batch s',
    startAutoCapture host start end_ interval fuel s = (Returned tt, s')
    /\ frames s' = (rev batch ++ frames s)%list
    /\ Spec.no_adjacent_equal (map (@originalDataUrl T) batch).
Proof.
  intros Hvideo Hpast Hfuel.
  pose proof (@capture_loop_ends T N host start end_ interval n fuel 0%nat
                (entry start) (prelude s) Hfuel Hpast) as Hends.
  rewrite (@startAutoCapture_eq T N host start end_ interval fuel s Hvideo).
  destruct (capture_loop host start end_ interval fuel 0 (entry start) (prelude s))
    as [r s1] eqn:Hrun.
  pose proof (@capture_loop_invariant T N host start end_ interval
                (running host start end_ interval (prelude s))
                (fun i loc s0 loc2 s2 => @running_iteration T N host start end_
                                           interval (prelude s) i loc s0 loc2 s2)
                fuel 0%nat (entry start) (prelude s) r s1
                (running_prelude host start end_ interval s) Hrun) as Hinv.
  destruct r as [loc|e| |].
  - destruct Hinv as (i & ((Hfr & _) & _ & _ & _ & _ & _ & _ & Hadj & _) & _).
    exists (newFrames loc). eexists. split; [reflexivity|]. split.
    + cbn. rewrite Hfr. reflexivity.
    + exact Hadj.
  - destruct Hinv as (i & loc1 & s2 & ((Hfr & _) & _) & _ & _ & Hit).
    apply iteration_untouched in Hit. destruct Hit as (Hfr2 & _).
    exists []. eexists. split; [reflexivity|]. split; [|exact I].
    cbn. rewrite Hfr2, Hfr. reflexivity.
  - contradiction.
  - exfalso. apply Hends. reflexivity.
Qed.

(** A decoder whose canvas always encodes to the same data URL: the run
    accepts the frame of its first iteration and no other. *)
Lemma constant_raster_single_frame
    (T : Type) (N : Number T) (host : CaptureHost (T := T))
    (start end_ interval : T) (n fuel : nat) (s : State) (r : string) :
  video s <> None ->
  nleb (sample start interval n) end_ = false ->
  (n < fuel)%nat ->
  r <> "" ->
  nleb start end_ = true ->
  (forall i t, canvas (seeked host i t) = Encoded r) ->
  exists f s',
    startAutoCapture host start end_ interval fuel s = (Returned tt, s')
    /\ frames s' = f :: frames s
    /\ originalDataUrl f = r
    /\ autoCaptureCount s' = 1%nat.
Proof.
  intros Hvideo Hpast Hfuel Hr Hrange Hconst.
  destruct (@capture_loop_completes T N host start end_ interval
              (running_constant host start end_ interval (prelude s))
              n fuel (prelude s))
    as (i & loc & s1 & Hrun & (Hinv & Hne) & Hexit); try assumption.
  - apply running_constant_iteration with (r := r); assumption.
  - split; [apply running_prelude | intros Hlt; inversion Hlt].
  - intros i t e. rewrite Hconst. discriminate.
  - rewrite (@startAutoCapture_eq T N host start end_ interval fuel s Hvideo), Hrun.
    destruct Hinv as ((Hfr & _) & Hctl & Hcount & _ & _ & Hstop
                      & (js & _ & _ & Htaken) & Hadj & _).
    assert (Hpos : (0 < i)%nat).
    { destruct i as [|i]; [|lia]. exfalso. destruct Hexit as [Hout|Hstopped].
      - rewrite Hctl in Hout. cbn in Hout. congruence.
      - destruct (Hstop Hstopped) as (j & Hj & _). inversion Hj. }
    assert (Hurls : Forall (fun f => originalDataUrl f = r) (newFrames loc)).
    { clear - Htaken Hconst. induction Htaken as [|f j fs js (Hc & _) _ IH];
        constructor; [|exact IH].
      rewrite Hconst in Hc. injection Hc as ->. reflexivity. }
    destruct (newFrames loc) as [|f [|g fs]] eqn:Hfs.
    + exfalso. exact (Hne Hpos eq_refl).
    + exists f. eexists. split; [reflexivity|].
      split; [cbn; rewrite Hfr; reflexivity|].
      split; [inversion Hurls; assumption|].
      cbn. exact Hcount.
    + exfalso. cbn in Hadj. destruct Hadj as (Hfg & _).
      inversion Hurls as [|? ? Hf Hrest]; subst.
      inversion Hrest as [|? ? Hg _]; subst. congruence.
Qed.

(** C2: the block that a run merges has no two neighbours with the same
    comparison signature (the data URL of the canvas re-encoded at quality
    0.90, which the frame keeps); and when the decoder shows the same raster
    at every step, the block is a single frame, however many sample points
    the range holds. *)
Theorem startAutoCapture_no_adjacent_duplicates :
  forall (T : Type) (N : Number T) (host : CaptureHost (T := T))
         (start end_ interval : T) (n fuel : nat) (s : State),
    video s <> None ->
    nleb (sample start interval n) end_ = false ->
    (n < fuel)%nat ->
    exists batch s',
      startAutoCapture host start end_ interval fuel s = (Returned tt, s')
      /\ frames s' = (rev batch ++ frames s)%list
      /\ Spec.no_adjacent_equal (map (@originalDataUrl T) batch)
      /\ (forall r,
            r <> "" ->
            nleb start end_ = true ->
            (forall i t, canvas (seeked host i t) = Encoded r) ->
            exists f, batch = [f] /\ originalDataUrl f = r).
Proof.
  intros T N host start end_ interval n fuel s Hvideo Hpast Hfuel.
  destruct (@merged_block_without_equal_neighbours T N host start end_ interval
              n fuel s Hvideo Hpast Hfuel) as (batch & s' & Hrun & Hfr & Hadj).
  exists batch, s'. repeat (split; [assumption|]).
  intros r Hr Hrange Hconst.
  destruct (@constant_raster_single_frame T N host start end_ interval n fuel s r
              Hvideo Hpast Hfuel Hr Hrange Hconst)
    as (f & s'' & Hrun' & Hfr' & Hurl & _).
  rewrite Hrun in Hrun'. injection Hrun' as <-.
  exists f. split; [|exact Hurl].
  rewrite Hfr in Hfr'. change (f :: frames s) with ([f] ++ frames s)%list in Hfr'.
  apply app_inv_tail in Hfr'.
  apply (f_equal (@rev _)) in Hfr'. rewrite rev_involutive in Hfr'. exact Hfr'.
Qed.

Lemma startAutoCapture_no_adjacent_duplicates_witness :
  video one_capture <> None
  /\ nleb (sample (0 : Q) (1 # 30) 31) 1 = false
  /\ (31 < 40)%nat
  /\ exists batch s',
       startAutoCapture frozen_host 0 1 (1 # 30) 40 one_capture = (Returned tt, s')
       /\ frames s' = (rev batch ++ frames one_capture)%list
       /\ Spec.no_adjacent_equal (map (@originalDataUrl Q) batch)
       /\ (forall r,
             r <> "" ->
             nleb (0 : Q) 1 = true ->
             (forall i t, canvas (seeked frozen_host i t) = Encoded r) ->
             exists f, batch = [f] /\ originalDataUrl f = r).
Proof.
  assert (H1 : video one_capture <> None) by discriminate.
  assert (H2 : nleb (sample (0 : Q) (1 # 30) 31) 1 = false)
    by (vm_compute; reflexivity).
  assert (H3 : (31 < 40)%nat) by lia.
  split; [exact H1|]. split; [exact H2|]. split; [exact H3|].
  exact (@startAutoCapture_no_adjacent_duplicates Q Q_Number frozen_host
           0 1 (1 # 30) 31%nat 40%nat one_capture H1 H2 H3).
Defined.

(** That run, over 31 sample points: one frame, the one of second 0. *)
Example frozen_run :
  let r := startAutoCapture frozen_host 0 1 (1 # 30) 40 one_capture in
  fst r = Returned tt
  /\ List.length (seeks (snd r)) = 31%nat
  /\ map (@timestamp Q) (frames (snd r)) = [0; 100]
  /\ autoCaptureCount (snd r) = 1%nat.
Proof. vm_compute. repeat split. Qed.

(** C5, as amended: when the canvas of an iteration that the loop reaches
    throws, the loop is left, the frames accepted so far are dropped (the
    store is as it was), the error goes to the console and the handler
    returns normally; the position is set back to [start] and the running
    state and the modal are cleared. *)
Theorem startAutoCapture_error_discards_batch :
  forall (T : Type) (N : Number T) (host : CaptureHost (T := T))
         (start end_ interval : T) (k fuel : nat) (s : State) (e : string),
    video s <> None ->
    (forall j, (j <= k)%nat -> nleb (sample start interval j) end_ = true) ->
    (forall j, (j < k)%nat -> stopPressed host j = false) ->
    (forall j e', (j < k)%nat ->
       canvas (seeked host j (sample start interval j)) <> Raised e') ->
    canvas (seeked host k (sample start interval k)) = Raised e ->
    (k < fuel)%nat ->
    exists s',
      startAutoCapture host start end_ interval fuel s = (Returned tt, s')
      /\ frames s' = frames s
      /\ console s' = ("Auto capture error: " ++ e) :: console s
      /\ alerts s' = alerts s
      /\ isAutoCapturing s' = false
      /\ isAutoCaptureModalOpen s' = false
      /\ option_map (@currentTime T) (video s') = Some start.
Proof.
  intros T N host start end_ interval k fuel s e Hvideo Hle Hpress Hok Hraise Hfuel.
  destruct (@capture_loop_throws T N host start end_ interval e k fuel 0%nat
              (entry start) (prelude s) Hfuel eq_refl Hle Hpress Hok Hraise)
    as (s1 & Hrun & Hun).
  rewrite (@startAutoCapture_eq T N host start end_ interval fuel s Hvideo), Hrun.
  destruct Hun as (Hfr & _ & _ & _ & _ & _ & Hco & Hal & _ & Hvid).
  eexists. split; [reflexivity|]. cbn.
  rewrite Hfr, Hco, Hal. cbn.
  repeat (split; [reflexivity|]).
  destruct (video s1) as [v1|] eqn:Ev1; [reflexivity|].
  exfalso. apply Hvideo.
  assert (Hnone : video (prelude s) = None) by (apply Hvid; reflexivity).
  cbn in Hnone. destruct (video s); [discriminate | reflexivity].
Qed.

Lemma startAutoCapture_error_discards_batch_witness :
  video one_capture <> None
  /\ (forall j, (j <= 2)%nat -> nleb (sample (0 : Q) 1 j) 9 = true)
  /\ (forall j, (j < 2)%nat -> stopPressed (faulty_host 2) j = false)
  /\ (forall j e', (j < 2)%nat ->
        canvas (seeked (faulty_host 2) j (sample 0 1 j)) <> Raised e')
  /\ canvas (seeked (faulty_host 2) 2 (sample 0 1 2)) = Raised "SecurityError"
  /\ (2 < 11)%nat
  /\ exists s',
       startAutoCapture (faulty_host 2) 0 9 1 11 one_capture = (Returned tt, s')
       /\ frames s' = frames one_capture
       /\ console s'
          = ("Auto capture error: " ++ "SecurityError") :: console one_capture
       /\ alerts s' = alerts one_capture
       /\ isAutoCapturing s' = false
       /\ isAutoCaptureModalOpen s' = false
       /\ option_map (@currentTime Q) (video s') = Some 0.
Proof.
  assert (H1 : video one_capture <> None) by discriminate.
  assert (H2 : forall j, (j <= 2)%nat -> nleb (sample (0 : Q) 1 j) 9 = true).
  { intros j Hj. destruct j as [|[|[|j]]]; try reflexivity. lia. }
  assert (H3 : forall j, (j < 2)%nat -> stopPressed (faulty_host 2) j = false)
    by reflexivity.
  assert (H4 : forall j e', (j < 2)%nat ->
                 canvas (seeked (faulty_host 2) j (sample 0 1 j)) <> Raised e').
  { intros j e' Hj. destruct j as [|[|j]]; try discriminate. lia. }
  assert (H5 : canvas (seeked (faulty_host 2) 2 (sample 0 1 2))
               = Raised "SecurityError")
    by reflexivity.
  assert (H6 : (2 < 11)%nat) by lia.
  split; [exact H1|]. split; [exact H2|]. split; [exact H3|].
  split; [exact H4|]. split; [exact H5|]. split; [exact H6|].
  exact (@startAutoCapture_error_discards_batch Q Q_Number (faulty_host 2)
           0 9 1 2%nat 11%nat one_capture "SecurityError" H1 H2 H3 H4 H5 H6).
Defined.

(** C5, as stated, fails: two frames had been accepted when the third
    iteration threw (the running count says so), yet the store holds only the
    earlier capture, and the handler returned normally, the error being
    written to the console. *)
Lemma error_loses_batch_counterexample :
  let r := startAutoCapture (faulty_host 2) 0 9 1 11 one_capture in
  fst r = Returned tt
  /\ autoCaptureCount (snd r) = 2%nat
  /\ frames (snd r) = frames one_capture
  /\ console (snd r) = ["Auto capture error: SecurityError"]
  /\ alerts (snd r) = [].
Proof. vm_compute. repeat split. Qed.

(** ** The number of sample points *)

(** Whatever the arithmetic, a run that is neither cancelled nor interrupted
    seeks to the times of the iterations before the first one whose time is
    past [end_], in turn. *)
Lemma startAutoCapture_visits_samples
    (T : Type) (N : Number T) (host : CaptureHost (T := T))
    (start end_ interval : T) (n fuel : nat) (s : State) :
  video s <> None ->
  (forall i t e, canvas (seeked host i t) <> Raised e) ->
  (forall i, stopPressed host i = false) ->
  (forall j, (j < n)%nat -> nleb (sample start interval j) end_ = true) ->
  nleb (sample start interval n) end_ = false ->
  (n < fuel)%nat ->
  exists s',
    startAutoCapture host start end_ interval fuel s = (Returned tt, s')
    /\ seeks s' = (rev (map (sample start interval) (seq 0 n)) ++ seeks s)%list.
Proof.
  intros Hvideo Hok Hpress Hin Hpast Hfuel.
  destruct (@capture_loop_completes T N host start end_ interval
              (running host start end_ interval (prelude s)) n fuel (prelude s))
    as (i & loc & s1 & Hrun & Hinv & Hexit); try assumption.
  - intros i loc s0 loc2 s2. apply running_iteration.
  - apply running_prelude.
  - rewrite (@startAutoCapture_eq T N host start end_ interval fuel s Hvideo),
      Hrun.
    destruct Hinv as (_ & Hctl & _ & Hseeks & Hle & Hstop & _).
    assert (Hout : nleb (sample start interval i) end_ = false).
    { destruct Hexit as [Hout|Hstopped]; [rewrite <- Hctl; exact Hout|].
      destruct (Hstop Hstopped) as (j & _ & Hj). rewrite Hpress in Hj.
      discriminate. }
    assert (Hi : i = n).
    { destruct (Nat.lt_trichotomy i n) as [Hlt|[Heq|Hgt]]; [|exact Heq|].
      - rewrite (Hin i Hlt) in Hout. discriminate.
      - rewrite (Hle n Hgt) in Hpast. discriminate. }
    subst i. eexists. split; [reflexivity|]. exact Hseeks.
Qed.

(** In exact arithmetic the time of iteration [k] is [start + k * interval]. *)
Lemma sample_exact (start interval : Q) (k : nat) :
  sample start interval k == start + inject_Z (Z.of_nat k) * interval.
Proof.
  induction k as [|k IH].
  - cbn. ring.
  - cbn [sample nadd Q_Number]. rewrite IH, Nat2Z.inj_succ.
    unfold Z.succ. rewrite inject_Z_plus. ring.
Qed.

(** The iterations whose time is within the range are those up to
    [floor((end - start) / interval)]. *)
Lemma sample_within_range (start end_ interval : Q) (k : nat) :
  0 < interval ->
  start <= end_ ->
  nleb (sample start interval k) end_ = true
  <-> (k <= Z.to_nat (Qfloor ((end_ - start) / interval)))%nat.
Proof.
  intros Hint Hrange. cbn [nleb Q_Number].
  rewrite Qle_bool_iff, sample_exact.
  set (x := (end_ - start) / interval).
  assert (Hx : 0 <= x).
  { unfold x. apply Qle_shift_div_l; [exact Hint|].
    rewrite Qmult_0_l. unfold Qminus. rewrite <- Qle_minus_iff. exact Hrange. }
  assert (Hfloor : (0 <= Qfloor x)%Z).
  { change 0%Z with (Qfloor 0). apply Qfloor_resp_le. exact Hx. }
  assert (Hiff : start + inject_Z (Z.of_nat k) * interval <= end_
                 <-> inject_Z (Z.of_nat k) <= x).
  { unfold x. split; intros Hk.
    - apply Qle_shift_div_l; [exact Hint|].
      apply Qplus_le_l with (z := start). ring_simplify.
      setoid_replace (inject_Z (Z.of_nat k) * interval + start)
        with (start + inject_Z (Z.of_nat k) * interval) by ring.
      exact Hk.
    - assert (Hm : inject_Z (Z.of_nat k) * interval <= end_ - start).
      { apply Qle_trans with ((end_ - start) / interval * interval).
        - apply Qmult_le_compat_r; [exact Hk | apply Qlt_le_weak; exact Hint].
        - unfold Qdiv. rewrite <- Qmult_assoc.
          rewrite (Qmult_comm (/ interval)), Qmult_inv_r, Qmult_1_r.
          + apply Qle_refl.
          + intros E. rewrite E in Hint. apply (Qlt_irrefl 0). exact Hint. }
      apply Qplus_le_r with (z := start) in Hm.
      setoid_replace (start + (end_ - start)) with end_ in Hm by ring.
      exact Hm. }
  rewrite Hiff. split; intros Hk.
  - apply Qfloor_resp_le in Hk. rewrite Qfloor_Z in Hk. lia.
  - apply Qle_trans with (inject_Z (Qfloor x)); [|apply Qfloor_le].
    rewrite <- Zle_Qle. lia.
Qed.

(** So in exact arithmetic the loop condition fails at iteration
    [floor((end - start) / interval) + 1], whatever the positive interval. *)
Lemma sample_past_range (start end_ interval : Q) :
  0 < interval ->
  start <= end_ ->
  nleb (sample start interval
          (Z.to_nat (Qfloor ((end_ - start) / interval)) + 1)) end_
  = false.
Proof.
  intros Hint Hrange.
  destruct (nleb (sample start interval
                    (Z.to_nat (Qfloor ((end_ - start) / interval)) + 1)) end_)
    eqn:E; [|reflexivity].
  apply (@sample_within_range start end_ interval _ Hint Hrange) in E. lia.
Qed.

(** C3, as amended.  Whatever the arithmetic, a run from a start that is a
    finite number, neither cancelled nor interrupted by an error, seeks once
    to each value of the
    running sum [currentTimeLoop] (the times [start], [start + interval],
    [(start + interval) + interval], ..., each addition rounded as the
    arithmetic rounds it) before the first one that is not [<= end], in
    turn, and to nothing else.  In exact arithmetic, for
    [0 <= start <= end <= duration] and [interval > 0], these are
    [floor((end - start) / interval) + 1] times, the times
    [start + k * interval]. *)
Theorem startAutoCapture_visits_running_sums :
  (forall (T : Type) (N : Number T) (host : CaptureHost (T := T))
          (start end_ interval : T) (n fuel : nat) (s : State),
      video s <> None ->
      isFinite start = true ->
      (forall i t e, canvas (seeked host i t) <> Raised e) ->
      (forall i, stopPressed host i = false) ->
      (forall j, (j < n)%nat -> nleb (sample start interval j) end_ = true) ->
      nleb (sample start interval n) end_ = false ->
      (n < fuel)%nat ->
      exists s',
        startAutoCapture host start end_ interval fuel s = (Returned tt, s')
        /\ seeks s'
           = (rev (map (sample start interval) (seq 0 n)) ++ seeks s)%list
        /\ List.length (seeks s') = (n + List.length (seeks s))%nat)
  /\ (forall (host : CaptureHost (T := Q)) (start end_ duration interval : Q)
             (fuel : nat) (s : State),
        video s <> None ->
        0 <= start -> start <= end_ -> end_ <= duration -> 0 < interval ->
        (forall i t e, canvas (seeked host i t) <> Raised e) ->
        (forall i, stopPressed host i = false) ->
        (Z.to_nat (Qfloor ((end_ - start) / interval)) + 1 < fuel)%nat ->
        exists s',
          startAutoCapture host start end_ interval fuel s = (Returned tt, s')
          /\ seeks s'
             = (rev (map (sample start interval)
                       (seq 0 (Z.to_nat (Qfloor ((end_ - start) / interval)) + 1)))
                ++ seeks s)%list
          /\ List.length (seeks s')
             = (Z.to_nat (Qfloor ((end_ - start) / interval)) + 1
                + List.length (seeks s))%nat
          /\ forall k, sample start interval k
                       == start + inject_Z (Z.of_nat k) * interval).
Proof.
  split.
  - intros T N host start end_ interval n fuel s Hvideo _ Hok Hpress Hin Hpast
           Hfuel.
    destruct (@startAutoCapture_visits_samples T N host start end_ interval
                n fuel s Hvideo Hok Hpress Hin Hpast Hfuel)
      as (s' & Hrun & Hseeks).
    exists s'. split; [exact Hrun|]. split; [exact Hseeks|].
    rewrite Hseeks, length_app, length_rev, length_map, length_seq.
    reflexivity.
  - intros host start end_ duration interval fuel s Hvideo _ Hrange _ Hint
           Hok Hpress Hfuel.
    set (N := Z.to_nat (Qfloor ((end_ - start) / interval))) in *.
    destruct (@startAutoCapture_visits_samples Q Q_Number host start end_ interval
                (N + 1)%nat fuel s Hvideo Hok Hpress)
      as (s' & Hrun & Hseeks).
    + intros j Hj.
      apply (@sample_within_range start end_ interval j Hint Hrange).
      fold N. lia.
    + apply sample_past_range; assumption.
    + exact Hfuel.
    + exists s'. split; [exact Hrun|]. split; [exact Hseeks|].
      split; [|apply sample_exact].
      rewrite Hseeks, length_app, length_rev, length_map, length_seq.
      reflexivity.
Qed.

(** In binary64, the run over 0 .. 0.6 in steps of 0.1; in exact arithmetic,
    the run over 0 .. 6/10 in steps of 1/10. *)
Lemma startAutoCapture_visits_running_sums_witness :
  (video binary64_idle <> None
   /\ isFinite 0%float = true
   /\ (forall i t e,
         canvas (seeked (distinct_host (T := float) None) i t) <> Raised e)
   /\ (forall i, stopPressed (distinct_host (T := float) None) i = false)
   /\ (forall j, (j < 7)%nat ->
         nleb (sample 0%float 0.1%float j) 0.6%float = true)
   /\ nleb (sample 0%float 0.1%float 7) 0.6%float = false
   /\ (7 < 100)%nat
   /\ exists s',
        startAutoCapture (distinct_host None) 0%float 0.6%float 0.1%float 100
          binary64_idle
        = (Returned tt, s')
        /\ seeks s'
           = (rev (map (sample 0%float 0.1%float) (seq 0 7))
                ++ seeks binary64_idle)%list
        /\ List.length (seeks s') = (7 + List.length (seeks binary64_idle))%nat)
  /\ (video one_capture <> None
      /\ 0 <= 0 /\ 0 <= 6 # 10 /\ 6 # 10 <= 100 /\ 0 < 1 # 10
      /\ (forall i t e,
            canvas (seeked (distinct_host (T := Q) None) i t) <> Raised e)
      /\ (forall i, stopPressed (distinct_host (T := Q) None) i = false)
      /\ (Z.to_nat (Qfloor (((6 # 10) - 0) / (1 # 10))) + 1 < 20)%nat
      /\ exists s',
           startAutoCapture (distinct_host None) 0 (6 # 10) (1 # 10) 20
             one_capture
           = (Returned tt, s')
           /\ seeks s'
              = (rev (map (sample 0 (1 # 10))
                        (seq 0 (Z.to_nat (Qfloor (((6 # 10) - 0) / (1 # 10)))
                                + 1)))
                 ++ seeks one_capture)%list
           /\ List.length (seeks s')
              = (Z.to_nat (Qfloor (((6 # 10) - 0) / (1 # 10))) + 1
                 + List.length (seeks one_capture))%nat
           /\ forall k, sample 0 (1 # 10) k
                        == 0 + inject_Z (Z.of_nat k) * (1 # 10)).
Proof.
  assert (F1 : video binary64_idle <> None) by discriminate.
  assert (F2 : forall i t e,
                 canvas (seeked (distinct_host (T := float) None) i t)
                 <> Raised e)
    by (intros i t e; discriminate).
  assert (F3 : forall i, stopPressed (distinct_host (T := float) None) i = false)
    by reflexivity.
  assert (F4 : forall j, (j < 7)%nat ->
                 nleb (sample 0%float 0.1%float j) 0.6%float = true).
  { intros j Hj.
    destruct j as [|[|[|[|[|[|[|j]]]]]]]; try (vm_compute; reflexivity). lia. }
  assert (F5 : nleb (sample 0%float 0.1%float 7) 0.6%float = false)
    by (vm_compute; reflexivity).
  assert (F6 : (7 < 100)%nat) by lia.
  assert (F7 : isFinite 0%float = true) by (vm_compute; reflexivity).
  assert (H1 : video one_capture <> None) by discriminate.
  assert (H2 : 0 <= 0) by discriminate.
  assert (H3 : 0 <= 6 # 10) by discriminate.
  assert (H4 : 6 # 10 <= 100) by discriminate.
  assert (H5 : 0 < 1 # 10) by reflexivity.
  assert (H6 : forall i t e,
                 canvas (seeked (distinct_host (T := Q) None) i t) <> Raised e)
    by (intros i t e; discriminate).
  assert (H7 : forall i, stopPressed (distinct_host (T := Q) None) i = false)
    by reflexivity.
  assert (H8 : (Z.to_nat (Qfloor (((6 # 10) - 0) / (1 # 10))) + 1 < 20)%nat)
    by (vm_compute; lia).
  split.
  - split; [exact F1|]. split; [exact F7|].
    split; [exact F2|]. split; [exact F3|].
    split; [exact F4|]. split; [exact F5|]. split; [exact F6|].
    exact (proj1 startAutoCapture_visits_running_sums float float_Number
             (distinct_host None) 0%float 0.6%float 0.1%float 7%nat 100%nat
             binary64_idle F1 F7 F2 F3 F4 F5 F6).
  - split; [exact H1|]. split; [exact H2|]. split; [exact H3|].
    split; [exact H4|]. split; [exact H5|]. split; [exact H6|].
    split; [exact H7|]. split; [exact H8|].
    exact (proj2 startAutoCapture_visits_running_sums (distinct_host None)
             0 (6 # 10) 100 (1 # 10) 20%nat one_capture
             H1 H2 H3 H4 H5 H6 H7 H8).
Defined.

(** C3, as stated, fails in the arithmetic the code runs in, where
    [currentTimeLoop += interval] rounds at every step.  The decimal literals
    below stand for the binary64 numbers nearest to them, as they do in
    JavaScript.
    - With start 0, end 0.6 and interval 0.1 the seventh time is 0.6 itself
      and the loop seeks 7 times, while [floor((end - start) / interval) + 1]
      is 6, both as JavaScript computes it (0.6 / 0.1 is 5.999999999999999;
      it is the number that the modal shows) and on the exact values of
      these numbers.
    - With start 0, end 0.3 and interval 0.1 the fourth time is
      0.30000000000000004 and the loop seeks 3 times, while the formula on the
      decimal numbers 0.3 and 0.1 gives 4.
    - With the interval [1 / 30] that the modal opens with, over 0 .. 2 the
      loop seeks 60 times, while the formula, as JavaScript computes it,
      is 61. *)
Lemma binary64_visits_counterexample :
  let run (end_ interval : float) :=
    startAutoCapture (distinct_host None) 0%float end_ interval 100
      binary64_idle in
  nleb (nofZ 0) 0%float = true
  /\ nleb 0%float 0.6%float = true
  /\ nleb 0%float 0.3%float = true
  /\ nltb (nofZ 0) 0.1%float = true
  /\ fst (run 0.6 0.1)%float = Returned tt
  /\ List.length (seeks (snd (run 0.6 0.1)%float)) = 7%nat
  /\ Modal.estimatedScans 0%float 0.6%float 0.1%float = 6%float
  /\ (Z.to_nat
        (Qfloor ((float_to_Q 0.6 - float_to_Q 0) / float_to_Q 0.1)) + 1
      = 6)%nat
  /\ fst (run 0.3 0.1)%float = Returned tt
  /\ List.length (seeks (snd (run 0.3 0.1)%float)) = 3%nat
  /\ (Z.to_nat (Qfloor (((3 # 10) - 0) / (1 # 10))) + 1 = 4)%nat
  /\ fst (run 2 (ndiv (nofZ 1) (nofZ 30)))%float = Returned tt
  /\ List.length (seeks (snd (run 2 (ndiv (nofZ 1) (nofZ 30)))%float))
     = 60%nat
  /\ Modal.estimatedScans 0%float 2%float (ndiv (nofZ 1) (nofZ 30))
     = 61%float.
Proof. vm_compute. repeat split. Qed.
End SchedulerClaims.

(* ================================================================== *)
(** * Further properties of utils.ts: formatTime *)
(* ================================================================== *)

Section ExactArithmetic.

Lemma Qle_bool_false (a b : Q) : Qle_bool a b = false <-> b < a.
Proof.
  split.
  - intros E. apply Qnot_le_lt. intros Hle.
    apply Qle_bool_iff in Hle. congruence.
  - intros Hlt. destruct (Qle_bool a b) eqn:E; [|reflexivity].
    apply Qle_bool_iff in E. exfalso.
    apply (Qlt_irrefl b). apply Qlt_le_trans with a; assumption.
Qed.

Lemma nltb_Q_true (a b : Q) : nltb a b = true <-> a < b.
Proof.
  cbn [nltb Q_Number]. rewrite negb_true_iff. apply Qle_bool_false.
Qed.

Lemma Qfloor_nonneg (x : Q) : 0 <= x -> (0 <= Qfloor x)%Z.
Proof. intros H. change 0%Z with (Qfloor 0). apply Qfloor_resp_le. exact H. Qed.

(** No rational number is NaN or infinite. *)
Lemma isNaN_Q (q : Q) : isNaN q = false.
Proof.
  unfold isNaN. cbn [nleb Q_Number].
  assert (E : Qle_bool q q = true) by (apply Qle_bool_iff, Qle_refl).
  rewrite E. reflexivity.
Qed.

Lemma isFinite_Q (q : Q) : isFinite q = true.
Proof. unfold isFinite. rewrite isNaN_Q. reflexivity. Qed.

Lemma Math_min_Q (a b : Q) :
  Math_min a b = if negb (Qle_bool a b) then b else a.
Proof. unfold Math_min. rewrite !isNaN_Q. reflexivity. Qed.

Lemma Math_max_Q (a b : Q) :
  Math_max a b = if negb (Qle_bool b a) then b else a.
Proof. unfold Math_max. rewrite !isNaN_Q. reflexivity. Qed.
End ExactArithmetic.

Section TimeFacts.
Import Types Utils Spec.
Open Scope string_scope.

(** A zero-padded decimal field. *)
Lemma padStart_field (k n : nat) :
  String.length (JS.padStart k "0" (JS.String_of_nat n))
  = Nat.max k (digitCount n)
  /\ decimal_value (JS.padStart k "0" (JS.String_of_nat n)) = Some n.
Proof.
  destruct (String_of_nat_spec n) as (d & Hd & Hlen & Hparse).
  assert (Hcount : digitCount n = d)
    by (apply (@digitCount_is_unique n); [apply digitCount_spec | exact Hd]).
  rewrite Hcount. unfold JS.padStart. rewrite Hlen. split.
  - rewrite length_append, length_repeat_char, Hlen. lia.
  - set (field := JS.repeat_char "0" (k - d) ++ JS.String_of_nat n).
    assert (Hval : parse_digits field 0 = Some n)
      by (unfold field; rewrite parse_digits_zeros; exact Hparse).
    unfold decimal_value.
    destruct field as [|c s] eqn:E; [|exact Hval].
    apply (f_equal String.length) in E. unfold field in E.
    rewrite length_append, length_repeat_char, Hlen in E.
    destruct Hd as (Hd1 & _). simpl in E. lia.
Qed.

Lemma String_of_nat_field (n : nat) :
  String.length (JS.String_of_nat n) = digitCount n
  /\ decimal_value (JS.String_of_nat n) = Some n.
Proof.
  pose proof (padStart_field 0 n) as H.
  unfold JS.padStart in H. cbn [Nat.sub JS.repeat_char append] in H.
  rewrite Nat.max_0_l in H. exact H.
Qed.

Lemma digitCount_below (d n : nat) :
  (1 <= d)%nat -> (n < 10 ^ d)%nat -> (digitCount n <= d)%nat.
Proof.
  intros Hd Hn. destruct (digitCount_spec n) as (_ & _ & [->|Hge]); [exact Hd|].
  destruct (Nat.le_gt_cases (digitCount n) d) as [Hle|Hgt]; [exact Hle|].
  exfalso.
  assert (10 ^ d <= 10 ^ (digitCount n - 1))%nat
    by (apply Nat.pow_le_mono_r; lia).
  lia.
Qed.

(** The time value of a date made from a non-negative number of
    milliseconds within the range of dates. *)
Lemma Date_of_nonnegative (x : Q) :
  0 <= x -> x <= 8640000000000000 ->
  Date.of_number x = Some (Qfloor x).
Proof.
  intros H0 Hmax. unfold Date.of_number, ngtb, Math_abs.
  rewrite isNaN_Q. cbn [nleb nltb nofZ Q_Number].
  assert (H0' : Qle_bool (inject_Z 0) x = true) by (apply Qle_bool_iff; exact H0).
  assert (Hm' : Qle_bool x (inject_Z 8640000000000000) = true)
    by (apply Qle_bool_iff; exact Hmax).
  rewrite H0'. cbn [negb]. rewrite Hm'. cbn [ntoZ Q_Number].
  rewrite (Qtruncate_nonneg H0). reflexivity.
Qed.

Lemma String_of_nonneg (z : Z) :
  (0 <= z)%Z -> Date.String_of (Some z) = JS.String_of_nat (Z.to_nat z).
Proof.
  intros Hz. unfold Date.String_of.
  destruct (Z.ltb_spec z 0); [lia | reflexivity].
Qed.

(** The fields of a time value: each within its range, and together the
    time of day. *)
Lemma fields_of_time_value (t : Z) :
  (0 <= (t / Date.msPerHour) mod 24 < 24
   /\ 0 <= (t / Date.msPerMinute) mod 60 < 60
   /\ 0 <= (t / Date.msPerSecond) mod 60 < 60
   /\ 0 <= t mod Date.msPerSecond < 1000
   /\ ((((t / Date.msPerHour) mod 24) * 60 + (t / Date.msPerMinute) mod 60) * 60
       + (t / Date.msPerSecond) mod 60) * 1000 + t mod Date.msPerSecond
      = t mod 86400000)%Z.
Proof.
  unfold Date.msPerHour, Date.msPerMinute, Date.msPerSecond.
  Z.div_mod_to_equations. lia.
Qed.

(** The fields of two time values a whole number of days apart. *)
Lemma fields_of_later_day (t days : Z) :
  (((t + days * 86400000) / Date.msPerHour) mod 24
   = (t / Date.msPerHour) mod 24
   /\ ((t + days * 86400000) / Date.msPerMinute) mod 60
      = (t / Date.msPerMinute) mod 60
   /\ ((t + days * 86400000) / Date.msPerSecond) mod 60
      = (t / Date.msPerSecond) mod 60
   /\ (t + days * 86400000) mod Date.msPerSecond
      = t mod Date.msPerSecond)%Z.
Proof.
  unfold Date.msPerHour, Date.msPerMinute, Date.msPerSecond.
  split; [|split; [|split]].
  - replace (days * 86400000)%Z with (days * 24 * 3600000)%Z by ring.
    rewrite Z.div_add by discriminate. apply Z_mod_plus_full.
  - replace (days * 86400000)%Z with (days * 24 * 60 * 60000)%Z by ring.
    rewrite Z.div_add by discriminate. apply Z_mod_plus_full.
  - replace (days * 86400000)%Z with (days * 1440 * 60 * 1000)%Z by ring.
    rewrite Z.div_add by discriminate. apply Z_mod_plus_full.
  - replace (days * 86400000)%Z with (days * 86400 * 1000)%Z by ring.
    apply Z_mod_plus_full.
Qed.

(** X1: whatever the arithmetic, when [seconds * 1000] makes a valid date,
    of time value [t] (the product as the arithmetic computes it,
    truncated), [formatTime] shows the time of day of [t]: [M:SS.mmm] below
    an hour, with the minutes unpadded, and [H:MM:SS.mmm] from one hour on;
    seconds take two digits, milliseconds three, and the fields add up to
    [t] modulo one day. *)
Theorem formatTime_shows_time_of_day :
  forall (T : Type) (N : Number T) (seconds : T) (t : Z),
    Date.of_number (nmul seconds (nofZ 1000)) = Some t ->
    exists (h m s f : nat) (hours minutes secs millis : string),
      (h < 24 /\ m < 60 /\ s < 60 /\ f < 1000)%nat
      /\ Z.of_nat (((h * 60 + m) * 60 + s) * 1000 + f) = (t mod 86400000)%Z
      /\ formatTime seconds
         = (if (h =? 0)%nat then minutes ++ ":" ++ secs ++ "." ++ millis
            else hours ++ ":" ++ minutes ++ ":" ++ secs ++ "." ++ millis)
      /\ decimal_value hours = Some h
      /\ decimal_value minutes = Some m
      /\ decimal_value secs = Some s
      /\ decimal_value millis = Some f
      /\ String.length secs = 2%nat
      /\ String.length millis = 3%nat
      /\ String.length minutes
         = (if (h =? 0)%nat then digitCount m else 2%nat).
Proof.
  intros T N seconds t Hdate.
  destruct (fields_of_time_value t) as (Hh & Hm & Hs & Hf & Hsum).
  set (hh := ((t / Date.msPerHour) mod 24)%Z) in *.
  set (mm := ((t / Date.msPerMinute) mod 60)%Z) in *.
  set (ss := ((t / Date.msPerSecond) mod 60)%Z) in *.
  set (ms := (t mod Date.msPerSecond)%Z) in *.
  exists (Z.to_nat hh), (Z.to_nat mm), (Z.to_nat ss), (Z.to_nat ms).
  exists (JS.String_of_nat (Z.to_nat hh)).
  exists (if (Z.to_nat hh =? 0)%nat then JS.String_of_nat (Z.to_nat mm)
          else JS.padStart 2 "0" (JS.String_of_nat (Z.to_nat mm))).
  exists (JS.padStart 2 "0" (JS.String_of_nat (Z.to_nat ss))).
  exists (JS.padStart 3 "0" (JS.String_of_nat (Z.to_nat ms))).
  split; [lia|]. split; [lia|].
  destruct (padStart_field 2 (Z.to_nat mm)) as (Hlm & Hvm).
  destruct (padStart_field 2 (Z.to_nat ss)) as (Hls & Hvs).
  destruct (padStart_field 3 (Z.to_nat ms)) as (Hlf & Hvf).
  destruct (String_of_nat_field (Z.to_nat mm)) as (Hlm0 & Hvm0).
  destruct (String_of_nat_field (Z.to_nat hh)) as (_ & Hvh).
  assert (Hdc2 : forall n, (n < 100)%nat -> (digitCount n <= 2)%nat)
    by (intros n Hn; apply digitCount_below; [lia | exact Hn]).
  assert (Hdc3 : forall n, (n < 1000)%nat -> (digitCount n <= 3)%nat)
    by (intros n Hn; apply digitCount_below; [lia | exact Hn]).
  split.
  - unfold formatTime. rewrite Hdate.
    cbn [Date.getUTCHours Date.getUTCMinutes Date.getUTCSeconds
         Date.getUTCMilliseconds option_map Date.truthy].
    fold hh mm ss ms.
    rewrite !String_of_nonneg by lia.
    destruct (Z.eqb_spec hh 0) as [Hz|Hnz]; cbn [negb].
    + rewrite Hz. reflexivity.
    + destruct (Nat.eqb_spec (Z.to_nat hh) 0) as [E|_]; [lia|]. reflexivity.
  - split; [exact Hvh|].
    split; [destruct (Z.to_nat hh =? 0)%nat; assumption|].
    split; [exact Hvs|]. split; [exact Hvf|].
    split; [rewrite Hls; specialize (Hdc2 (Z.to_nat ss) ltac:(lia)); lia|].
    split; [rewrite Hlf; specialize (Hdc3 (Z.to_nat ms) ltac:(lia)); lia|].
    destruct (Z.to_nat hh =? 0)%nat; [exact Hlm0|].
    rewrite Hlm. specialize (Hdc2 (Z.to_nat mm) ltac:(lia)). lia.
Qed.

(** In binary64: 4.35 s, whose product with 1000 rounds to 4350. *)
Lemma formatTime_shows_time_of_day_witness :
  Date.of_number (nmul 4.35%float (nofZ 1000)) = Some 4350%Z
  /\ exists (h m s f : nat) (hours minutes secs millis : string),
       (h < 24 /\ m < 60 /\ s < 60 /\ f < 1000)%nat
       /\ Z.of_nat (((h * 60 + m) * 60 + s) * 1000 + f)
          = (4350 mod 86400000)%Z
       /\ formatTime 4.35%float
          = (if (h =? 0)%nat then minutes ++ ":" ++ secs ++ "." ++ millis
             else hours ++ ":" ++ minutes ++ ":" ++ secs ++ "." ++ millis)
       /\ decimal_value hours = Some h
       /\ decimal_value minutes = Some m
       /\ decimal_value secs = Some s
       /\ decimal_value millis = Some f
       /\ String.length secs = 2%nat
       /\ String.length millis = 3%nat
       /\ String.length minutes
          = (if (h =? 0)%nat then digitCount m else 2%nat).
Proof.
  assert (H1 : Date.of_number (nmul 4.35%float (nofZ 1000)) = Some 4350%Z)
    by (vm_compute; reflexivity).
  split; [exact H1|].
  exact (@formatTime_shows_time_of_day float float_Number 4.35%float 4350%Z H1).
Defined.

(** In exact arithmetic the time value is the product rounded down (for a
    product that is not negative); in binary64 the product is rounded to the
    nearest number first, to 4350 for 4.35 and to 1004.9999999999999 for
    1.005. *)
Example formatTime_examples :
  formatTime (7451 # 2) = "1:02:05.500"
  /\ formatTime (5 : Q) = "0:05.000"
  /\ formatTime (435 # 100) = "0:04.350"
  /\ formatTime 4.35%float = "0:04.350"
  /\ formatTime (float_to_Q 4.35%float) = "0:04.349"
  /\ formatTime 1.005%float = "0:01.004"
  /\ formatTime 86401.005%float = "0:01.005".
Proof. repeat split; vm_compute; reflexivity. Qed.

(** X2: the hours wrap at the end of a day: whatever the arithmetic, two
    times whose dates are valid, with time values a whole number of days
    apart, are shown alike. *)
Theorem formatTime_wraps_after_a_day :
  forall (T : Type) (N : Number T) (seconds later : T) (t days : Z),
    Date.of_number (nmul seconds (nofZ 1000)) = Some t ->
    Date.of_number (nmul later (nofZ 1000)) = Some (t + days * 86400000)%Z ->
    formatTime later = formatTime seconds.
Proof.
  intros T N seconds later t days Hdate Hlater.
  destruct (fields_of_later_day t days) as (Hh & Hm & Hs & Hf).
  unfold formatTime. rewrite Hdate, Hlater.
  cbn [Date.getUTCHours Date.getUTCMinutes Date.getUTCSeconds
       Date.getUTCMilliseconds option_map].
  rewrite Hh, Hm, Hs, Hf. reflexivity.
Qed.

(** In binary64: a minute and a second, and the same a day later. *)
Lemma formatTime_wraps_after_a_day_witness :
  Date.of_number (nmul 61%float (nofZ 1000)) = Some 61000%Z
  /\ Date.of_number (nmul 86461%float (nofZ 1000))
     = Some (61000 + 1 * 86400000)%Z
  /\ formatTime 86461%float = formatTime 61%float.
Proof.
  assert (H1 : Date.of_number (nmul 61%float (nofZ 1000)) = Some 61000%Z)
    by (vm_compute; reflexivity).
  assert (H2 : Date.of_number (nmul 86461%float (nofZ 1000))
               = Some (61000 + 1 * 86400000)%Z)
    by (vm_compute; reflexivity).
  split; [exact H1|]. split; [exact H2|].
  exact (@formatTime_wraps_after_a_day float float_Number 61%float 86461%float
           61000%Z 1%Z H1 H2).
Defined.

(** One minute and a second into the second day; a millisecond before time
    0, which is shown as the end of a day; and half a millisecond before
    time 0, which truncates to time 0. *)
Example formatTime_around_midnight :
  formatTime (61 + 86400) = "1:01.000"
  /\ formatTime 86461%float = "1:01.000"
  /\ formatTime (- (1 # 1000)) = "23:59:59.999"
  /\ formatTime (- (1 # 2000)) = "0:00.000"
  /\ formatTime (-0.001)%float = "23:59:59.999"
  /\ formatTime (-0.0005)%float = "0:00.000".
Proof. repeat split; vm_compute; reflexivity. Qed.

Lemma digit_is_digit (d : nat) :
  (d < 10)%nat -> (48 <= nat_of_ascii (JS.digit d) <= 57)%nat.
Proof.
  intros Hd. do 10 (destruct d as [|d]; [cbn; lia|]). lia.
Qed.

Lemma digits_start (fuel : nat) :
  forall n acc,
    (0 < fuel)%nat \/ starts_with_digit acc ->
    starts_with_digit (JS.digits fuel n acc).
Proof.
  induction fuel as [|fuel IH]; intros n acc Hs.
  - destruct Hs as [Hf|Hs]; [lia | exact Hs].
  - cbn [JS.digits].
    assert (Hd : starts_with_digit (String (JS.digit (n mod 10)) acc)).
    { cbn [starts_with_digit]. apply digit_is_digit.
      apply Nat.mod_upper_bound. lia. }
    destruct (n / 10 =? 0)%nat; [exact Hd|].
    apply IH. right. exact Hd.
Qed.

Lemma String_of_nat_starts (n : nat) : starts_with_digit (JS.String_of_nat n).
Proof. apply digits_start. left. lia. Qed.

Lemma starts_with_digit_app (s1 s2 : string) :
  starts_with_digit s1 -> starts_with_digit (s1 ++ s2).
Proof. destruct s1; [contradiction | exact (fun H => H)]. Qed.

(** X3: whatever the arithmetic, [formatTime] returns ["NaN:NaN.NaN"]
    exactly when the number of milliseconds is NaN or beyond 8.64e15 in
    magnitude, that is, when it makes an invalid date; an infinite time is
    such a case. *)
Theorem formatTime_invalid_date :
  forall (T : Type) (N : Number T) (seconds : T),
    isNaN (nmul seconds (nofZ 1000))
    || ngtb (Math_abs (nmul seconds (nofZ 1000))) (nofZ 8640000000000000)
    = true
    <-> formatTime seconds = "NaN:NaN.NaN".
Proof.
  intros T N seconds.
  assert (Hdate : isNaN (nmul seconds (nofZ 1000))
                  || ngtb (Math_abs (nmul seconds (nofZ 1000)))
                       (nofZ 8640000000000000) = true
                  <-> Date.of_number (nmul seconds (nofZ 1000)) = None).
  { unfold Date.of_number.
    destruct (isNaN (nmul seconds (nofZ 1000))); cbn [orb]; [tauto|].
    destruct (ngtb (Math_abs (nmul seconds (nofZ 1000)))
                (nofZ 8640000000000000)); [tauto|].
    split; discriminate. }
  rewrite Hdate. unfold formatTime. split.
  - intros ->. reflexivity.
  - destruct (Date.of_number (nmul seconds (nofZ 1000))) as [t|]; [|reflexivity].
    intros E. exfalso.
    cbn [Date.getUTCHours Date.getUTCMinutes option_map Date.truthy] in E.
    assert (Hh : (0 <= (t / Date.msPerHour) mod 24)%Z)
      by (apply Z.mod_pos_bound; lia).
    assert (Hm : (0 <= (t / Date.msPerMinute) mod 60)%Z)
      by (apply Z.mod_pos_bound; lia).
    assert (Hstart : starts_with_digit "NaN:NaN.NaN").
    { rewrite <- E.
      destruct (negb ((t / Date.msPerHour) mod 24 =? 0)%Z);
        apply starts_with_digit_app;
        rewrite String_of_nonneg by assumption;
        apply String_of_nat_starts. }
    cbn in Hstart. lia.
Qed.

(** The duration of an unbounded stream, in binary64 arithmetic. *)
Example formatTime_of_unbounded_duration :
  formatTime infinity = "NaN:NaN.NaN" /\ formatTime nan = "NaN:NaN.NaN".
Proof. split; vm_compute; reflexivity. Qed.
End TimeFacts.

(* ================================================================== *)
(** * Further properties of utils.ts: the names and the archive *)
(* ================================================================== *)

Section NameFacts.
Import Types Utils Spec.
Open Scope string_scope.

Lemma append_inv_head (s a b : string) : s ++ a = s ++ b -> a = b.
Proof.
  induction s as [|c s IH]; cbn [append]; intros E; [exact E|].
  injection E as E. exact (IH E).
Qed.

Lemma append_inv_tail (s : string) :
  forall a b, a ++ s = b ++ s -> a = b.
Proof.
  intros a b E.
  assert (Hlen : String.length a = String.length b).
  { apply (f_equal String.length) in E. rewrite !length_append in E. lia. }
  revert b E Hlen. induction a as [|c a IH]; intros [|c' b] E Hlen;
    try discriminate; [reflexivity|].
  cbn [append] in E. injection E as -> E. f_equal.
  apply IH; [exact E | cbn in Hlen; lia].
Qed.

(** The numeric field of a file name denotes the ordinal. *)
Lemma numeric_field_value (index : nat) :
  parse_digits
    (JS.padStart (Nat.max 2 (String.length (JS.String_of_nat (index + 1)))) "0"
       (JS.String_of_nat (index + 1))) 0
  = Some (index + 1)%nat.
Proof.
  destruct (String_of_nat_spec (index + 1)) as (d & _ & _ & Hparse).
  unfold JS.padStart. rewrite parse_digits_zeros. exact Hparse.
Qed.

Lemma generateFilename_index (T : Type) (N : Number T) (t1 t2 : T)
    (settings : ExportSettings T) (i j : nat) :
  generateFilename t1 settings i = generateFilename t2 settings j -> i = j.
Proof.
  pose proof (numeric_field_value i) as Hi.
  pose proof (numeric_field_value j) as Hj.
  unfold generateFilename. cbv zeta.
  set (ni := JS.padStart _ _ (JS.String_of_nat (i + 1))) in *.
  set (nj := JS.padStart _ _ (JS.String_of_nat (j + 1))) in *.
  intros E.
  apply append_inv_head in E. apply append_inv_head in E.
  apply append_inv_tail in E.
  rewrite E in Hi. rewrite Hi in Hj. injection Hj as Hj. lia.
Qed.

(** X4: under given settings two file names are equal exactly when their
    indices are, whatever the timestamps: the name determines the index. *)
Theorem generateFilename_injective :
  forall (T : Type) (N : Number T) (timestamp1 timestamp2 : T)
         (settings : ExportSettings T) (i j : nat),
    generateFilename timestamp1 settings i = generateFilename timestamp2 settings j
    <-> i = j.
Proof.
  intros T N t1 t2 settings i j. split.
  - exact (@generateFilename_index T N t1 t2 settings i j).
  - intros ->. reflexivity.
Qed.
End NameFacts.

Section ArchiveFacts.
Import Types Utils App.
Context {T : Type} `{Number T}.
Variable host : ExportHost (T := T).
Variable settings : ExportSettings T.

(** When [Promise.all] fulfils, every image loaded, and the callbacks
    returned the entries of [entry_of]. *)
Lemma all_fulfilled_entries (l : list (CapturedFrame T)) :
  forall i es,
    all_fulfilled (mapi_from (zipEntry host settings) i l) = Some es ->
    es = mapi_from (entry_of host settings) i l
    /\ forall f, In f l -> imageLoads host (originalDataUrl f) = true.
Proof.
  induction l as [|f l IH]; intros i es Hall.
  - cbn in Hall. injection Hall as <-. split; [reflexivity | intros f []].
  - cbn [mapi_from all_fulfilled] in Hall.
    destruct (zipEntry host settings f i) as [e| |] eqn:Hz; try discriminate.
    destruct (all_fulfilled (mapi_from (zipEntry host settings) (Datatypes.S i) l))
      as [es'|] eqn:Hrest; [|discriminate].
    cbn in Hall. injection Hall as <-.
    destruct (IH _ _ Hrest) as (-> & Hloads).
    assert (Hf : imageLoads host (originalDataUrl f) = true
                 /\ e = entry_of host settings f i).
    { unfold zipEntry, entry_of, processFrame in *.
      destruct (imageLoads host (originalDataUrl f)); [|discriminate].
      split; [reflexivity|].
      destruct (getContext2d host _ _); [|congruence].
      destruct (toBlob host _ _ _ _ _); congruence. }
    destruct Hf as (Hload & ->). split; [reflexivity|].
    intros g [<-|Hg]; [exact Hload | apply Hloads; exact Hg].
Qed.

(** [Promise.all] stays unsettled only for an image that does not load. *)
Lemma unsettled_has_undecodable (l : list (CapturedFrame T)) :
  forall i,
    all_fulfilled (mapi_from (zipEntry host settings) i l) = None ->
    exists bad, In bad l /\ imageLoads host (originalDataUrl bad) = false.
Proof.
  induction l as [|f l IH]; intros i Hnone; [discriminate|].
  destruct (imageLoads host (originalDataUrl f)) eqn:Hf;
    [|exists f; split; [left; reflexivity | exact Hf]].
  cbn [mapi_from all_fulfilled] in Hnone.
  assert (Hrest : all_fulfilled
                    (mapi_from (zipEntry host settings) (Datatypes.S i) l) = None).
  { unfold zipEntry at 1, processFrame in Hnone. rewrite Hf in Hnone.
    destruct (all_fulfilled (mapi_from (zipEntry host settings) (Datatypes.S i) l));
      [|reflexivity].
    destruct (getContext2d host _ _); [|discriminate].
    destruct (toBlob host _ _ _ _ _); discriminate. }
  destruct (IH _ Hrest) as (bad & Hin & Hbad).
  exists bad. split; [right; exact Hin | exact Hbad].
Qed.

(** The entries added for the frames of [l], ranked from [i]. *)
Lemma added_entries (l : list (CapturedFrame T)) :
  forall i name blob,
    In (name, blob) (added (mapi_from (entry_of host settings) i l))
    <-> exists k f,
          nth_error l k = Some f
          /\ processFrame host f settings = Fulfilled (Some blob)
          /\ name = generateFilename (timestamp f) settings (i + k).
Proof.
  induction l as [|g l IH]; intros i name blob.
  - cbn. split; [intros [] | intros (k & f & Hk & _)].
    destruct k; discriminate.
  - cbn [mapi_from]. split.
    + intros Hin.
      assert (Hcases :
                (processFrame host g settings = Fulfilled (Some blob)
                 /\ name = generateFilename (timestamp g) settings i)
                \/ In (name, blob)
                     (added (mapi_from (entry_of host settings) (Datatypes.S i) l))).
      { unfold entry_of at 1 in Hin.
        destruct (processFrame host g settings) as [[b|]| |]; cbn [added] in Hin;
          try (right; exact Hin).
        destruct Hin as [[= <- <-]|Hin]; [left; split; reflexivity | right; exact Hin]. }
      destruct Hcases as [(Hp & ->)|Hin'].
      * exists 0%nat, g. rewrite Nat.add_0_r. repeat split; assumption.
      * apply IH in Hin'. destruct Hin' as (k & f & Hk & Hp & ->).
        exists (Datatypes.S k), f. repeat split; try assumption.
        f_equal. lia.
    + intros (k & f & Hk & Hp & ->). destruct k as [|k].
      * cbn in Hk. injection Hk as ->. unfold entry_of at 1. rewrite Hp.
        rewrite Nat.add_0_r. left. reflexivity.
      * assert (Hin' : In (generateFilename (timestamp f) settings
                             (i + Datatypes.S k), blob)
                         (added (mapi_from (entry_of host settings)
                                   (Datatypes.S i) l))).
        { apply IH. exists k, f. repeat split; try assumption. f_equal. lia. }
        unfold entry_of at 1.
        destruct (processFrame host g settings) as [[b|]| |]; cbn [added];
          try exact Hin'.
        right. exact Hin'.
Qed.

Lemma added_names_distinct (l : list (CapturedFrame T)) :
  forall i, NoDup (map fst (added (mapi_from (entry_of host settings) i l))).
Proof.
  induction l as [|g l IH]; intros i; [constructor|].
  cbn [mapi_from]. unfold entry_of at 1.
  destruct (processFrame host g settings) as [[b|]| |]; cbn [added map fst];
    try apply IH.
  constructor; [|apply IH].
  intros Hin. apply in_map_iff in Hin.
  destruct Hin as ((name & blob) & Hname & Hin).
  cbn in Hname. subst name.
  apply added_entries in Hin. destruct Hin as (k & f & _ & _ & E).
  apply (@generateFilename_index T _ (timestamp g) (timestamp f)) in E. lia.
Qed.
End ArchiveFacts.

Section ArchiveClaims.
Import Types Utils App Spec.
Open Scope string_scope.

(** X5: when [downloadZip] delivers, it delivers [{prefix}_frames.zip], and
    every image of the store had loaded.  The archive holds the folder
    [extracted_frames] with exactly one file for each frame that encoded to a
    blob, named by the rank of the frame among all the sorted frames (so a
    frame that yields no blob leaves a gap in the numbers); no two files
    have the same name. *)
Theorem downloadZip_archive_contents :
  forall (T : Type) (N : Number T) (host : ExportHost (T := T))
         (frames : list (CapturedFrame T)) (settings : ExportSettings T)
         (d : Download),
    downloadZip host frames settings = Fulfilled (Some d) ->
    download d = prefix settings ++ "_frames.zip"
    /\ (forall f, In f frames -> imageLoads host (originalDataUrl f) = true)
    /\ exists files,
         content d = ZipContent "extracted_frames" files
         /\ NoDup (map fst files)
         /\ forall name blob,
              In (name, blob) files
              <-> exists k f,
                    nth_error (sort (compareFrames (sortOrder settings)) frames) k
                    = Some f
                    /\ processFrame host f settings = Fulfilled (Some blob)
                    /\ name = generateFilename (timestamp f) settings k.
Proof.
  intros T N host frames settings d. unfold downloadZip, Promise_all, mapi.
  destruct (zipFolder host "extracted_frames"); cbn [negb]; [|discriminate].
  rewrite zipEntry_never_rejects.
  destruct (all_fulfilled _) as [es|] eqn:Hall; [|discriminate].
  destruct (@all_fulfilled_entries T N host settings _ _ _ Hall) as (-> & Hloads).
  destruct (generateAsync host _); [discriminate|].
  intros [= <-]. cbn [download content].
  split; [reflexivity|]. split.
  - intros f Hf. apply Hloads.
    apply Permutation_in with frames; [apply sort_perm | exact Hf].
  - eexists. split; [reflexivity|]. split; [apply added_names_distinct|].
    intros name blob. apply (@added_entries T N host settings _ 0%nat).
Qed.

Lemma downloadZip_archive_contents_witness :
  downloadZip healthy_host [frame_at 2; frame_at 1] default_settings
  = Fulfilled (Some two_frame_archive)
  /\ download two_frame_archive = prefix default_settings ++ "_frames.zip"
  /\ (forall f, In f [frame_at 2; frame_at 1] ->
        imageLoads healthy_host (originalDataUrl f) = true)
  /\ exists files,
       content two_frame_archive = ZipContent "extracted_frames" files
       /\ NoDup (map fst files)
       /\ forall name blob,
            In (name, blob) files
            <-> exists k f,
                  nth_error
                    (sort (compareFrames (sortOrder default_settings))
                       [frame_at 2; frame_at 1]) k
                  = Some f
                  /\ processFrame healthy_host f default_settings
                     = Fulfilled (Some blob)
                  /\ name = generateFilename (timestamp f) default_settings k.
Proof.
  assert (H1 : downloadZip healthy_host [frame_at 2; frame_at 1] default_settings
               = Fulfilled (Some two_frame_archive))
    by (vm_compute; reflexivity).
  split; [exact H1|].
  exact (@downloadZip_archive_contents Q Q_Number healthy_host
           [frame_at 2; frame_at 1] default_settings two_frame_archive H1).
Defined.

(** The second of three frames does not encode: the third keeps the number
    3. *)
Example numbering_keeps_the_gap :
  let host : ExportHost (T := Q) :=
    {| imageLoads := fun _ => true;
       getContext2d := fun _ _ => true;
       toBlob := fun url _ _ _ _ =>
                   if String.eqb url "data:2" then None else Some url;
       zipFolder := fun _ => true;
       generateAsync := fun _ => None |} in
  let shot (second : nat) : CapturedFrame Q :=
    {| id := JS.String_of_nat second;
       timestamp := inject_Z (Z.of_nat second);
       originalDataUrl := "data:" ++ JS.String_of_nat second;
       width := 640; height := 360 |} in
  exported_names
    (downloadZip host [shot 1%nat; shot 2%nat; shot 3%nat]
       {| format := image_png; quality := 1; scale := 1 # 2;
          prefix := "shot"; sortOrder := asc |})
  = ["shot_01.png"; "shot_03.png"].
Proof. vm_compute. reflexivity. Qed.


(** In exact arithmetic the side of the canvas, for a scaled size below
    2^32. *)
Lemma canvas_side_exact (x : Q) :
  x < 4294967296 ->
  unsigned_long (Math_max (nofZ 1) (nfloor x)) = Z.max 1 (Qfloor x).
Proof.
  intros Hx.
  assert (Hz : (Qfloor x < 4294967296)%Z).
  { apply Z.lt_nge. intros Hge. apply (Qlt_irrefl x).
    apply Qlt_le_trans with 4294967296; [exact Hx|].
    apply Qle_trans with (inject_Z (Qfloor x)); [|apply Qfloor_le].
    change (4294967296 : Q) with (inject_Z 4294967296).
    rewrite <- Zle_Qle. exact Hge. }
  unfold unsigned_long. rewrite Math_max_Q. cbn [nfloor nofZ ntoZ Q_Number].
  change (2 ^ 32)%Z with 4294967296%Z.
  destruct (Qle_bool (inject_Z (Qfloor x)) (inject_Z 1)) eqn:E; cbn [negb].
  - apply Qle_bool_iff in E. rewrite <- Zle_Qle in E.
    rewrite Qtruncate_inject_Z, Z.max_l by exact E. reflexivity.
  - apply Qle_bool_false in E. rewrite <- Zlt_Qlt in E.
    rewrite Qtruncate_inject_Z, Z.max_r by lia.
    apply Z.mod_small. lia.
Qed.

(** X10: in exact arithmetic, for a frame whose scaled sides are below 2^32,
    [processFrame] never asks for a canvas with a side below one pixel: its
    result is the same on two hosts that differ only in what they do with
    such canvases. *)
Theorem processFrame_never_below_one_pixel :
  forall (host host' : ExportHost (T := Q)) (frame : CapturedFrame Q)
         (settings : ExportSettings Q),
    inject_Z (width frame) * scale settings < 4294967296 ->
    inject_Z (height frame) * scale settings < 4294967296 ->
    (forall url, imageLoads host url = imageLoads host' url) ->
    (forall w h, (1 <= w)%Z -> (1 <= h)%Z ->
       getContext2d host w h = getContext2d host' w h) ->
    (forall url w h fmt q, (1 <= w)%Z -> (1 <= h)%Z ->
       toBlob host url w h fmt q = toBlob host' url w h fmt q) ->
    processFrame host frame settings = processFrame host' frame settings.
Proof.
  intros host host' frame settings Hw Hh Hload Hctx Hblob. unfold processFrame.
  change (nmul (nofZ (width frame)) (scale settings))
    with (inject_Z (width frame) * scale settings).
  change (nmul (nofZ (height frame)) (scale settings))
    with (inject_Z (height frame) * scale settings).
  rewrite (canvas_side_exact Hw), (canvas_side_exact Hh).
  rewrite Hload, Hctx, Hblob by apply Z.le_max_l. reflexivity.
Qed.

(** A frame of no width and no height, on a host that refuses an empty
    canvas. *)
Lemma processFrame_never_below_one_pixel_witness :
  inject_Z (width blank_frame) * scale default_settings < 4294967296
  /\ inject_Z (height blank_frame) * scale default_settings < 4294967296
  /\ (forall url, imageLoads healthy_host url = imageLoads strict_canvas_host url)
  /\ (forall w h, (1 <= w)%Z -> (1 <= h)%Z ->
        getContext2d healthy_host w h = getContext2d strict_canvas_host w h)
  /\ (forall url w h fmt q, (1 <= w)%Z -> (1 <= h)%Z ->
        toBlob healthy_host url w h fmt q
        = toBlob strict_canvas_host url w h fmt q)
  /\ processFrame healthy_host blank_frame default_settings
     = processFrame strict_canvas_host blank_frame default_settings.
Proof.
  assert (G1 : inject_Z (width blank_frame) * scale default_settings
               < 4294967296) by reflexivity.
  assert (G2 : inject_Z (height blank_frame) * scale default_settings
               < 4294967296) by reflexivity.
  assert (H1 : forall url,
             imageLoads healthy_host url = imageLoads strict_canvas_host url)
    by reflexivity.
  assert (H2 : forall w h, (1 <= w)%Z -> (1 <= h)%Z ->
             getContext2d healthy_host w h = getContext2d strict_canvas_host w h).
  { intros w h Hw Hh. cbn.
    apply Z.leb_le in Hw. apply Z.leb_le in Hh. rewrite Hw, Hh. reflexivity. }
  assert (H3 : forall url w h fmt q, (1 <= w)%Z -> (1 <= h)%Z ->
             toBlob healthy_host url w h fmt q
             = toBlob strict_canvas_host url w h fmt q)
    by reflexivity.
  split; [exact G1|]. split; [exact G2|].
  split; [exact H1|]. split; [exact H2|]. split; [exact H3|].
  exact (@processFrame_never_below_one_pixel healthy_host
           strict_canvas_host blank_frame default_settings G1 G2 H1 H2 H3).
Defined.

(** In binary64 a scale that is not a number makes the sides NaN, and the
    canvas 0 by 0; a host that gives no context for such a canvas makes
    [processFrame] resolve null.  With the scale 0.5 of the slider the canvas
    is 320 by 180. *)
Example processFrame_binary64_sides :
  let host : ExportHost (T := float) :=
    {| imageLoads := fun _ => true;
       getContext2d := fun w h => ((1 <=? w) && (1 <=? h))%Z;
       toBlob := fun url w h _ _ =>
         Some (url ++ "@" ++ JS.String_of_nat (Z.to_nat w)
                   ++ "x" ++ JS.String_of_nat (Z.to_nat h));
       zipFolder := fun _ => true;
       generateAsync := fun _ => None |} in
  let frame : CapturedFrame float :=
    {| id := "f"; timestamp := 0%float; originalDataUrl := "data:f";
       width := 640; height := 360 |} in
  let settings (scale : float) : ExportSettings float :=
    {| format := image_jpeg; quality := 0.9%float; scale := scale;
       prefix := "image"; sortOrder := asc |} in
  unsigned_long (Math_max (nofZ 1) (nfloor (nmul (nofZ 640) nan))) = 0%Z
  /\ processFrame host frame (settings nan) = Fulfilled None
  /\ processFrame host frame (settings 0.5%float)
     = Fulfilled (Some "data:f@320x180")
  /\ processFrame host frame (settings 0.001%float)
     = Fulfilled (Some "data:f@1x1").
Proof. vm_compute. repeat split. Qed.

(** X11: [handleDownloadAll] never throws and never changes the store.  It
    either returns, with [isProcessing] cleared if there was a frame, or
    stays suspended with [isProcessing] set, which happens only when the
    image of some frame does not load.  It alerts, writes to the console and
    delivers nothing when [zip.generateAsync] rejects, and in no other
    case. *)
Theorem handleDownloadAll_outcomes :
  forall (T : Type) (N : Number T) (host : ExportHost (T := T)) (s : State),
    let r := handleDownloadAll host s in
    frames (snd r) = frames s
    /\ (fst r = Returned tt \/ fst r = Stuck)
    /\ (fst r = Returned tt -> frames s <> [] -> isProcessing (snd r) = false)
    /\ (fst r = Stuck ->
        isProcessing (snd r) = true
        /\ exists bad, In bad (frames s)
                       /\ imageLoads host (originalDataUrl bad) = false)
    /\ (alerts (snd r) = alerts s /\ console (snd r) = console s
        \/ alerts (snd r) = "Error creating ZIP file." :: alerts s
           /\ console (snd r) = "Failed to zip files" :: console s
           /\ downloads (snd r) = downloads s
           /\ exists files e, generateAsync host files = Some e).
Proof.
  intros T N host s. cbv zeta.
  destruct (handleDownloadAll host s) as [o s'] eqn:Hrun. cbn [fst snd].
  unfold handleDownloadAll, bind at 1, get in Hrun. cbv beta iota in Hrun.
  destruct (List.length (frames s) =? 0)%nat eqn:Hlen.
  - apply Nat.eqb_eq, length_zero_iff_nil in Hlen.
    injection Hrun as <- <-.
    split; [reflexivity|]. split; [left; reflexivity|].
    split; [intros _ Hne; contradiction|]. split; [discriminate|].
    left. split; reflexivity.
  - unfold bind, modify, try_catch_finally, await in Hrun.
    change (settings (setIsProcessing true s)) with (settings s) in Hrun.
    destruct (downloadZip host (frames s) (settings s)) as [d|e|] eqn:Hzip;
      injection Hrun as <- <-; cbn.
    + split; [reflexivity|]. split; [left; reflexivity|].
      split; [reflexivity|]. split; [discriminate|].
      left. destruct d; split; reflexivity.
    + split; [reflexivity|]. split; [left; reflexivity|].
      split; [reflexivity|]. split; [discriminate|].
      right. repeat (split; [reflexivity|]).
      unfold downloadZip, Promise_all, mapi in Hzip.
      destruct (zipFolder host "extracted_frames"); cbn [negb] in Hzip;
        [|discriminate].
      rewrite zipEntry_never_rejects in Hzip.
      destruct (all_fulfilled _) as [es|]; [|discriminate].
      destruct (generateAsync host (added es)) as [e'|] eqn:Hgen; [|discriminate].
      exists (added es), e'. exact Hgen.
    + split; [reflexivity|]. split; [right; reflexivity|].
      split; [discriminate|]. split; [|left; split; reflexivity].
      intros _. split; [reflexivity|].
      unfold downloadZip, Promise_all, mapi in Hzip.
      destruct (zipFolder host "extracted_frames"); cbn [negb] in Hzip;
        [|discriminate].
      rewrite zipEntry_never_rejects in Hzip.
      destruct (all_fulfilled _) as [es|] eqn:Hall.
      * destruct (generateAsync host (added es)); discriminate.
      * destruct (@unsettled_has_undecodable T N host (settings s) _ _ Hall)
          as (bad & Hin & Hbad).
        exists bad. split; [|exact Hbad].
        apply Permutation_in
          with (sort (compareFrames (sortOrder (settings s))) (frames s));
          [apply Permutation_sym, sort_perm | exact Hin].
Qed.

(** An archive that JSZip fails to generate. *)
Example zip_failure_is_reported :
  let host :=
    {| imageLoads := fun _ => true;
       getContext2d := fun _ _ => true;
       toBlob := fun url _ _ _ _ => Some url;
       zipFolder := fun _ => true;
       generateAsync := fun _ => Some "RangeError" |} in
  let r := handleDownloadAll host (idle [frame_at 1] default_settings None) in
  fst r = Returned tt
  /\ alerts (snd r) = ["Error creating ZIP file."]
  /\ console (snd r) = ["Failed to zip files"]
  /\ downloads (snd r) = []
  /\ isProcessing (snd r) = false.
Proof. vm_compute. repeat split. Qed.
End ArchiveClaims.

(* ================================================================== *)
(** * Further properties of utils.ts: the order of the export

    In exact arithmetic; the timestamps of frames are finite, and the sign
    of the difference of two finite binary64 numbers is that of their exact
    difference. *)
(* ================================================================== *)

Lemma filter_none {A} (p : A -> bool) (l : list A) :
  (forall z, In z l -> p z = false) -> filter p l = [].
Proof.
  induction l as [|y l IH]; intros Hall; [reflexivity|].
  cbn [filter]. rewrite (Hall y (or_introl eq_refl)).
  apply IH. intros z Hz. apply Hall. right. exact Hz.
Qed.

Lemma filter_all {A} (p : A -> bool) (l : list A) :
  (forall x, In x l -> p x = true) -> filter p l = l.
Proof.
  induction l as [|x l IH]; intros Hall; [reflexivity|].
  cbn [filter]. rewrite (Hall x (or_introl eq_refl)). f_equal.
  apply IH. intros y Hy. apply Hall. right. exact Hy.
Qed.

(** ** Sorting by a key *)

Section SortByKey.
Variable A : Type.
Variable key : A -> Q.
Variable compareFn : A -> A -> Q.

(** The comparison function places [a] after [b] exactly when the key of
    [a] is above that of [b]. *)
Hypothesis compareFn_key :
  forall a b, ngtb (compareFn a b) (nofZ 0) = true <-> key b < key a.

Lemma sort_insert_sorted (x : A) (l : list A) :
  StronglySorted (fun a b => key a <= key b) l ->
  StronglySorted (fun a b => key a <= key b) (sort_insert compareFn x l).
Proof.
  induction 1 as [|y l Hs IH Hy]; cbn [sort_insert].
  - constructor; constructor.
  - destruct (ngtb (compareFn y x) (nofZ 0)) eqn:E.
    + apply compareFn_key in E.
      constructor; [constructor; assumption|].
      constructor; [apply Qlt_le_weak; exact E|].
      eapply Forall_impl; [|exact Hy]. cbn. intros z Hz.
      apply Qle_trans with (key y); [apply Qlt_le_weak; exact E | exact Hz].
    + assert (Hyx : key y <= key x).
      { apply Qnot_lt_le. intros Hlt. apply compareFn_key in Hlt. congruence. }
      constructor; [exact IH|].
      apply Forall_forall. intros z Hz.
      apply Permutation_in with (l' := x :: l) in Hz;
        [|apply Permutation_sym, sort_insert_perm].
      destruct Hz as [<-|Hz]; [exact Hyx|].
      rewrite Forall_forall in Hy. apply Hy. exact Hz.
Qed.

Lemma sort_sorted (l : list A) :
  StronglySorted (fun a b => key a <= key b) (sort compareFn l).
Proof.
  unfold sort.
  assert (Hgen : forall acc,
             StronglySorted (fun a b => key a <= key b) acc ->
             StronglySorted (fun a b => key a <= key b)
               (fold_left (fun acc x => sort_insert compareFn x acc) l acc)).
  { induction l as [|x l IH]; intros acc Hacc; cbn [fold_left]; [exact Hacc|].
    apply IH. apply sort_insert_sorted. exact Hacc. }
  apply Hgen. constructor.
Qed.

(** A class of elements with one key. *)
Variable p : A -> bool.
Hypothesis p_one_key : forall a b, p a = true -> p b = true -> ~ key a < key b.

Lemma sort_insert_filter (x : A) (l : list A) :
  StronglySorted (fun a b => key a <= key b) l ->
  filter p (sort_insert compareFn x l) = (filter p l ++ filter p [x])%list.
Proof.
  induction 1 as [|y l Hs IH Hy]; cbn [sort_insert]; [reflexivity|].
  destruct (ngtb (compareFn y x) (nofZ 0)) eqn:E.
  - apply compareFn_key in E.
    cbn [filter]. destruct (p x) eqn:Hx; [|rewrite app_nil_r; reflexivity].
    assert (Hnone : filter p (y :: l) = []).
    { apply filter_none. intros z Hz.
      destruct (p z) eqn:Hpz; [|reflexivity]. exfalso.
      apply (p_one_key Hx Hpz).
      destruct Hz as [<-|Hz]; [exact E|].
      rewrite Forall_forall in Hy.
      apply Qlt_le_trans with (key y); [exact E | apply Hy; exact Hz]. }
    cbn [filter] in Hnone. rewrite Hnone. reflexivity.
  - cbn [filter]. rewrite IH.
    destruct (p y); reflexivity.
Qed.

Lemma sort_filter (l : list A) : filter p (sort compareFn l) = filter p l.
Proof.
  unfold sort.
  assert (Hgen : forall acc,
             StronglySorted (fun a b => key a <= key b) acc ->
             filter p (fold_left (fun acc x => sort_insert compareFn x acc) l acc)
             = (filter p acc ++ filter p l)%list).
  { induction l as [|x l IH]; intros acc Hacc; cbn [fold_left].
    - cbn [filter]. rewrite app_nil_r. reflexivity.
    - rewrite IH by (apply sort_insert_sorted; exact Hacc).
      rewrite sort_insert_filter by exact Hacc.
      rewrite <- app_assoc. cbn [filter]. destruct (p x); reflexivity. }
  rewrite Hgen by constructor. reflexivity.
Qed.
End SortByKey.

Section OrderFacts.
Import Types Utils.
Open Scope string_scope.

Lemma compareFrames_key (order : SortOrder) (a b : CapturedFrame Q) :
  ngtb (compareFrames order a b) (nofZ 0) = true
  <-> order_key order b < order_key order a.
Proof.
  unfold ngtb. rewrite nltb_Q_true. change (nofZ 0) with (0 : Q).
  destruct order; cbn [compareFrames nsub Q_Number order_key].
  - rewrite <- (Qlt_minus_iff (timestamp b) (timestamp a)). reflexivity.
  - rewrite <- (Qlt_minus_iff (timestamp a) (timestamp b)).
    split; intros Hlt.
    + apply Qopp_lt_compat. exact Hlt.
    + apply Qopp_lt_compat in Hlt. rewrite !Qopp_involutive in Hlt. exact Hlt.
Qed.

Lemma in_order_key (order : SortOrder) (a b : CapturedFrame Q) :
  order_key order a <= order_key order b <-> in_order order a b.
Proof.
  destruct order; cbn [order_key in_order]; [reflexivity|].
  split; intros Hle.
  - apply Qopp_le_compat in Hle. rewrite !Qopp_involutive in Hle. exact Hle.
  - apply Qopp_le_compat. exact Hle.
Qed.

Lemma sortedFrames_in_order (order : SortOrder) (l : list (CapturedFrame Q)) :
  StronglySorted (in_order order) (sort (compareFrames order) l).
Proof.
  pose proof (@sort_sorted _ (order_key order) (compareFrames order)
                (compareFrames_key order) l) as Hs.
  induction Hs as [|a l' Hs' IH Ha]; constructor; [exact IH|].
  eapply Forall_impl; [|exact Ha]. intros b. apply in_order_key.
Qed.

Lemma sortedFrames_stable (order : SortOrder) (t : Q)
    (l : list (CapturedFrame Q)) :
  taken_at_time t (sort (compareFrames order) l) = taken_at_time t l.
Proof.
  unfold taken_at_time.
  apply (@sort_filter _ (order_key order) (compareFrames order)).
  - apply compareFrames_key.
  - intros a b Ha Hb Hlt.
    apply Qeq_bool_iff in Ha. apply Qeq_bool_iff in Hb.
    apply (Qlt_irrefl (order_key order a)).
    apply Qlt_le_trans with (order_key order b); [exact Hlt|].
    destruct order; cbn [order_key]; rewrite Ha, Hb; apply Qle_refl.
Qed.

(** X6: in exact arithmetic the frames that [downloadZip] numbers are the
    frames of the store, in the order the settings ask for (timestamps not
    decreasing for [asc], not increasing for [desc]); and the sort is
    stable: frames of one timestamp keep the order they have in the store,
    in both sort orders. *)
Theorem sortedFrames_ordered_and_stable :
  forall (frames : list (CapturedFrame Q)) (order : SortOrder),
    Permutation frames (sort (compareFrames order) frames)
    /\ StronglySorted (in_order order) (sort (compareFrames order) frames)
    /\ forall t, taken_at_time t (sort (compareFrames order) frames)
                 = taken_at_time t frames.
Proof.
  intros frames order. split; [apply sort_perm|].
  split; [apply sortedFrames_in_order|].
  intros t. apply sortedFrames_stable.
Qed.

(** Two lists in a strict order that hold the same elements are equal. *)
Lemma sorted_perm_unique {A} (R : A -> A -> Prop) :
  (forall a b, R a b -> R b a -> False) ->
  forall l1 l2,
    StronglySorted R l1 -> StronglySorted R l2 -> Permutation l1 l2 ->
    l1 = l2.
Proof.
  intros Hasym l1. induction l1 as [|a l1 IH]; intros l2 H1 H2 Hp.
  - apply Permutation_nil in Hp. symmetry. exact Hp.
  - destruct l2 as [|b l2];
      [apply Permutation_sym, Permutation_nil in Hp; discriminate|].
    apply StronglySorted_inv in H1. destruct H1 as (H1 & Ha).
    apply StronglySorted_inv in H2. destruct H2 as (H2 & Hb).
    rewrite Forall_forall in Ha, Hb.
    assert (Hab : a = b).
    { assert (Hina : In a (b :: l2))
        by (apply Permutation_in with (a :: l1); [exact Hp | left; reflexivity]).
      assert (Hinb : In b (a :: l1))
        by (apply Permutation_in with (b :: l2);
            [apply Permutation_sym; exact Hp | left; reflexivity]).
      destruct Hina as [E|Hina]; [symmetry; exact E|].
      destruct Hinb as [E|Hinb]; [exact E|].
      exfalso. apply (Hasym a b); [apply Ha | apply Hb]; assumption. }
    subst b. f_equal. apply IH; try assumption.
    apply Permutation_cons_inv with a. exact Hp.
Qed.

(** Sorted frames with distinct timestamps are in strict order. *)
Lemma distinct_sorted_strict (order : SortOrder) (l : list (CapturedFrame Q)) :
  distinct_timestamps l ->
  StronglySorted (in_order order) l ->
  StronglySorted (fun a b => order_key order a < order_key order b) l.
Proof.
  intros (Hnd & Hinj) Hs. induction Hs as [|a l Hs IH Ha]; [constructor|].
  inversion Hnd as [|? ? Hnotin Hnd']; subst.
  constructor.
  - apply IH; [exact Hnd'|].
    intros x y Hx Hy. apply Hinj; right; assumption.
  - rewrite Forall_forall in *. intros b Hb.
    pose proof (Ha b Hb) as Hab. apply in_order_key in Hab.
    apply Qle_lt_or_eq in Hab. destruct Hab as [Hlt|Heq]; [exact Hlt|].
    exfalso. apply Hnotin.
    assert (Hts : timestamp a == timestamp b).
    { destruct order; cbn [order_key] in Heq; [exact Heq|].
      apply Qopp_comp in Heq. rewrite !Qopp_involutive in Heq. exact Heq. }
    rewrite (Hinj a b (or_introl eq_refl) (or_intror Hb) Hts). exact Hb.
Qed.

Lemma distinct_timestamps_perm (l l' : list (CapturedFrame Q)) :
  Permutation l l' -> distinct_timestamps l -> distinct_timestamps l'.
Proof.
  intros Hp (Hnd & Hinj). split.
  - apply Permutation_NoDup with l; assumption.
  - intros a b Ha Hb. apply Hinj;
      (apply Permutation_in with l'; [apply Permutation_sym; exact Hp | assumption]).
Qed.

(** With distinct timestamps there is one way to put the frames in order. *)
Lemma sorted_frames_unique (order : SortOrder) (l1 l2 : list (CapturedFrame Q)) :
  distinct_timestamps l1 ->
  StronglySorted (in_order order) l1 ->
  StronglySorted (in_order order) l2 ->
  Permutation l1 l2 ->
  l1 = l2.
Proof.
  intros Hd H1 H2 Hp.
  pose proof (distinct_timestamps_perm Hp Hd) as Hd2.
  apply (@sorted_perm_unique _
           (fun a b => order_key order a < order_key order b)).
  - intros a b Hab Hba. apply (Qlt_irrefl (order_key order a)).
    apply Qlt_trans with (order_key order b); assumption.
  - apply distinct_sorted_strict; assumption.
  - apply distinct_sorted_strict; assumption.
  - exact Hp.
Qed.

(** The frames of seconds 1, 2 and 3 have distinct timestamps, in whatever
    order. *)
Lemma frames_of_three_seconds :
  distinct_timestamps [frame_at 2; frame_at 1; frame_at 3].
Proof.
  split.
  - repeat constructor; cbn; intros H;
      repeat (destruct H as [H|H]; [discriminate|]); exact H.
  - intros a b Ha Hb.
    cbn in Ha, Hb.
    destruct Ha as [<-|[<-|[<-|[]]]]; destruct Hb as [<-|[<-|[<-|[]]]];
      intros E; try reflexivity; exfalso; vm_compute in E; discriminate.
Qed.

(** X7: in exact arithmetic, when no two frames of the store share a
    timestamp, the export does not depend on the order in which the store
    holds the frames: two stores with the same frames are sorted alike, and
    [downloadZip] does the same on both. *)
Theorem export_order_ignores_store_order :
  forall (host : ExportHost (T := Q)) (settings : ExportSettings Q)
         (frames frames' : list (CapturedFrame Q)),
    distinct_timestamps frames ->
    Permutation frames frames' ->
    sort (compareFrames (sortOrder settings)) frames
    = sort (compareFrames (sortOrder settings)) frames'
    /\ downloadZip host frames settings = downloadZip host frames' settings.
Proof.
  intros host settings frames frames' Hd Hp.
  assert (Hsort : sort (compareFrames (sortOrder settings)) frames
                  = sort (compareFrames (sortOrder settings)) frames').
  { apply (@sorted_frames_unique (sortOrder settings)).
    - apply distinct_timestamps_perm with frames; [apply sort_perm | exact Hd].
    - apply sortedFrames_in_order.
    - apply sortedFrames_in_order.
    - apply perm_trans with frames; [apply Permutation_sym, sort_perm|].
      apply perm_trans with frames'; [exact Hp | apply sort_perm]. }
  split; [exact Hsort|].
  unfold downloadZip. rewrite Hsort. reflexivity.
Qed.

Lemma export_order_ignores_store_order_witness :
  distinct_timestamps [frame_at 2; frame_at 1; frame_at 3]
  /\ Permutation [frame_at 2; frame_at 1; frame_at 3]
       [frame_at 3; frame_at 2; frame_at 1]
  /\ sort (compareFrames (sortOrder default_settings))
       [frame_at 2; frame_at 1; frame_at 3]
     = sort (compareFrames (sortOrder default_settings))
         [frame_at 3; frame_at 2; frame_at 1]
  /\ downloadZip healthy_host [frame_at 2; frame_at 1; frame_at 3]
       default_settings
     = downloadZip healthy_host [frame_at 3; frame_at 2; frame_at 1]
         default_settings.
Proof.
  assert (H1 : distinct_timestamps [frame_at 2; frame_at 1; frame_at 3])
    by exact frames_of_three_seconds.
  assert (H2 : Permutation [frame_at 2; frame_at 1; frame_at 3]
                 [frame_at 3; frame_at 2; frame_at 1]).
  { apply perm_trans with [frame_at 2; frame_at 3; frame_at 1].
    - apply perm_skip. apply perm_swap.
    - apply perm_swap. }
  split; [exact H1|]. split; [exact H2|].
  exact (@export_order_ignores_store_order healthy_host default_settings
           [frame_at 2; frame_at 1; frame_at 3]
           [frame_at 3; frame_at 2; frame_at 1] H1 H2).
Defined.

(** X8: in exact arithmetic, when no two frames of the store share a
    timestamp, the descending order is the ascending order reversed: the
    frame numbered [k] of [n] in one is numbered [n + 1 - k] in the
    other. *)
Theorem descending_export_reverses_ascending :
  forall frames : list (CapturedFrame Q),
    distinct_timestamps frames ->
    sort (compareFrames desc) frames = rev (sort (compareFrames asc) frames).
Proof.
  intros frames Hd.
  apply (@sorted_frames_unique desc).
  - apply distinct_timestamps_perm with frames; [apply sort_perm | exact Hd].
  - apply sortedFrames_in_order.
  - pose proof (sortedFrames_in_order asc frames) as Hs.
    apply StronglySorted_rev in Hs. exact Hs.
  - apply perm_trans with frames; [apply Permutation_sym, sort_perm|].
    apply perm_trans with (sort (compareFrames asc) frames);
      [apply sort_perm | apply Permutation_rev].
Qed.

Lemma descending_export_reverses_ascending_witness :
  distinct_timestamps [frame_at 2; frame_at 1; frame_at 3]
  /\ sort (compareFrames desc) [frame_at 2; frame_at 1; frame_at 3]
     = rev (sort (compareFrames asc) [frame_at 2; frame_at 1; frame_at 3]).
Proof.
  assert (H1 : distinct_timestamps [frame_at 2; frame_at 1; frame_at 3])
    by exact frames_of_three_seconds.
  split; [exact H1|].
  exact (@descending_export_reverses_ascending
           [frame_at 2; frame_at 1; frame_at 3] H1).
Defined.

(** Two frames of one timestamp: both orders keep them as the store has
    them, so the descending order is not the ascending one reversed. *)
Example equal_timestamps_keep_store_order :
  let a : CapturedFrame Q :=
    {| id := "a"; timestamp := 1; originalDataUrl := "data:a";
       width := 1; height := 1 |} in
  let b : CapturedFrame Q :=
    {| id := "b"; timestamp := 1; originalDataUrl := "data:b";
       width := 1; height := 1 |} in
  sort (compareFrames asc) [a; b] = [a; b]
  /\ sort (compareFrames desc) [a; b] = [a; b].
Proof. vm_compute. split; reflexivity. Qed.
End OrderFacts.

(* ================================================================== *)
(** * Further properties of detectVideoFPS *)
(* ================================================================== *)

Section DetectMore.
Import App.
Open Scope string_scope.

Section AnyArithmetic.
Context {T : Type} `{Number T}.

Lemma resolve_settles (fps : Z) (d : Detect (T := T)) :
  resolved (resolve fps d) <> None.
Proof.
  unfold resolve. destruct (resolved d) eqn:E; cbn; congruence.
Qed.

Lemma settled_finish (d : Detect (T := T)) : settled_in_time (finish d).
Proof.
  assert (Hr : resolved (finish d) <> None) by apply resolve_settles.
  assert (Ha : isAnalyzing (finish d) = false).
  { unfold finish, resolve. cbn. destruct (resolved d); reflexivity. }
  repeat split; auto.
Qed.

Lemma settled_step (d : Detect (T := T)) (ev : Event) :
  settled_in_time d -> settled_in_time (step d ev).
Proof.
  intros (Htimer & Hcount & Hoff). destruct ev as [|e|mediaTime|]; cbn [step].
  - destruct (playPending d); repeat split; auto.
  - destruct (playPending d); [|repeat split; auto].
    match goal with |- settled_in_time (resolve 30 ?d') => set (d1 := d') end.
    assert (Hr : resolved (resolve 30 d1) <> None) by apply resolve_settles.
    assert (Ha : isAnalyzing (resolve 30 d1) = false).
    { unfold resolve, d1. cbn. destruct (resolved d); reflexivity. }
    repeat split; auto.
  - destruct (handle d); [|repeat split; auto]. unfold callback.
    destruct (Nat.ltb_spec (frameCount d + 1) maxFrames) as [Hlt|Hge];
      [|apply settled_finish].
    repeat split; cbn; auto. intros Hmax. lia.
  - destruct (timer d) eqn:Ht; [|repeat split; auto].
    destruct (Nat.ltb_spec (frameCount d) maxFrames) as [Hlt|Hge];
      [apply settled_finish|].
    repeat split; cbn; auto.
Qed.

Lemma settled_run (events : list Event) :
  forall d : Detect (T := T),
    settled_in_time d -> settled_in_time (fold_left step events d).
Proof.
  induction events as [|ev events IH]; intros d Hd; [exact Hd|].
  cbn [fold_left]. apply IH. apply settled_step. exact Hd.
Qed.

Lemma settled_start (v : Video (T := T)) (supported : bool) :
  settled_in_time (detect_start v supported).
Proof.
  unfold settled_in_time, detect_start.
  destruct supported; cbn; repeat split; try congruence.
  unfold maxFrames. lia.
Qed.

(** The timer fires once. *)
Lemma timer_finish (d : Detect (T := T)) : timer (finish d) = timer d.
Proof. unfold finish, resolve. cbn. destruct (resolved d); reflexivity. Qed.

Lemma timer_stays_off (d : Detect (T := T)) (ev : Event) :
  timer d = false -> timer (step d ev) = false.
Proof.
  intros Ht. destruct ev as [|e|mediaTime|]; cbn [step].
  - destruct (playPending d); cbn; exact Ht.
  - destruct (playPending d); [|exact Ht].
    unfold resolve. cbn. destruct (resolved d); exact Ht.
  - destruct (handle d); [|exact Ht]. unfold callback.
    destruct (frameCount d + 1 <? maxFrames)%nat; [exact Ht|].
    rewrite timer_finish. exact Ht.
  - rewrite Ht. exact Ht.
Qed.

Lemma timer_off_after_deadline (d : Detect (T := T)) :
  timer (step d Deadline) = false.
Proof.
  cbn [step]. destruct (timer d) eqn:Ht; [|exact Ht].
  destruct (frameCount d <? maxFrames)%nat; [|reflexivity].
  rewrite timer_finish. reflexivity.
Qed.

Lemma deadline_turns_timer_off (events : list Event) :
  forall d : Detect (T := T),
    In Deadline events \/ timer d = false ->
    timer (fold_left step events d) = false.
Proof.
  induction events as [|ev events IH]; intros d Hd; cbn [fold_left].
  - destruct Hd as [[]|Ht]. exact Ht.
  - apply IH. destruct Hd as [[->|Hin]|Ht].
    + right. apply timer_off_after_deadline.
    + left. exact Hin.
    + right. apply timer_stays_off. exact Ht.
Qed.

Variable v : Video (T := T).

Lemma rejected_step (d : Detect) (ev : Event) :
  rejected_on v d -> rejected_on v (step d ev).
Proof.
  intros Hd. pose proof Hd as (Hp & Hh & Hc & Hw & Ht & Hm & He & Hr).
  destruct ev as [|e|mediaTime|]; cbn [step].
  - rewrite Hp. exact Hd.
  - rewrite Hp. exact Hd.
  - rewrite Hh. exact Hd.
  - destruct (timer d) eqn:Htimer; [|exact Hd].
    rewrite Hc. cbn [Nat.ltb Nat.leb maxFrames].
    unfold finish, resolve. cbn. rewrite Hr. cbn.
    repeat split; try assumption.
    intros _. rewrite Hw, Ht, Hm, negb_involutive.
    unfold with_paused, with_muted, with_currentTime. cbn.
    destruct v; reflexivity.
Qed.

Lemma rejected_run (events : list Event) :
  forall d, rejected_on v d -> rejected_on v (fold_left step events d).
Proof.
  induction events as [|ev events IH]; intros d Hd; [exact Hd|].
  cbn [fold_left]. apply IH. apply rejected_step. exact Hd.
Qed.
End AnyArithmetic.

(** X12: whatever the host does before and after, once the timer of 1.5 s
    has fired the promise of [detectVideoFPS] is settled and the analysis
    state is cleared: the measurement cannot stay pending. *)
Theorem detectVideoFPS_settles_by_deadline :
  forall (T : Type) (N : Number T) (v : Video (T := T)) (supported : bool)
         (events : list Event),
    In Deadline events ->
    resolved (detectVideoFPS v supported events) <> None
    /\ isAnalyzing (detectVideoFPS v supported events) = false.
Proof.
  intros T N v supported events Hin. unfold detectVideoFPS.
  destruct (@settled_run T N events _ (settled_start v supported))
    as (Htimer & _ & Hoff).
  assert (Hr : resolved (fold_left step events (detect_start v supported)) <> None).
  { apply Htimer. apply deadline_turns_timer_off. left. exact Hin. }
  split; [exact Hr | apply Hoff; exact Hr].
Qed.

(** Playback starts, a single frame is presented, the timer fires. *)
Lemma detectVideoFPS_settles_by_deadline_witness :
  In Deadline [PlayFulfilled; FrameDelivered (0 : Q); Deadline]
  /\ resolved
       (detectVideoFPS paused_at_5 true
          [PlayFulfilled; FrameDelivered (0 : Q); Deadline]) <> None
  /\ isAnalyzing
       (detectVideoFPS paused_at_5 true
          [PlayFulfilled; FrameDelivered (0 : Q); Deadline]) = false.
Proof.
  assert (H1 : In Deadline [PlayFulfilled; FrameDelivered (0 : Q); Deadline])
    by (right; right; left; reflexivity).
  split; [exact H1|].
  exact (@detectVideoFPS_settles_by_deadline Q Q_Number paused_at_5 true
           [PlayFulfilled; FrameDelivered (0 : Q); Deadline] H1).
Defined.

(** X14: when [video.play()] is rejected, the promise is settled with 30 on
    the element muted at time 0 (C9), and nothing else happens until the
    timer fires; once it has fired, the element is exactly as
    [detectVideoFPS] found it, whatever the host did meanwhile. *)
Theorem detectVideoFPS_rejected_autoplay_restored_at_deadline :
  forall (T : Type) (N : Number T) (v : Video (T := T)) (e : string)
         (events : list Event),
    In Deadline events ->
    element (detectVideoFPS v true (PlayRejected e :: events)) = v
    /\ resolved (detectVideoFPS v true (PlayRejected e :: events))
       = Some (30%Z, with_currentTime (nofZ 0) (with_muted true v)).
Proof.
  intros T N v e events Hin. unfold detectVideoFPS. cbn [fold_left].
  set (d1 := step (detect_start v true) (PlayRejected e)).
  assert (H1 : rejected_on v d1).
  { unfold d1, rejected_on. cbn. repeat split. discriminate. }
  destruct (rejected_run events H1) as (_ & _ & _ & _ & _ & _ & He & Hr).
  split; [|exact Hr].
  apply He. apply deadline_turns_timer_off. left. exact Hin.
Qed.

Lemma detectVideoFPS_rejected_autoplay_restored_at_deadline_witness :
  In Deadline [FrameDelivered (1 : Q); Deadline]
  /\ element
       (detectVideoFPS paused_at_5 true
          (PlayRejected "NotAllowedError" :: [FrameDelivered 1; Deadline]))
     = paused_at_5
  /\ resolved
       (detectVideoFPS paused_at_5 true
          (PlayRejected "NotAllowedError" :: [FrameDelivered 1; Deadline]))
     = Some (30%Z, with_currentTime (nofZ 0) (with_muted true paused_at_5)).
Proof.
  assert (H1 : In Deadline [FrameDelivered (1 : Q); Deadline])
    by (right; left; reflexivity).
  split; [exact H1|].
  exact (@detectVideoFPS_rejected_autoplay_restored_at_deadline Q Q_Number
           paused_at_5 "NotAllowedError" [FrameDelivered 1; Deadline] H1).
Defined.

(** ** The range of the estimate, in exact arithmetic *)

Lemma nth_of_sorted_deltas (deltas : list Q) :
  deltas <> [] ->
  In (nth (List.length (sort (fun a b : Q => nsub a b) deltas) / 2)
        (sort (fun a b : Q => nsub a b) deltas) (nofZ 0))
     deltas.
Proof.
  intros Hne.
  pose proof (sort_perm (fun a b : Q => nsub a b) deltas) as Hp.
  apply Permutation_in with (sort (fun a b : Q => nsub a b) deltas);
    [apply Permutation_sym; exact Hp|].
  apply nth_In.
  assert (Hlen : (0 < List.length (sort (fun a b : Q => nsub a b) deltas))%nat).
  { rewrite <- (Permutation_length Hp).
    destruct deltas; [contradiction | cbn; lia]. }
  apply Nat.div_lt; lia.
Qed.

Lemma round_of_inverse (m : Q) :
  1 # 1000 < m -> (0 <= Qfloor (1 / m + (1 # 2)) <= 1000)%Z.
Proof.
  intros Hm.
  assert (H0 : 0 < m) by (apply Qlt_trans with (1 # 1000); [reflexivity | exact Hm]).
  assert (Hinv : 0 < 1 / m).
  { unfold Qdiv. rewrite Qmult_1_l. apply Qinv_lt_0_compat. exact H0. }
  assert (Hup : 1 / m < 1000).
  { apply Qlt_shift_div_r; [exact H0|].
    setoid_replace (1 : Q) with (1000 * (1 # 1000)) by reflexivity.
    apply Qmult_lt_l; [reflexivity | exact Hm]. }
  split.
  - change 0%Z with (Qfloor 0). apply Qfloor_resp_le.
    apply Qlt_le_weak.
    setoid_replace (0 : Q) with (0 + 0) by reflexivity.
    apply Qplus_lt_le_compat; [exact Hinv | discriminate].
  - apply Z.lt_succ_r. apply Z.lt_nge. intros Hge.
    apply (Qlt_irrefl (inject_Z 1001)).
    apply Qle_lt_trans with (1 / m + (1 # 2)).
    + apply Qle_trans with (inject_Z (Qfloor (1 / m + (1 # 2)))).
      * rewrite <- Zle_Qle. exact Hge.
      * apply Qfloor_le.
    + apply Qlt_trans with (1000 + (1 # 2)).
      * apply Qplus_lt_le_compat; [exact Hup | apply Qle_refl].
      * reflexivity.
Qed.

Lemma estimate_range (deltas : list Q) :
  Forall (fun x => 1 # 1000 < x) deltas -> (0 <= estimate deltas <= 1000)%Z.
Proof.
  intros Hall. unfold estimate.
  destruct deltas as [|x deltas]; [cbn; lia|].
  cbn [List.length Nat.eqb].
  set (l := x :: deltas) in *.
  assert (Hin : In (nth (List.length (sort (fun a b : Q => nsub a b) l) / 2)
                      (sort (fun a b : Q => nsub a b) l) (nofZ 0)) l)
    by (apply nth_of_sorted_deltas; discriminate).
  rewrite Forall_forall in Hall. specialize (Hall _ Hin).
  set (m := nth _ _ _) in *.
  destruct (ngtb m (nofZ 0)); [|lia].
  cbn [ntoZ nround ndiv nofZ Q_Number]. rewrite Qtruncate_inject_Z.
  apply round_of_inverse. exact Hall.
Qed.

Lemma within_range_finish (d : Detect (T := Q)) :
  within_range d -> within_range (finish d).
Proof.
  intros (Hd & Hr). unfold within_range, finish, resolve. cbn.
  assert (Hsorted : Forall (fun x => 1 # 1000 < x)
                      (if (List.length (diffs d) =? 0)%nat then diffs d
                       else sort (fun a b : Q => nsub a b) (diffs d))).
  { destruct (List.length (diffs d) =? 0)%nat; [exact Hd|].
    apply Forall_forall. intros x Hx. rewrite Forall_forall in Hd. apply Hd.
    apply Permutation_in with (sort (fun a b : Q => nsub a b) (diffs d));
      [apply Permutation_sym, sort_perm | exact Hx]. }
  destruct (resolved d) as [[fps0 snap0]|] eqn:E; cbn.
  - split; [exact Hsorted|]. intros fps snap [= <- <-]. apply (Hr _ _ eq_refl).
  - split; [exact Hsorted|]. intros fps snap [= <- _].
    apply estimate_range. exact Hd.
Qed.

Lemma within_range_step (d : Detect (T := Q)) (ev : Event) :
  within_range d -> within_range (step d ev).
Proof.
  intros Hd. pose proof Hd as (Hdiffs & Hr).
  destruct ev as [|e|mediaTime|]; cbn [step].
  - destruct (playPending d); [|exact Hd]. split; assumption.
  - destruct (playPending d); [|exact Hd].
    unfold within_range, resolve. cbn.
    destruct (resolved d) as [[fps0 snap0]|] eqn:E; cbn.
    + split; [exact Hdiffs|]. intros fps snap [= <- <-]. apply (Hr _ _ eq_refl).
    + split; [exact Hdiffs|]. intros fps snap [= <- _]. lia.
  - destruct (handle d); [|exact Hd]. unfold callback.
    match goal with
    | |- within_range (if ?c then ?a else finish ?b) =>
        assert (Ha : within_range a)
    end.
    { split; [|exact Hr]. cbn [diffs].
      destruct (0 <? frameCount d)%nat; [|exact Hdiffs].
      destruct (ngtb (nsub mediaTime (lastMediaTime d)) nmilli) eqn:Hgt;
        [|exact Hdiffs].
      apply Forall_app. split; [exact Hdiffs|].
      constructor; [|constructor].
      apply negb_true_iff in Hgt.
      change (Qle_bool (mediaTime - lastMediaTime d) (1 # 1000) = false) in Hgt.
      change (1 # 1000 < mediaTime - lastMediaTime d).
      apply Qle_bool_false. exact Hgt. }
    destruct (frameCount d + 1 <? maxFrames)%nat;
      [exact Ha | apply within_range_finish; exact Ha].
  - destruct (timer d); [|exact Hd].
    match goal with
    | |- within_range (if ?c then finish ?a else ?b) =>
        assert (Ha : within_range a) by (split; assumption);
        destruct c; [apply within_range_finish; exact Ha | exact Ha]
    end.
Qed.

Lemma within_range_run (events : list Event) :
  forall d : Detect (T := Q),
    within_range d -> within_range (fold_left step events d).
Proof.
  induction events as [|ev events IH]; intros d Hd; [exact Hd|].
  cbn [fold_left]. apply IH. apply within_range_step. exact Hd.
Qed.

Lemma within_range_start (v : Video (T := Q)) (supported : bool) :
  within_range (detect_start v supported).
Proof.
  unfold within_range, detect_start.
  destruct supported; cbn; (split; [constructor|]); intros fps snap;
    [discriminate | intros [= <- _]; lia].
Qed.

(** X13: in exact arithmetic, whatever the host does, a frame rate that
    [detectVideoFPS] resolves is a whole number from 0 to 1000: only deltas
    above a millisecond are kept, so the guard [medianDelta > 0] always
    holds where it is evaluated. *)
Theorem detectVideoFPS_estimate_within_range :
  forall (v : Video (T := Q)) (supported : bool) (events : list Event)
         (fps : Z) (snap : Video),
    resolved (detectVideoFPS v supported events) = Some (fps, snap) ->
    (0 <= fps <= 1000)%Z.
Proof.
  intros v supported events fps snap Hres.
  destruct (within_range_run events (within_range_start v supported))
    as (_ & Hr).
  exact (Hr _ _ Hres).
Qed.

(** Three frames a thirtieth of a second apart. *)
Lemma detectVideoFPS_estimate_within_range_witness :
  resolved
    (detectVideoFPS paused_video true
       [PlayFulfilled; FrameDelivered 0; FrameDelivered (1 # 30);
        FrameDelivered (2 # 30); Deadline])
  = Some (30%Z, paused_video)
  /\ (0 <= 30 <= 1000)%Z.
Proof.
  assert (H1 : resolved
                 (detectVideoFPS paused_video true
                    [PlayFulfilled; FrameDelivered 0; FrameDelivered (1 # 30);
                     FrameDelivered (2 # 30); Deadline])
               = Some (30%Z, paused_video))
    by (vm_compute; reflexivity).
  split; [exact H1|].
  exact (@detectVideoFPS_estimate_within_range paused_video true
           [PlayFulfilled; FrameDelivered 0; FrameDelivered (1 # 30);
            FrameDelivered (2 # 30); Deadline]
           30%Z paused_video H1).
Defined.
End DetectMore.

(* ================================================================== *)
(** * Further properties of startAutoCapture *)
(* ================================================================== *)

Section SchedulerMore.
Import Types Utils App.
Context {T : Type} `{Number T}.
Variable host : CaptureHost (T := T).
Variables start end_ interval : T.

Lemma kept_refl (s : State (T := T)) : kept s s.
Proof. split; [apply untouched_refl | split; reflexivity]. Qed.

Lemma kept_trans (s1 s2 s3 : State (T := T)) :
  kept s1 s2 -> kept s2 s3 -> kept s1 s3.
Proof.
  intros (Hu & Hp & Hm) (Hu' & Hp' & Hm').
  split; [eapply untouched_trans; eassumption|].
  split; congruence.
Qed.

Lemma iteration_kept (i : nat) (loc : Locals) (s : State)
    (r : Outcome Locals) (s' : State) :
  iteration host start end_ interval i loc s = (r, s') -> kept s s'.
Proof.
  intros Hit.
  split; [exact (@iteration_untouched T _ host start end_ interval i loc s r s' Hit)|].
  rewrite iteration_eq in Hit.
  destruct (canvas (shot host i loc)) as [|e|u];
    [| |destruct (String.eqb u (lastDataUrl loc))];
    injection Hit as _ <-; cbn; destruct (video s); split; reflexivity.
Qed.

(** If [stop] is set while iteration [i + k] is suspended, and the loop gets
    there, the loop returns after that iteration, with whatever invariant it
    was entered with. *)
Lemma capture_loop_stops
    (Inv : nat -> Locals (T := T) -> State (T := T) -> Prop) (k : nat) :
  (forall i loc s loc2 s2,
     Inv i loc s ->
     nleb (currentTimeLoop loc) end_ = true ->
     stop s = false ->
     iteration host start end_ interval i loc s = (Returned loc2, s2) ->
     Inv (Datatypes.S i) loc2 s2) ->
  forall fuel i loc s,
    Inv i loc s ->
    (k + 1 < fuel)%nat ->
    stop s = false ->
    (forall j, (j <= k)%nat ->
       nleb (sample (currentTimeLoop loc) interval j) end_ = true) ->
    (forall j, (j < k)%nat -> stopPressed host (i + j) = false) ->
    stopPressed host (i + k) = true ->
    (forall j e, (j <= k)%nat ->
       canvas (seeked host (i + j) (sample (currentTimeLoop loc) interval j))
       <> Raised e) ->
    exists loc' s',
      capture_loop host start end_ interval fuel i loc s = (Returned loc', s')
      /\ Inv (i + k + 1)%nat loc' s'
      /\ stop s' = true.
Proof.
  intros Hstep.
  induction k as [|k IH]; intros fuel i loc s HI Hfuel Hstop Hle Hpress Hlast Hok;
    (destruct fuel as [|fuel]; [lia|]); rewrite capture_loop_eq;
    assert (Hnow : nleb (currentTimeLoop loc) end_ = true)
      by (apply (Hle 0%nat); lia);
    rewrite Hnow, Hstop;
    (destruct (@iteration_returns T _ host start end_ interval i loc s)
       as (loc2 & s2 & Hit);
     [intros e; unfold shot; specialize (Hok 0%nat e ltac:(lia));
      rewrite Nat.add_0_r in Hok; exact Hok|]);
    rewrite Hit;
    pose proof (@iteration_stop T _ host start end_ interval i loc loc2 s s2 Hit)
      as Hst;
    pose proof (Hstep i loc s loc2 s2 HI Hnow Hstop Hit) as HI2.
  - rewrite Nat.add_0_r in Hlast. rewrite Hstop, Hlast in Hst. cbn [orb] in Hst.
    destruct fuel as [|fuel]; [lia|]. rewrite capture_loop_eq, Hst.
    exists loc2, s2.
    replace (i + 0 + 1)%nat with (Datatypes.S i) by lia.
    destruct (nleb (currentTimeLoop loc2) end_); auto.
  - pose proof (@iteration_advances T _ host start end_ interval i loc loc2 s s2 Hit)
      as Hadv.
    assert (Hp0 : stopPressed host i = false).
    { specialize (Hpress 0%nat ltac:(lia)).
      rewrite Nat.add_0_r in Hpress. exact Hpress. }
    rewrite Hstop, Hp0 in Hst. cbn [orb] in Hst.
    destruct (IH fuel (Datatypes.S i) loc2 s2) as (loc' & s' & Hrun & HI' & Hs');
      try assumption.
    + lia.
    + intros j Hj. rewrite Hadv, sample_shift. apply Hle. lia.
    + intros j Hj.
      replace (Datatypes.S i + j)%nat with (i + Datatypes.S j)%nat by lia.
      apply Hpress. lia.
    + replace (Datatypes.S i + k)%nat with (i + Datatypes.S k)%nat by lia.
      exact Hlast.
    + intros j e Hj. rewrite Hadv, sample_shift.
      replace (Datatypes.S i + j)%nat with (i + Datatypes.S j)%nat by lia.
      apply Hok. lia.
    + exists loc', s'. split; [exact Hrun|]. split; [|exact Hs'].
      replace (i + Datatypes.S k + 1)%nat with (Datatypes.S i + k + 1)%nat by lia.
      exact HI'.
Qed.
End SchedulerMore.

Section SchedulerMoreClaims.
Import Types Utils App.
Open Scope string_scope.

(** X15: for a start that is a finite number, an error thrown while drawing
    or encoding never leaves [startAutoCapture], and however the run returns
    (the range exhausted, [stop] set, or the error caught), it leaves the
    component out of the capturing state with the modal closed, the video
    paused at [start] with its sound as it was and [isPlaying] false, and
    the store holding all it held before, behind whatever the run merged;
    settings, export state, alerts and downloads are untouched. *)
Theorem startAutoCapture_always_cleans_up :
  forall (T : Type) (N : Number T) (host : CaptureHost (T := T))
         (start end_ interval : T) (fuel : nat) (s : State),
    video s <> None ->
    isFinite start = true ->
    let r := startAutoCapture host start end_ interval fuel s in
    (forall e, fst r <> Threw e)
    /\ (fst r = Returned tt ->
        isAutoCapturing (snd r) = false
        /\ isAutoCaptureModalOpen (snd r) = false
        /\ isPlaying (snd r) = false
        /\ option_map (@paused T) (video (snd r)) = Some true
        /\ option_map (@currentTime T) (video (snd r)) = Some start
        /\ option_map (@muted T) (video (snd r)) = option_map (@muted T) (video s)
        /\ (exists batch, frames (snd r) = (batch ++ frames s)%list)
        /\ settings (snd r) = settings s
        /\ isProcessing (snd r) = isProcessing s
        /\ alerts (snd r) = alerts s
        /\ downloads (snd r) = downloads s).
Proof.
  intros T N host start end_ interval fuel s Hvideo _. cbv zeta.
  rewrite (@startAutoCapture_eq T N host start end_ interval fuel s Hvideo).
  destruct (capture_loop host start end_ interval fuel 0 (entry start) (prelude s))
    as [r s1] eqn:Hrun.
  pose proof (@capture_loop_invariant T N host start end_ interval
                (fun _ _ s1 => kept (prelude s) s1)) as Hinv.
  specialize (Hinv (fun i loc s0 loc2 s2 HI _ _ Hit =>
                      kept_trans HI
                        (@iteration_kept T N host start end_ interval i loc s0
                           (Returned loc2) s2 Hit))).
  specialize (Hinv fuel 0%nat (entry start) (prelude s) r s1
                (kept_refl (prelude s)) Hrun).
  destruct (video s) as [v|] eqn:Ev; [clear Hvideo | contradiction].
  assert (Hfinal :
            forall s2 : State (T := T),
              kept (prelude s) s2 ->
              forall batch (s3 : State (T := T)),
                frames s3 = (batch ++ frames s2)%list ->
                isAutoCapturing s3 = false ->
                isAutoCaptureModalOpen s3 = false ->
                isPlaying s3 = isPlaying s2 ->
                video s3 = option_map (with_currentTime start) (video s2) ->
                settings s3 = settings s2 ->
                isProcessing s3 = isProcessing s2 ->
                alerts s3 = alerts s2 ->
                downloads s3 = downloads s2 ->
                isAutoCapturing s3 = false
                /\ isAutoCaptureModalOpen s3 = false
                /\ isPlaying s3 = false
                /\ option_map (@paused T) (video s3) = Some true
                /\ option_map (@currentTime T) (video s3) = Some start
                /\ option_map (@muted T) (video s3) = Some (muted v)
                /\ (exists batch, frames s3 = (batch ++ frames s)%list)
                /\ settings s3 = settings s
                /\ isProcessing s3 = isProcessing s
                /\ alerts s3 = alerts s
                /\ downloads s3 = downloads s).
  { intros s2 ((Hfr & Hpl & Hpr & _ & _ & Hse & _ & Hal & Hdo & _) & Hpa & Hmu)
           batch s3 Hf Hac Hmo Hp Hv Hs Hpc Ha Hd.
    cbn in Hfr, Hpl, Hpr, Hse, Hal, Hdo, Hpa, Hmu. rewrite Ev in Hpa, Hmu.
    cbn in Hpa, Hmu.
    destruct (video s2) as [v2|] eqn:Ev2; [|discriminate].
    cbn in Hpa, Hmu. rewrite Hv. cbn.
    split; [exact Hac|]. split; [exact Hmo|]. split; [congruence|].
    split; [exact Hpa|]. split; [reflexivity|]. split; [exact Hmu|].
    split; [exists batch; congruence|].
    repeat split; congruence. }
  destruct r as [loc|e| |]; cbn [fst snd].
  - split; [discriminate|]. intros _.
    destruct Hinv as (i & HI & _).
    apply (Hfinal s1 HI (rev (newFrames loc))); reflexivity.
  - split; [discriminate|]. intros _.
    destruct Hinv as (i & loc1 & s0 & HI & _ & _ & Hit).
    apply (Hfinal s1
             (kept_trans HI
                (@iteration_kept T N host start end_ interval i loc1 s0
                   (Threw e) s1 Hit)) []);
      reflexivity.
  - contradiction.
  - split; discriminate.
Qed.

(** The run whose third iteration throws. *)
Lemma startAutoCapture_always_cleans_up_witness :
  video one_capture <> None
  /\ isFinite (0 : Q) = true
  /\ let r := startAutoCapture (faulty_host 2) 0 9 1 11 one_capture in
     (forall e, fst r <> Threw e)
     /\ (fst r = Returned tt ->
         isAutoCapturing (snd r) = false
         /\ isAutoCaptureModalOpen (snd r) = false
         /\ isPlaying (snd r) = false
         /\ option_map (@paused Q) (video (snd r)) = Some true
         /\ option_map (@currentTime Q) (video (snd r)) = Some 0
         /\ option_map (@muted Q) (video (snd r))
            = option_map (@muted Q) (video one_capture)
         /\ (exists batch, frames (snd r) = (batch ++ frames one_capture)%list)
         /\ settings (snd r) = settings one_capture
         /\ isProcessing (snd r) = isProcessing one_capture
         /\ alerts (snd r) = alerts one_capture
         /\ downloads (snd r) = downloads one_capture).
Proof.
  assert (H1 : video one_capture <> None) by discriminate.
  assert (H2 : isFinite (0 : Q) = true) by reflexivity.
  split; [exact H1|]. split; [exact H2|].
  exact (@startAutoCapture_always_cleans_up Q Q_Number (faulty_host 2)
           0 9 1 11%nat one_capture H1 H2).
Defined.

(** X16: whatever the value of the [stop] flag before the run, when it is
    set while iteration [k] is suspended (and the loop gets there without an
    error, at times that are finite numbers), that iteration is the last: the run has made [k + 1] seeks, and
    it ends as a complete run does, merging the frames that the iterations
    up to [k] accepted, latest first, in front of the store and reporting a
    progress of 100, with the flag left set. *)
Theorem startAutoCapture_stops_after_the_iteration :
  forall (T : Type) (N : Number T) (host : CaptureHost (T := T))
         (start end_ interval : T) (k fuel : nat) (s : State),
    video s <> None ->
    (forall j, (j <= k)%nat -> isFinite (sample start interval j) = true) ->
    (forall j, (j <= k)%nat -> nleb (sample start interval j) end_ = true) ->
    (forall j, (j < k)%nat -> stopPressed host j = false) ->
    stopPressed host k = true ->
    (forall j e, (j <= k)%nat ->
       canvas (seeked host j (sample start interval j)) <> Raised e) ->
    (k + 1 < fuel)%nat ->
    exists s',
      startAutoCapture host start end_ interval fuel s = (Returned tt, s')
      /\ seeks s'
         = (rev (map (sample start interval) (seq 0 (k + 1))) ++ seeks s)%list
      /\ frames s'
         = (rev (fst (accepted_before host start interval (k + 1)))
              ++ frames s)%list
      /\ autoCaptureCount s'
         = List.length (fst (accepted_before host start interval (k + 1)))
      /\ autoCaptureProgress s' = nofZ 100
      /\ stop s' = true.
Proof.
  intros T N host start end_ interval k fuel s Hvideo _ Hle Hpress Hlast Hok
         Hfuel.
  destruct (@capture_loop_stops T N host start end_ interval
              (collecting host start end_ interval (prelude s)) k
              (fun i loc s0 loc2 s2 =>
                 @collecting_iteration T N host start end_ interval (prelude s)
                   i loc s0 loc2 s2)
              fuel 0%nat (entry start) (prelude s)
              (collecting_prelude host start end_ interval s) Hfuel eq_refl)
    as (loc & s1 & Hrun & HI & Hstop); try assumption.
  rewrite (@startAutoCapture_eq T N host start end_ interval fuel s Hvideo), Hrun.
  destruct HI as (((Hfr & _) & _ & Hcount & Hseeks & _) & Hfs & _).
  cbn [Nat.add] in Hfs. rewrite <- Hfs.
  eexists. split; [reflexivity|]. cbn.
  split; [exact Hseeks|]. split; [rewrite Hfr; reflexivity|].
  split; [exact Hcount|]. split; [reflexivity | exact Hstop].
Qed.

(** Ten sample points, [stop] set during the third iteration, and set
    already before the run. *)
Lemma startAutoCapture_stops_after_the_iteration_witness :
  video (setStop true one_capture) <> None
  /\ (forall j, (j <= 2)%nat -> isFinite (sample (0 : Q) 1 j) = true)
  /\ (forall j, (j <= 2)%nat -> nleb (sample (0 : Q) 1 j) 9 = true)
  /\ (forall j, (j < 2)%nat -> stopPressed (distinct_host (T := Q) (Some 2%nat)) j = false)
  /\ stopPressed (distinct_host (T := Q) (Some 2%nat)) 2 = true
  /\ (forall j e, (j <= 2)%nat ->
        canvas (seeked (distinct_host (Some 2%nat)) j (sample (0 : Q) 1 j))
        <> Raised e)
  /\ (2 + 1 < 11)%nat
  /\ exists s',
       startAutoCapture (distinct_host (Some 2%nat)) 0 9 1 11
         (setStop true one_capture)
       = (Returned tt, s')
       /\ seeks s'
          = (rev (map (sample 0 1) (seq 0 (2 + 1)))
               ++ seeks (setStop true one_capture))%list
       /\ frames s'
          = (rev (fst (accepted_before (distinct_host (Some 2%nat)) 0 1 (2 + 1)))
               ++ frames (setStop true one_capture))%list
       /\ autoCaptureCount s'
          = List.length
              (fst (accepted_before (distinct_host (T := Q) (Some 2%nat)) 0 1
                      (2 + 1)))
       /\ autoCaptureProgress s' = nofZ 100
       /\ stop s' = true.
Proof.
  assert (H1 : video (setStop true one_capture) <> None) by discriminate.
  assert (H2 : forall j, (j <= 2)%nat -> nleb (sample (0 : Q) 1 j) 9 = true).
  { intros j Hj. destruct j as [|[|[|j]]]; try reflexivity. lia. }
  assert (H3 : forall j, (j < 2)%nat ->
                 stopPressed (distinct_host (T := Q) (Some 2%nat)) j = false).
  { intros j Hj. destruct j as [|[|j]]; try reflexivity. lia. }
  assert (H4 : stopPressed (distinct_host (T := Q) (Some 2%nat)) 2 = true)
    by reflexivity.
  assert (H5 : forall j e, (j <= 2)%nat ->
                 canvas (seeked (distinct_host (Some 2%nat)) j (sample (0 : Q) 1 j))
                 <> Raised e)
    by (intros j e _; discriminate).
  assert (H6 : (2 + 1 < 11)%nat) by lia.
  assert (H7 : forall j, (j <= 2)%nat -> isFinite (sample (0 : Q) 1 j) = true)
    by (intros j _; apply isFinite_Q).
  split; [exact H1|]. split; [exact H7|]. split; [exact H2|]. split; [exact H3|].
  split; [exact H4|]. split; [exact H5|]. split; [exact H6|].
  exact (@startAutoCapture_stops_after_the_iteration Q Q_Number
           (distinct_host (Some 2%nat)) 0 9 1 2%nat 11%nat
           (setStop true one_capture) H1 H7 H2 H3 H4 H5 H6).
Defined.

(** In exact arithmetic a step that is not positive never takes the time past
    [end_]. *)
Lemma capture_loop_without_progress
    (host : CaptureHost (T := Q)) (start end_ interval : Q) (fuel : nat) :
  interval <= 0 ->
  (forall i t e, canvas (seeked host i t) <> Raised e) ->
  (forall i, stopPressed host i = false) ->
  forall i loc s,
    currentTimeLoop loc <= end_ ->
    stop s = false ->
    fst (capture_loop host start end_ interval fuel i loc s) = Unfinished.
Proof.
  intros Hint Hok Hpress.
  induction fuel as [|fuel IH]; intros i loc s Hle Hstop; [reflexivity|].
  rewrite capture_loop_eq.
  assert (Hnow : nleb (currentTimeLoop loc) end_ = true)
    by (apply Qle_bool_iff; exact Hle).
  rewrite Hnow, Hstop.
  destruct (@iteration_returns Q _ host start end_ interval i loc s)
    as (loc2 & s2 & Hit); [intros e; apply Hok|].
  rewrite Hit. apply IH.
  - rewrite (@iteration_advances Q _ host start end_ interval i loc loc2 s s2 Hit).
    cbn [nadd Q_Number].
    apply Qle_trans with (currentTimeLoop loc + 0).
    + apply Qplus_le_r. exact Hint.
    + rewrite Qplus_0_r. exact Hle.
  - rewrite (@iteration_stop Q _ host start end_ interval i loc loc2 s s2 Hit).
    rewrite Hstop, Hpress. reflexivity.
Qed.

(** X17: in exact arithmetic, with an interval that is zero or negative and
    a start not after the end, a run that meets no error and no [stop]
    never leaves its loop: whatever bound is put on the number of
    iterations, the run has not returned within it.  The handler itself
    does not check the interval. *)
Theorem startAutoCapture_needs_positive_interval :
  forall (host : CaptureHost (T := Q)) (start end_ interval : Q)
         (fuel : nat) (s : State),
    video s <> None ->
    start <= end_ ->
    interval <= 0 ->
    (forall i t e, canvas (seeked host i t) <> Raised e) ->
    (forall i, stopPressed host i = false) ->
    fst (startAutoCapture host start end_ interval fuel s) = Unfinished.
Proof.
  intros host start end_ interval fuel s Hvideo Hrange Hint Hok Hpress.
  rewrite (@startAutoCapture_eq Q _ host start end_ interval fuel s Hvideo).
  pose proof (@capture_loop_without_progress host start end_ interval fuel
                Hint Hok Hpress 0%nat (entry start) (prelude s) Hrange eq_refl)
    as Hloop.
  destruct (capture_loop host start end_ interval fuel 0 (entry start) (prelude s))
    as [[loc|e| |] s1]; cbn in Hloop; try discriminate. reflexivity.
Qed.

Lemma startAutoCapture_needs_positive_interval_witness :
  video one_capture <> None
  /\ 0 <= 1
  /\ 0 <= 0
  /\ (forall i t e, canvas (seeked (distinct_host (T := Q) None) i t) <> Raised e)
  /\ (forall i, stopPressed (distinct_host (T := Q) None) i = false)
  /\ fst (startAutoCapture (distinct_host None) 0 1 0 1000 one_capture)
     = Unfinished.
Proof.
  assert (H1 : video one_capture <> None) by discriminate.
  assert (H2 : 0 <= 1) by discriminate.
  assert (H3 : 0 <= 0) by discriminate.
  assert (H4 : forall i t e,
                 canvas (seeked (distinct_host (T := Q) None) i t) <> Raised e)
    by (intros i t e; discriminate).
  assert (H5 : forall i, stopPressed (distinct_host (T := Q) None) i = false)
    by reflexivity.
  split; [exact H1|]. split; [exact H2|]. split; [exact H3|].
  split; [exact H4|]. split; [exact H5|].
  exact (@startAutoCapture_needs_positive_interval (distinct_host None)
           0 1 0 1000%nat one_capture H1 H2 H3 H4 H5).
Defined.
End SchedulerMoreClaims.

(* ================================================================== *)
(** * Properties of the batch modal *)
(* ================================================================== *)

Section ModalFacts.
Import Types Utils App.
Open Scope string_scope.

(** In exact arithmetic the start button is enabled only for a positive
    interval and a start not after the end. *)
Lemma start_enabled_inv (startTime endTime interval : Q) :
  Modal.startDisabled startTime endTime interval = false ->
  0 < interval /\ startTime <= endTime.
Proof.
  unfold Modal.startDisabled, Modal.estimatedScans, ngtb.
  destruct (nltb (nofZ 0) interval) eqn:E; [|discriminate].
  apply nltb_Q_true in E. change (nofZ 0) with (0 : Q) in E.
  cbn [nleb nadd nfloor ndiv nsub nofZ Q_Number].
  rewrite <- inject_Z_plus, Qle_bool_false, <- Zlt_Qlt.
  intros Hpos. split; [exact E|].
  assert (Hq : 0 <= (endTime - startTime) / interval).
  { apply Qnot_lt_le. intros Hneg.
    assert (Hf : (Qfloor ((endTime - startTime) / interval) < 0)%Z).
    { apply Z.lt_nge. intros Hge.
      apply (Qlt_irrefl 0).
      apply Qle_lt_trans with ((endTime - startTime) / interval); [|exact Hneg].
      apply Qle_trans with (inject_Z (Qfloor ((endTime - startTime) / interval))).
      - change (0 : Q) with (inject_Z 0). rewrite <- Zle_Qle. exact Hge.
      - apply Qfloor_le. }
    lia. }
  apply Qmult_le_compat_r with (z := interval) in Hq;
    [|apply Qlt_le_weak; exact E].
  rewrite Qmult_0_l in Hq. unfold Qdiv in Hq.
  rewrite <- Qmult_assoc, (Qmult_comm (/ interval)), Qmult_inv_r, Qmult_1_r in Hq.
  - unfold Qminus in Hq. rewrite <- Qle_minus_iff in Hq. exact Hq.
  - intros E0. rewrite E0 in E. apply (Qlt_irrefl 0). exact E.
Qed.

Lemma quotient_nonneg (startTime endTime interval : Q) :
  0 < interval -> startTime <= endTime ->
  (0 <= Qfloor ((endTime - startTime) / interval))%Z.
Proof.
  intros Hint Hrange. apply Qfloor_nonneg.
  apply Qle_shift_div_l; [exact Hint|]. rewrite Qmult_0_l.
  unfold Qminus. rewrite <- Qle_minus_iff. exact Hrange.
Qed.

(** X21: in exact arithmetic the start button of the modal is enabled
    exactly when the interval is positive and the start time is not after
    the end time. *)
Theorem modal_start_enabled_iff :
  forall startTime endTime interval : Q,
    Modal.startDisabled startTime endTime interval = false
    <-> 0 < interval /\ startTime <= endTime.
Proof.
  intros startTime endTime interval. split; [apply start_enabled_inv|].
  intros (Hint & Hrange).
  pose proof (quotient_nonneg Hint Hrange) as Hq.
  unfold Modal.startDisabled, Modal.estimatedScans, ngtb.
  assert (E : nltb (nofZ 0) interval = true) by (apply nltb_Q_true; exact Hint).
  rewrite E. cbn [nleb nadd nfloor ndiv nsub nofZ Q_Number].
  rewrite <- inject_Z_plus. apply Qle_bool_false. rewrite <- Zlt_Qlt. lia.
Qed.

(** X23: in exact arithmetic, whatever frame rate the measurement resolved,
    the modal that [App] then renders opens on the whole range with a rate
    from 1 to 1000 frames per second, the measured one unless that is 0, in
    which case it is 30; and with the interval [1 / fps], between a
    millisecond and a second. *)
Theorem modal_opens_with_usable_rate :
  forall (v : Video (T := Q)) (supported : bool) (events : list Event)
         (rate : Z) (snap : Video) (duration : Q),
    resolved (detectVideoFPS v supported events) = Some (rate, snap) ->
    let m := Modal.onOpen duration (detectedFps_prop (Some rate)) in
    Modal.fps m = inject_Z (if (rate =? 0)%Z then 30 else rate)
    /\ 1 <= Modal.fps m /\ Modal.fps m <= 1000
    /\ Modal.interval m = 1 / Modal.fps m
    /\ 1 # 1000 <= Modal.interval m /\ Modal.interval m <= 1
    /\ Modal.startTime m = 0 /\ Modal.endTime m = duration.
Proof.
  intros v supported events rate snap duration Hres. cbv zeta.
  destruct (within_range_run events (within_range_start v supported))
    as (_ & Hr).
  specialize (Hr _ _ Hres).
  assert (Hrange : forall r : Z, (1 <= r <= 1000)%Z ->
            1 <= inject_Z r /\ inject_Z r <= 1000
            /\ 1 # 1000 <= 1 / inject_Z r /\ 1 / inject_Z r <= 1).
  { intros r Hr'.
    assert (H1 : 1 <= inject_Z r)
      by (change (1 : Q) with (inject_Z 1); rewrite <- Zle_Qle; lia).
    assert (H2 : inject_Z r <= 1000)
      by (change (1000 : Q) with (inject_Z 1000); rewrite <- Zle_Qle; lia).
    assert (H0 : 0 < inject_Z r)
      by (apply Qlt_le_trans with 1; [reflexivity | exact H1]).
    split; [exact H1|]. split; [exact H2|]. split.
    - apply Qle_shift_div_l; [exact H0|].
      apply Qle_trans with ((1 # 1000) * 1000); [|discriminate].
      apply Qmult_le_l; [reflexivity | exact H2].
    - apply Qle_shift_div_r; [exact H0|]. rewrite Qmult_1_l. exact H1. }
  unfold detectedFps_prop, detected, Modal.onOpen.
  destruct (Z.eqb_spec rate 0) as [->|Hne]; cbn [negb].
  - cbn [Modal.fps Modal.interval Modal.startTime Modal.endTime
         nofZ ndiv Q_Number].
    destruct (Hrange 30%Z ltac:(lia)) as (H1 & H2 & H3 & H4).
    repeat split; assumption.
  - destruct (Z.eqb_spec rate 0) as [E|_]; [contradiction|]. cbn [negb].
    cbn [Modal.fps Modal.interval Modal.startTime Modal.endTime
         nofZ ndiv Q_Number].
    destruct (Hrange rate ltac:(lia)) as (H1 & H2 & H3 & H4).
    repeat split; assumption.
Qed.

(** The measurement that resolves 0 (two frames two and a half seconds
    apart): the modal opens at 30 frames per second. *)
Lemma modal_opens_with_usable_rate_witness :
  resolved
    (detectVideoFPS paused_video true
       [PlayFulfilled; FrameDelivered 0; FrameDelivered (5 # 2); Deadline])
  = Some (0%Z, paused_video)
  /\ let m := Modal.onOpen (10 : Q) (detectedFps_prop (Some 0%Z)) in
     Modal.fps m = inject_Z (if (0 =? 0)%Z then 30 else 0)
     /\ 1 <= Modal.fps m /\ Modal.fps m <= 1000
     /\ Modal.interval m = 1 / Modal.fps m
     /\ 1 # 1000 <= Modal.interval m /\ Modal.interval m <= 1
     /\ Modal.startTime m = 0 /\ Modal.endTime m = 10.
Proof.
  assert (H1 : resolved
                 (detectVideoFPS paused_video true
                    [PlayFulfilled; FrameDelivered 0; FrameDelivered (5 # 2);
                     Deadline])
               = Some (0%Z, paused_video))
    by (vm_compute; reflexivity).
  split; [exact H1|].
  exact (@modal_opens_with_usable_rate paused_video true
           [PlayFulfilled; FrameDelivered 0; FrameDelivered (5 # 2); Deadline]
           0%Z paused_video 10 H1).
Defined.
End ModalFacts.

(* ================================================================== *)
(** * Properties of the player controls, the gallery and the batch button *)
(* ================================================================== *)

Section PlayerFacts.
Import Types Utils App.
Open Scope handler_scope.

(** X18: in exact arithmetic, with a duration that is not negative, [seek]
    always returns and leaves the position within the video: at the
    position plus the step when that is between 0 and the duration, at 0
    when it is below, at the duration when it is above. *)
Theorem seek_stays_within_duration :
  forall (duration seconds : Q) (s : State) (v : Video),
    video s = Some v ->
    0 <= duration ->
    exists t,
      seek duration seconds s = (Returned tt, onVideo (with_currentTime t) s)
      /\ 0 <= t /\ t <= duration
      /\ (0 <= currentTime v + seconds ->
          currentTime v + seconds <= duration ->
          t == currentTime v + seconds)
      /\ (currentTime v + seconds < 0 -> t == 0)
      /\ (duration < currentTime v + seconds -> t == duration).
Proof.
  intros duration seconds s v Hv Hd.
  unfold seek, bind, get. rewrite Hv.
  unfold set_currentTime. rewrite isFinite_Q, Math_max_Q, Math_min_Q.
  cbn [nadd nofZ Q_Number]. change (inject_Z 0) with (0 : Q).
  set (x := currentTime v + seconds).
  set (m := if negb (Qle_bool duration x) then x else duration).
  set (t := if negb (Qle_bool m 0) then m else 0).
  exists t. split; [reflexivity|].
  assert (Hm : m <= duration /\ (x <= duration -> m == x)
               /\ (duration < x -> m == duration)).
  { unfold m. destruct (Qle_bool duration x) eqn:E; cbn [negb].
    - apply Qle_bool_iff in E. split; [apply Qle_refl|]. split.
      + intros Hle. apply Qle_antisym; assumption.
      + reflexivity.
    - apply Qle_bool_false in E. split; [apply Qlt_le_weak; exact E|]. split.
      + reflexivity.
      + intros Hlt. exfalso. apply (Qlt_irrefl x).
        apply Qlt_trans with duration; assumption. }
  destruct Hm as (Hm1 & Hm2 & Hm3).
  unfold t. destruct (Qle_bool m 0) eqn:E; cbn [negb].
  - apply Qle_bool_iff in E.
    split; [apply Qle_refl|]. split; [exact Hd|]. split; [|split].
    + intros H0 Hle. rewrite <- (Hm2 Hle). apply Qle_antisym; [|exact E].
      rewrite (Hm2 Hle). exact H0.
    + reflexivity.
    + intros Hlt. rewrite <- (Hm3 Hlt). apply Qle_antisym; [|exact E].
      rewrite (Hm3 Hlt). exact Hd.
  - apply Qle_bool_false in E.
    split; [apply Qlt_le_weak; exact E|]. split; [exact Hm1|]. split; [|split].
    + intros _ Hle. exact (Hm2 Hle).
    + intros Hneg. exfalso.
      assert (Hx : x <= duration)
        by (apply Qle_trans with 0; [apply Qlt_le_weak; exact Hneg | exact Hd]).
      apply (Qlt_irrefl 0). apply Qlt_trans with m; [exact E|].
      rewrite (Hm2 Hx). exact Hneg.
    + exact Hm3.
Qed.

(** One second back from the start of a video of ten seconds. *)
Lemma seek_stays_within_duration_witness :
  video one_capture = Some paused_video
  /\ 0 <= 10
  /\ exists t,
       seek 10 (- (1)) one_capture
       = (Returned tt, onVideo (with_currentTime t) one_capture)
       /\ 0 <= t /\ t <= 10
       /\ (0 <= currentTime paused_video + - (1) ->
           currentTime paused_video + - (1) <= 10 ->
           t == currentTime paused_video + - (1))
       /\ (currentTime paused_video + - (1) < 0 -> t == 0)
       /\ (10 < currentTime paused_video + - (1) -> t == 10).
Proof.
  assert (H1 : video one_capture = Some paused_video) by reflexivity.
  assert (H2 : 0 <= 10) by discriminate.
  split; [exact H1|]. split; [exact H2|].
  exact (@seek_stays_within_duration 10 (- (1)) one_capture paused_video H1 H2).
Defined.

(** X19: in exact arithmetic [changeSpeed] always selects one of the five
    preset speeds; from a preset it selects the next one, and the first
    after the last, so that five presses, and no fewer, return to the speed
    they started from; and from a speed that is not a preset it selects
    0.25. *)
Theorem changeSpeed_cycles_through_presets :
  forall playbackSpeed : Q,
    In (changeSpeed playbackSpeed) speeds
    /\ (forall i, (i < 5)%nat ->
          changeSpeed (nth i speeds 0) = nth (S i mod 5) speeds 0)
    /\ (In playbackSpeed speeds ->
        Nat.iter 5 changeSpeed playbackSpeed = playbackSpeed
        /\ forall k, (0 < k < 5)%nat ->
                     Nat.iter k changeSpeed playbackSpeed <> playbackSpeed)
    /\ (indexOf speeds playbackSpeed = (-1)%Z ->
        changeSpeed playbackSpeed = 1 # 4).
Proof.
  intros p. split; [|split; [|split]].
  - unfold changeSpeed, indexOf, speeds. cbn [indexOf_from List.length].
    repeat match goal with
           | |- context [strict_eq ?a ?b] => destruct (strict_eq a b)
           end;
      vm_compute; tauto.
  - intros i Hi.
    destruct i as [|[|[|[|[|i]]]]]; try lia; vm_compute; reflexivity.
  - intros Hin. cbn in Hin.
    destruct Hin as [<-|[<-|[<-|[<-|[<-|[]]]]]]; (split; [vm_compute; reflexivity|]);
      intros k Hk;
      (destruct k as [|[|[|[|[|k]]]]]; try lia);
      vm_compute; discriminate.
  - intros Hidx. unfold changeSpeed. rewrite Hidx. vm_compute. reflexivity.
Qed.

(** The same presets and the same cycle in binary64 arithmetic. *)
Example changeSpeed_binary64 :
  speeds = [0.25; 0.5; 1; 1.5; 2]%float
  /\ map changeSpeed [0.25; 0.5; 1; 1.5; 2; 3]%float
     = [0.5; 1; 1.5; 2; 0.25; 0.25]%float.
Proof. split; vm_compute; reflexivity. Qed.

(** X20: a manual capture puts one frame, with the identifier drawn for it,
    in front of the store; when no frame of the store has that identifier,
    removing it from the gallery leaves the component exactly as it was
    before the capture. *)
Theorem captureFrame_then_onRemove_restores :
  forall (T : Type) (N : Number T) (shown : Seeked (T := T))
         (uuid dataUrl : string) (s : State),
    video s <> None ->
    canvas shown = Encoded dataUrl ->
    (forall f, In f (frames s) -> id f <> uuid) ->
    (captureFrame shown uuid ;; onRemove uuid) s = (Returned tt, s)
    /\ exists f s1,
         captureFrame shown uuid s = (Returned tt, s1)
         /\ frames s1 = f :: frames s
         /\ id f = uuid /\ timestamp f = snapTime shown
         /\ originalDataUrl f = dataUrl.
Proof.
  intros T N shown uuid dataUrl s Hvideo Hcanvas Hfresh.
  assert (Hrun : captureFrame shown uuid s
                 = (Returned tt,
                    setFrames
                      (fun prev =>
                         {| id := uuid; timestamp := snapTime shown;
                            originalDataUrl := dataUrl;
                            width := videoWidth shown;
                            height := videoHeight shown |} :: prev) s)).
  { unfold captureFrame, bind, get, modify.
    destruct (video s); [|contradiction]. rewrite Hcanvas. reflexivity. }
  split.
  - unfold bind. rewrite Hrun. unfold onRemove, modify. f_equal.
    unfold setFrames. cbn [frames filter].
    rewrite String.eqb_refl. cbn [negb].
    rewrite filter_all.
    + destruct s; reflexivity.
    + intros f Hf. apply negb_true_iff. apply String.eqb_neq.
      apply Hfresh. exact Hf.
  - eexists. eexists. split; [exact Hrun|]. cbn. repeat split.
Qed.

Lemma captureFrame_then_onRemove_restores_witness :
  let shown := seeked (distinct_host (T := Q) None) 0 (7 # 2) in
  video one_capture <> None
  /\ canvas shown = Encoded "data:image/jpeg;base64,0"%string
  /\ (forall f, In f (frames one_capture) -> id f <> "id-0"%string)
  /\ (captureFrame shown "id-0"%string ;; onRemove "id-0"%string) one_capture
     = (Returned tt, one_capture)
  /\ exists f s1,
       captureFrame shown "id-0"%string one_capture = (Returned tt, s1)
       /\ frames s1 = f :: frames one_capture
       /\ id f = "id-0"%string /\ timestamp f = snapTime shown
       /\ originalDataUrl f = "data:image/jpeg;base64,0"%string.
Proof.
  cbv zeta.
  assert (H1 : video one_capture <> None) by discriminate.
  assert (H2 : canvas (seeked (distinct_host (T := Q) None) 0 (7 # 2))
               = Encoded "data:image/jpeg;base64,0"%string)
    by reflexivity.
  assert (H3 : forall f, In f (frames one_capture) -> id f <> "id-0"%string).
  { intros f [<-|[]]. discriminate. }
  split; [exact H1|]. split; [exact H2|]. split; [exact H3|].
  exact (@captureFrame_then_onRemove_restores Q Q_Number
           (seeked (distinct_host (T := Q) None) 0 (7 # 2)) "id-0"%string
           "data:image/jpeg;base64,0"%string one_capture H1 H2 H3).
Defined.

(** X24: with a video loaded, the batch button opens the modal and leaves
    the store alone whenever a non-zero frame rate is cached or the timer of
    the measurement fires.  A cached rate is kept and the video is not
    touched; otherwise the rate is measured, a cached 0 counting as none,
    and the cell receives what the measurement resolved, the video being as
    the measurement left it when it resolved. *)
Theorem handleOpenBatchModal_opens_the_modal :
  forall (T : Type) (N : Number T) (detectedFps : option Z) (supported : bool)
         (events : list Event) (s : State (T := T)),
    video s <> None ->
    detected detectedFps = true \/ In Deadline events ->
    exists fps s',
      handleOpenBatchModal detectedFps supported events s = (Returned fps, s')
      /\ isAutoCaptureModalOpen s' = true
      /\ frames s' = frames s
      /\ (detected detectedFps = true ->
          fps = detectedFps /\ s' = setIsAutoCaptureModalOpen true s)
      /\ (detected detectedFps = false ->
          exists v rate snap,
            video s = Some v
            /\ resolved (detectVideoFPS v supported events) = Some (rate, snap)
            /\ fps = Some rate /\ video s' = Some snap).
Proof.
  intros T N detectedFps supported events s Hvideo Hcase.
  unfold handleOpenBatchModal, bind at 1, get.
  destruct (video s) as [v|] eqn:Ev; [clear Hvideo | contradiction].
  destruct (detected detectedFps) eqn:Hd.
  - exists detectedFps, (setIsAutoCaptureModalOpen true s).
    split; [reflexivity|]. cbn.
    split; [reflexivity|]. split; [reflexivity|].
    split; [intros _; split; reflexivity | discriminate].
  - destruct Hcase as [Hc|Hin]; [discriminate|].
    destruct (@settled_run T N events _ (settled_start v supported))
      as (Htimer & _ & _).
    assert (Hr : resolved (detectVideoFPS v supported events) <> None).
    { apply Htimer. apply deadline_turns_timer_off. left. exact Hin. }
    destruct (resolved (detectVideoFPS v supported events)) as [[rate snap]|] eqn:E;
      [|contradiction].
    exists (Some rate),
      (setIsAutoCaptureModalOpen true (onVideo (fun _ => snap) s)).
    split.
    + reflexivity.
    + cbn. rewrite Ev. cbn.
      split; [reflexivity|]. split; [reflexivity|]. split; [discriminate|].
      intros _. exists v, rate, snap.
      split; [reflexivity|]. split; [exact E|]. split; reflexivity.
Qed.

(** A cached 0, and a measurement that the timer ends. *)
Lemma handleOpenBatchModal_opens_the_modal_witness :
  video (one_capture : State (T := Q)) <> None
  /\ (detected (Some 0%Z) = true \/ In (Deadline (T := Q)) [PlayFulfilled; Deadline])
  /\ exists fps s',
       handleOpenBatchModal (Some 0%Z) true [PlayFulfilled; Deadline] one_capture
       = (Returned fps, s')
       /\ isAutoCaptureModalOpen s' = true
       /\ frames s' = frames one_capture
       /\ (detected (Some 0%Z) = true ->
           fps = Some 0%Z /\ s' = setIsAutoCaptureModalOpen true one_capture)
       /\ (detected (Some 0%Z) = false ->
           exists v rate snap,
             video one_capture = Some v
             /\ resolved (detectVideoFPS v true [PlayFulfilled; Deadline])
                = Some (rate, snap)
             /\ fps = Some rate /\ video s' = Some snap).
Proof.
  assert (H1 : video one_capture <> None) by discriminate.
  assert (H2 : detected (Some 0%Z) = true
               \/ In (Deadline (T := Q)) [PlayFulfilled; Deadline])
    by (right; right; left; reflexivity).
  split; [exact H1|]. split; [exact H2|].
  exact (@handleOpenBatchModal_opens_the_modal Q Q_Number (Some 0%Z) true
           [PlayFulfilled; Deadline] one_capture H1 H2).
Defined.
End PlayerFacts.
